(** * Mexico-Energy-Demand: the CSV ingestion cells of [Analysis.ipynb]

    The notebook lists the CSV files of [DATA_FOLDER] with [glob.glob],
    reads each one with [pd.read_csv(path, skiprows=8)], tags the table
    with the path under the column ["file_name"], collects the tables
    in [all_dataframes] (printing a line for every file whose read
    raised) and concatenates them with [pd.concat(.., ignore_index=True)].

    The development embeds these cells together with the parts of
    [glob], [os.path] and of pandas' reader that they exercise, for the
    options the notebook passes (comma separator, double-quote quoting,
    header inferred from the first parsed line, blank lines skipped,
    [on_bad_lines='error']).

    Conventions of the model:
    - paths are POSIX paths and names are matched with their case;
    - a file is its bytes, which pandas reads as UTF-8 text; a field of
      the reader is the byte string between two separators, and its
      value is that string up to its first NUL byte (the C reader keeps
      its tokens as C strings);
    - the reader is modelled on a file that it tokenizes in one pass:
      pandas tokenizes the first two lines, then the rest in chunks of
      [buffer_lines] rows, and on a line that begins with blanks it
      steps back in its buffer; what this changes is said at
      [tokenize_byte] and [read_csv_bytes], and the statements that
      depend on it carry the condition;
    - the values of a table are the tokens of the file, or [NaN] for a
      token that pandas reads as missing; the conversion of a column of
      numerals to numbers is not modelled, as nothing stated here
      depends on it. *)

From Stdlib Require Import Ascii ZArith Lia.
From stdpp Require Import base option list strings gmap pretty.

Local Open Scope Z_scope.
Local Open Scope nat_scope.

(** ** Exceptions and fallible computations *)

(** The exceptions that can reach the notebook's cells.  Every one of
    them derives from Python's [Exception]. *)
Inductive exception : Type :=
  | FileNotFoundError (path : string)
  | IsADirectoryError (path : string)
  | PermissionError (path : string)
  | EmptyDataError                      (* No columns to parse from file *)
  | ParserError_fields (expected line saw : nat)
      (* Error tokenizing data. C error: Expected .. fields in line .., saw .. *)
  | ParserError_eof (row : nat)
      (* Error tokenizing data. C error: EOF inside string starting at row .. *)
  | UnicodeDecodeError
  | ValueError (msg : string)
  | InvalidIndexError.

Inductive result (A : Type) : Type :=
  | Ok (a : A)
  | Raise (e : exception).
Arguments Ok {A} a.
Arguments Raise {A} e.

#[global] Instance result_ret : MRet result := λ A a, Ok a.
#[global] Instance result_bind : MBind result := λ A B k m,
  match m with
  | Ok a => k a
  | Raise e => Raise e
  end.

#[global] Instance result_fmap : FMap result := λ A B f m,
  match m with
  | Ok a => Ok (f a)
  | Raise e => Raise e
  end.

Definition is_ok {A} (m : result A) : bool :=
  match m with Ok _ => true | Raise _ => false end.

(** ** Characters *)

Definition LF : ascii := "010"%char.
Definition CR : ascii := "013"%char.
Definition TAB : ascii := "009"%char.
Definition QUOTE : ascii := "034"%char.
Definition COMMA : ascii := ","%char.
Definition SLASH : ascii := "/"%char.
Definition DOT : ascii := "."%char.
Definition NUL : ascii := "000"%char.

Definition ch_eqb (a b : ascii) : bool := Ascii.eqb a b.
Arguments ch_eqb : simpl never.

Fixpoint string_forall (P : ascii → bool) (s : string) : bool :=
  match s with
  | "" => true
  | String c rest => P c && string_forall P rest
  end.

(** ** [os.path] (posixpath) *)

Fixpoint ends_with_slash (s : string) : bool :=
  match s with
  | "" => false
  | String c "" => ch_eqb c SLASH
  | String _ rest => ends_with_slash rest
  end.

(** [os.path.join(a, b)] for two components. *)
Definition os_path_join (a b : string) : string :=
  match b with
  | String c _ =>
      if ch_eqb c SLASH then b
      else if decide (a = "") then b
      else if ends_with_slash a then a +:+ b
      else a +:+ "/" +:+ b
  | "" =>
      if decide (a = "") then b
      else if ends_with_slash a then a +:+ b
      else a +:+ "/" +:+ b
  end.

(** [p[:i], p[i:]] with [i = p.rfind('/') + 1]: the split right after
    the last slash. *)
Fixpoint rsplit_slash (p : string) : string * string :=
  match p with
  | "" => ("", "")
  | String c rest =>
      let '(h, t) := rsplit_slash rest in
      if decide (h = "") then
        if ch_eqb c SLASH then (String c "", t) else ("", String c t)
      else (String c h, t)
  end.

Fixpoint all_slashes (s : string) : bool :=
  match s with
  | "" => true
  | String c rest => ch_eqb c SLASH && all_slashes rest
  end.

(** [head.rstrip('/')] *)
Fixpoint rstrip_slash (s : string) : string :=
  match s with
  | "" => ""
  | String c rest =>
      let r := rstrip_slash rest in
      if decide (r = "") then (if ch_eqb c SLASH then "" else String c "")
      else String c r
  end.

(** [os.path.split(p)] *)
Definition os_path_split (p : string) : string * string :=
  let '(head, tail) := rsplit_slash p in
  if negb (bool_decide (head = "")) && negb (all_slashes head)
  then (rstrip_slash head, tail)
  else (head, tail).

(** ** The file system

    A directory is the list of its entries in the order [os.scandir]
    yields them (an order the operating system chooses).  An entry is
    what [open] finds behind its name: a regular file with its bytes
    (or a link to one), a sub-directory (or a link to one), a symbolic
    link whose target does not exist, or a file that the user may not
    read.  The file system maps the path of a directory to its entries;
    a path that is not a key is not an accessible directory. *)

Inductive inode : Type :=
  | RegularFile (content : string)
  | Directory
  | BrokenLink
  | Unreadable.

Abbreviation dirent := (string * inode)%type.
Abbreviation filesystem := (gmap string (list dirent)).

Fixpoint find_entry (name : string) (entries : list dirent) : option inode :=
  match entries with
  | [] => None
  | (n, i) :: rest => if decide (n = name) then Some i else find_entry name rest
  end.

(** What [open(path)] and the read give for an entry. *)
Definition open_entry (path : string) (i : inode) : result string :=
  match i with
  | RegularFile content => Ok content
  | Directory => Raise (IsADirectoryError path)
  | BrokenLink => Raise (FileNotFoundError path)
  | Unreadable => Raise (PermissionError path)
  end.

(** The bytes of the file that [open(path)] opens, or the [OSError] it raises. *)
Definition read_bytes (fs : filesystem) (path : string) : result string :=
  let '(dirname, name) := os_path_split path in
  match fs !! dirname with
  | None => Raise (FileNotFoundError path)
  | Some entries =>
      match find_entry name entries with
      | Some i => open_entry path i
      | None => Raise (FileNotFoundError path)
      end
  end.

(** ** [fnmatch] and [glob] *)

(** [fnmatch.fnmatchcase] for patterns made of literal characters, [?]
    and [*] (bracket expressions do not occur in the notebook's
    pattern). *)
Fixpoint fnmatchcase (pat name : string) {struct pat} : bool :=
  match pat with
  | "" => bool_decide (name = "")
  | String p pat' =>
      if ch_eqb p "*"%char then
        (fix star (n : string) : bool :=
           fnmatchcase pat' n ||
           match n with
           | "" => false
           | String _ n' => star n'
           end) name
      else
        match name with
        | "" => false
        | String c name' =>
            (ch_eqb p "?"%char || ch_eqb p c) && fnmatchcase pat' name'
        end
  end.

(** Whether [s] ends with [suffix]. *)
Fixpoint has_suffix (suffix s : string) : bool :=
  bool_decide (s = suffix) ||
  match s with
  | "" => false
  | String _ s' => has_suffix suffix s'
  end.

(** A character that stands for itself in a pattern. *)
Definition literal_char (c : ascii) : bool :=
  negb (ch_eqb c "*"%char || ch_eqb c "?"%char).

(** [glob._ishidden] *)
Definition ishidden (path : string) : bool :=
  match path with
  | String c _ => ch_eqb c DOT
  | "" => false
  end.

(** [glob._iterdir]: the names of the entries of [dirname], whatever
    their kind ([os.scandir] does not open them); an [OSError] from
    [os.scandir] is swallowed and nothing is yielded. *)
Definition iterdir (fs : filesystem) (dirname : string) : list string :=
  match fs !! dirname with
  | Some entries => fst <$> entries
  | None => []
  end.

(** [glob._glob1] *)
Definition glob1 (fs : filesystem) (dirname pattern : string) : list string :=
  let names := iterdir fs dirname in
  let names := if ishidden pattern then names
               else filter (λ x, ishidden x = false) names in
  filter (λ x, fnmatchcase pattern x = true) names.

(** [glob.glob(pathname)] for a [pathname] whose directory part has no
    wildcard and whose last component has one: the branch of
    [glob._iglob] that the notebook's pattern takes. *)
Definition glob_glob (fs : filesystem) (pathname : string) : list string :=
  let '(dirname, basename) := os_path_split pathname in
  os_path_join dirname <$> glob1 fs dirname basename.

(** A name that ends in [.csv] and does not begin with a dot. *)
Definition is_csv_name (name : string) : bool :=
  negb (ishidden name) && has_suffix ".csv" name.

Definition DATA_FOLDER : string := "./data/raw_data/".

(** Cell 7 of the notebook:
    [csv_files = glob.glob(os.path.join(DATA_FOLDER, "*.csv"))]. *)
Definition csv_files (fs : filesystem) : list string :=
  glob_glob fs (os_path_join DATA_FOLDER "*.csv").

(** The cell as a fallible computation, like every cell; this one has
    no raising path. *)
Definition discover (fs : filesystem) : result (list string) :=
  Ok (csv_files fs).

(** ** The tokenizer of pandas' C reader ([tokenizer.c])

    The reader is called with its defaults but for [skiprows]: the
    delimiter is a comma, the quote character is the double quote with
    [doublequote], a line ends at LF, CR or CR LF, there is no comment
    or escape character, and blank lines are skipped. *)

Inductive ParserState : Type :=
  | START_RECORD | START_FIELD | IN_FIELD
  | IN_QUOTED_FIELD | QUOTE_IN_QUOTED_FIELD
  | EAT_CRNL | EAT_CRNL_NOP | WHITESPACE_LINE
  | START_FIELD_IN_SKIP_LINE | IN_FIELD_IN_SKIP_LINE
  | IN_QUOTED_FIELD_IN_SKIP_LINE | QUOTE_IN_QUOTED_FIELD_IN_SKIP_LINE.

(** The fields of [parser_t] that the tokenizer writes: [lines] holds
    the completed rows (the C code keeps them as [words] with
    [line_start] and [line_fields]), [words] the fields of the row
    being read and [stream] the characters of the field being read. *)
Record parser_t : Type := mk_parser {
  state : ParserState;
  file_lines : nat;
  lines : list (list string);
  words : list string;
  stream : string;
}.

Definition parser_init : parser_t :=
  {| state := START_RECORD; file_lines := 0; lines := []; words := []; stream := "" |}.

Definition set_state (s : ParserState) (p : parser_t) : parser_t :=
  {| state := s; file_lines := file_lines p; lines := lines p;
     words := words p; stream := stream p |}.

Definition incr_file_lines (p : parser_t) : parser_t :=
  {| state := state p; file_lines := S (file_lines p); lines := lines p;
     words := words p; stream := stream p |}.

Definition PUSH_CHAR (c : ascii) (p : parser_t) : parser_t :=
  {| state := state p; file_lines := file_lines p; lines := lines p;
     words := words p; stream := stream p +:+ String c "" |}.

Definition clear_stream (p : parser_t) : parser_t :=
  {| state := state p; file_lines := file_lines p; lines := lines p;
     words := words p; stream := "" |}.

Definition end_field (p : parser_t) : parser_t :=
  {| state := state p; file_lines := file_lines p; lines := lines p;
     words := words p ++ [stream p]; stream := "" |}.

Definition IS_TERMINATOR (c : ascii) : bool := ch_eqb c LF.
Definition IS_CARRIAGE (c : ascii) : bool := ch_eqb c CR.
Definition IS_QUOTE (c : ascii) : bool := ch_eqb c QUOTE.
Definition IS_DELIMITER (c : ascii) : bool := ch_eqb c COMMA.
Definition isblank (c : ascii) : bool := ch_eqb c " "%char || ch_eqb c TAB.

Definition in_skip_line (s : ParserState) : bool :=
  match s with
  | START_FIELD_IN_SKIP_LINE | IN_FIELD_IN_SKIP_LINE
  | IN_QUOTED_FIELD_IN_SKIP_LINE | QUOTE_IN_QUOTED_FIELD_IN_SKIP_LINE => true
  | _ => false
  end.

(** [skip_this] with an integer [skiprows]. *)
Definition skip_this (skiprows rownum : nat) : bool := rownum <? skiprows.

(** [end_line].  The header is line 0 ([header_end = 0]) and
    [expected_fields] is unset, so a row is measured against the row
    before it: the first row after the header may be longer than the
    header, a later row that is longer than its predecessor is an
    error, and a shorter row is filled up with empty fields. *)
Definition end_line (p : parser_t) : result parser_t :=
  let fields := length (words p) in
  let ex_fields := from_option length 0 (last (lines p)) in
  if in_skip_line (state p) then
    Ok {| state := state p; file_lines := S (file_lines p); lines := lines p;
          words := []; stream := stream p |}
  else if (1 <? length (lines p)) && (ex_fields <? fields) then
    Raise (ParserError_fields ex_fields (S (file_lines p)) fields)
  else
    let row := if 1 <=? length (lines p)
               then words p ++ replicate (ex_fields - fields) ""
               else words p in
    Ok {| state := state p; file_lines := S (file_lines p);
          lines := lines p ++ [row]; words := []; stream := stream p |}.

(** The macro [END_LINE()]: [end_line] and back to [START_RECORD]. *)
Definition END_LINE (p : parser_t) : result parser_t :=
  set_state START_RECORD <$> end_line p.

Section tokenizer.
Variable skiprows : nat.

(** One character in state [START_FIELD]. *)
Definition start_field_byte (c : ascii) (p : parser_t) : result parser_t :=
  if IS_TERMINATOR c then END_LINE (end_field p)
  else if IS_CARRIAGE c then Ok (set_state EAT_CRNL (end_field p))
  else if IS_QUOTE c then Ok (set_state IN_QUOTED_FIELD p)
  else if IS_DELIMITER c then Ok (end_field p)
  else Ok (set_state IN_FIELD (PUSH_CHAR c p)).

(** One character in state [IN_FIELD]. *)
Definition in_field_byte (c : ascii) (p : parser_t) : result parser_t :=
  if IS_TERMINATOR c then END_LINE (end_field p)
  else if IS_CARRIAGE c then Ok (set_state EAT_CRNL (end_field p))
  else if IS_DELIMITER c then Ok (set_state START_FIELD (end_field p))
  else Ok (PUSH_CHAR c p).

(** One character in state [START_RECORD]. *)
Definition start_record_byte (c : ascii) (p : parser_t) : result parser_t :=
  if skip_this skiprows (file_lines p) then
    if IS_QUOTE c then Ok (set_state IN_QUOTED_FIELD_IN_SKIP_LINE p)
    else if IS_TERMINATOR c then END_LINE (set_state IN_FIELD_IN_SKIP_LINE p)
    else Ok (set_state IN_FIELD_IN_SKIP_LINE p)
  else if IS_TERMINATOR c then Ok (incr_file_lines p)
  else if IS_CARRIAGE c then Ok (set_state EAT_CRNL_NOP (incr_file_lines p))
  else if isblank c then Ok (set_state WHITESPACE_LINE (PUSH_CHAR c p))
  else start_field_byte c (set_state START_FIELD p).

(** One iteration of the loop of [tokenize_bytes].  Where the C code
    steps its read pointer back to look at a character again in
    another state, the model applies that state's transition to the
    same character.  In [WHITESPACE_LINE] the C code, on meeting a
    character that is not blank, steps back to the character after the
    last LF (or to where this call of the tokenizer began) and reads on
    from there in [START_FIELD].  When the line of blanks began right
    after an LF, these are the blanks, read again as the beginning of a
    field; the model has kept them in [stream] for that.  When the line
    before was ended by a CR alone, the C code steps back over that
    line as well and reads it a second time; the model does not follow
    it there, and is the reader only on texts in which an LF follows
    every CR that ends a line ([no_lone_cr]). *)
Definition tokenize_byte (p : parser_t) (c : ascii) : result parser_t :=
  match state p with
  | START_RECORD => start_record_byte c p
  | START_FIELD => start_field_byte c p
  | IN_FIELD => in_field_byte c p
  | IN_QUOTED_FIELD =>
      if IS_QUOTE c then Ok (set_state QUOTE_IN_QUOTED_FIELD p)
      else Ok (PUSH_CHAR c p)
  | QUOTE_IN_QUOTED_FIELD =>
      if IS_QUOTE c then Ok (set_state IN_QUOTED_FIELD (PUSH_CHAR c p))
      else if IS_DELIMITER c then Ok (set_state START_FIELD (end_field p))
      else if IS_TERMINATOR c then END_LINE (end_field p)
      else if IS_CARRIAGE c then Ok (set_state EAT_CRNL (end_field p))
      else Ok (set_state IN_FIELD (PUSH_CHAR c p))
  | EAT_CRNL =>
      if IS_TERMINATOR c then END_LINE p
      else if IS_DELIMITER c then
        p' ← end_line p; Ok (set_state START_FIELD (end_field p'))
      else
        p' ← END_LINE p; start_record_byte c p'
  | EAT_CRNL_NOP =>
      if IS_TERMINATOR c || IS_DELIMITER c then Ok (set_state START_RECORD p)
      else start_record_byte c (set_state START_RECORD p)
  | WHITESPACE_LINE =>
      if IS_TERMINATOR c then
        Ok (set_state START_RECORD (incr_file_lines (clear_stream p)))
      else if IS_CARRIAGE c then
        Ok (set_state EAT_CRNL_NOP (incr_file_lines (clear_stream p)))
      else if isblank c then Ok (PUSH_CHAR c p)
      else in_field_byte c (set_state IN_FIELD p)
  | START_FIELD_IN_SKIP_LINE =>
      if IS_TERMINATOR c then END_LINE p
      else if IS_CARRIAGE c then Ok (set_state EAT_CRNL_NOP (incr_file_lines p))
      else if IS_QUOTE c then Ok (set_state IN_QUOTED_FIELD_IN_SKIP_LINE p)
      else if IS_DELIMITER c then Ok p
      else Ok (set_state IN_FIELD_IN_SKIP_LINE p)
  | IN_FIELD_IN_SKIP_LINE =>
      if IS_TERMINATOR c then END_LINE p
      else if IS_CARRIAGE c then Ok (set_state EAT_CRNL_NOP (incr_file_lines p))
      else if IS_DELIMITER c then Ok (set_state START_FIELD_IN_SKIP_LINE p)
      else Ok p
  | IN_QUOTED_FIELD_IN_SKIP_LINE =>
      if IS_QUOTE c then Ok (set_state QUOTE_IN_QUOTED_FIELD_IN_SKIP_LINE p)
      else Ok p
  | QUOTE_IN_QUOTED_FIELD_IN_SKIP_LINE =>
      if IS_QUOTE c then Ok (set_state IN_QUOTED_FIELD_IN_SKIP_LINE p)
      else if IS_TERMINATOR c then END_LINE p
      else if IS_CARRIAGE c then Ok (set_state EAT_CRNL_NOP (incr_file_lines p))
      else if IS_DELIMITER c then Ok (set_state START_FIELD_IN_SKIP_LINE p)
      else Ok (set_state IN_FIELD_IN_SKIP_LINE p)
  end.

(** [tokenize_bytes] over the whole input.  On an error the parser is
    returned as it stood, with the error that the Python layer will
    raise as [ParserError]. *)
Fixpoint tokenize_bytes (p : parser_t) (data : string) : parser_t * option exception :=
  match data with
  | "" => (p, None)
  | String c rest =>
      match tokenize_byte p c with
      | Ok p' => tokenize_bytes p' rest
      | Raise e => (p, Some e)
      end
  end.

(** [parser_handle_eof] *)
Definition parser_handle_eof (p : parser_t) : result parser_t :=
  match state p with
  | START_RECORD | WHITESPACE_LINE | EAT_CRNL_NOP => Ok p
  | IN_QUOTED_FIELD => Raise (ParserError_eof (file_lines p))
  | IN_FIELD | START_FIELD | QUOTE_IN_QUOTED_FIELD => end_line (end_field p)
  | _ => end_line p
  end.

(** [tokenize_all_rows] *)
Definition tokenize_all_rows (data : string) : parser_t * option exception :=
  match tokenize_bytes parser_init data with
  | (p, Some e) => (p, Some e)
  | (p, None) =>
      match parser_handle_eof p with
      | Ok p' => (p', None)
      | Raise e => (p, Some e)
      end
  end.
End tokenizer.

(** The state of the tokenizer after the characters of the first field
    of a row. *)
Definition first_field_state (f : string) : ParserState :=
  match f with
  | "" => START_RECORD
  | _ => if string_forall isblank f then WHITESPACE_LINE else IN_FIELD
  end.

(** All rows after the first data row are as wide as it, and it is at
    least as wide as the header. *)
Definition rect (ls : list (list string)) : Prop :=
  match ls with
  | [] | [_] => True
  | h :: l1 :: rest => length h ≤ length l1 ∧ Forall (λ l, length l = length l1) rest
  end.

(** The states the tokenizer is in while it skips the leading rows. *)
Definition skip_region (st : ParserState) : bool :=
  match st with
  | START_RECORD | EAT_CRNL_NOP => true
  | _ => in_skip_line st
  end.

Definition after_cr (st : ParserState) : bool :=
  match st with EAT_CRNL_NOP => true | _ => false end.

(** ** Decoding and conversion of the tokens *)

(** The continuation bytes that must follow a UTF-8 lead byte, each
    with the range it has to lie in; [None] for a byte that cannot
    begin a character. *)
Definition utf8_lead (b : N) : option (list (N * N)) :=
  let tail := (128, 191)%N in
  if (b <=? 127)%N then Some []
  else if (b <? 194)%N then None
  else if (b <=? 223)%N then Some [tail]
  else if (b =? 224)%N then Some [(160, 191)%N; tail]
  else if (b =? 237)%N then Some [(128, 159)%N; tail]
  else if (b <=? 239)%N then Some [tail; tail]
  else if (b =? 240)%N then Some [(144, 191)%N; tail; tail]
  else if (b <=? 243)%N then Some [tail; tail; tail]
  else if (b =? 244)%N then Some [(128, 143)%N; tail; tail]
  else None.

Fixpoint utf8_check (pending : list (N * N)) (s : string) : bool :=
  match s with
  | "" => bool_decide (pending = [])
  | String c rest =>
      let b := N_of_ascii c in
      match pending with
      | (lo, hi) :: more => (lo <=? b)%N && (b <=? hi)%N && utf8_check more rest
      | [] =>
          match utf8_lead b with
          | Some ranges => utf8_check ranges rest
          | None => false
          end
      end
  end.

(** Whether the bytes are well formed UTF-8. *)
Definition utf8_valid (s : string) : bool := utf8_check [] s.

(** What the reader gets from the file.  With the default encoding
    pandas opens the file as text ([encoding="utf-8"],
    [errors="strict"], [newline=""]), and the reader encodes what it
    reads as UTF-8 again: the bytes reach the tokenizer as they are in
    the file when they are well formed UTF-8, and the read raises
    otherwise.  (The file is read in blocks of 262144 characters as the
    tokenizer asks for them; the model decodes it at once, which makes
    no difference to the table, and none to the exception unless a
    file longer than a block has two defects.) *)
Definition read_text (data : string) : result string :=
  if utf8_valid data then Ok data else Raise UnicodeDecodeError.

(** pandas' [STR_NA_VALUES] *)
Definition STR_NA_VALUES : list string :=
  ["-1.#IND"; "1.#QNAN"; "1.#IND"; "-1.#QNAN"; "#N/A N/A"; "#N/A"; "N/A";
   "n/a"; "NA"; "<NA>"; "#NA"; "NULL"; "null"; "NaN"; "-NaN"; "nan"; "-nan";
   "None"; ""].

(** A value of a table.  A numeric column of pandas holds the numbers
    its tokens denote; the model keeps the text of the token. *)
Inductive cell : Type :=
  | Text (s : string)
  | NaN.

#[global] Instance cell_eq_dec : EqDecision cell.
Proof. solve_decision. Defined.

(** A token as the conversions read it.  The tokenizer writes the
    characters of a field into its stream and ends the field with a NUL
    byte; a token is the C string that starts there, so it ends at the
    first NUL byte of the field. *)
Fixpoint c_str (word : string) : string :=
  match word with
  | "" => ""
  | String c rest => if ch_eqb c NUL then "" else String c (c_str rest)
  end.


(** The value made of a token: missing for the tokens of
    [STR_NA_VALUES], the text otherwise. *)
Definition to_cell (word : string) : cell :=
  let word := c_str word in
  if bool_decide (word ∈ STR_NA_VALUES) then NaN else Text word.

Definition to_cells (fields : list string) : list cell := to_cell <$> fields.

(** ** Column names ([TextReader._get_header]) *)

(** [f"{old_col}.{cur_count}"] *)
Definition renamed (old_col : string) (cur_count : nat) : string :=
  old_col +:+ "." +:+ pretty cur_count.

(** The body of the [while cur_count > 0] loop that renames a repeated
    column name; [fuel] bounds the number of iterations. *)
Fixpoint mangle_loop (fuel : nat) (this_header : list string) (old_col col : string)
    (cur_count : nat) (counts : gmap string nat) : string * nat * gmap string nat :=
  match fuel with
  | 0 => (col, cur_count, counts)
  | S fuel' =>
      if 0 <? cur_count then
        let counts := <[old_col := S cur_count]> counts in
        let col := renamed old_col cur_count in
        let cur_count := if bool_decide (col ∈ this_header) then S cur_count
                         else default 0 (counts !! col) in
        mangle_loop fuel' this_header old_col col cur_count counts
      else (col, cur_count, counts)
  end.

(** One pass of [for i in col_loop_order]. *)
Definition mangle_step (st : list string * gmap string nat) (i : nat)
    : list string * gmap string nat :=
  let '(this_header, counts) := st in
  match this_header !! i with
  | None => st
  | Some col =>
      let '(col', cur_count, counts') :=
        mangle_loop (S (length this_header)) this_header col col
                    (default 0 (counts !! col)) counts in
      (<[i := col']> this_header, <[col' := S cur_count]> counts')
  end.

Definition unnamed (i : nat) : string := "Unnamed: " +:+ pretty i.

(** Indices of the header fields that are empty ([unnamed_col_indices]). *)
Definition unnamed_col_indices (names : list string) : list nat :=
  filter (λ i, names !! i = Some "") (seq 0 (length names)).

(** The names of the columns from the decoded header fields: an empty
    field becomes [Unnamed: i], and repeated names are renamed, the
    given names first and the unnamed ones after them. *)
Definition column_names (names : list string) : list string :=
  let unnamed_idx := unnamed_col_indices names in
  let this_header := imap (λ i name, if decide (name = "") then unnamed i else name) names in
  let col_loop_order :=
    filter (λ i, i ∉ unnamed_idx) (seq 0 (length this_header)) ++ unnamed_idx in
  (foldl mangle_step (this_header, ∅) col_loop_order).1.

(** What the renaming loop keeps true while it walks [col_loop_order]:
    [P] are the positions done, [counts] knows exactly the names at
    these positions, and these names differ from each other. *)
Record mangle_inv (n : nat) (P : list nat) (h : list string)
    (counts : gmap string nat) : Prop := {
  inv_len : length h = n;
  inv_keys : ∀ name, is_Some (counts !! name) → ∃ j, j ∈ P ∧ h !! j = Some name;
  inv_pos : ∀ name c, counts !! name = Some c → 1 ≤ c;
  inv_named : ∀ j name, j ∈ P → h !! j = Some name → is_Some (counts !! name);
  inv_distinct : ∀ j1 j2 name, j1 ∈ P → j2 ∈ P →
    h !! j1 = Some name → h !! j2 = Some name → j1 = j2;
}.

(** ** Tables *)

(** The label of a row: its position, or the values of the leading
    fields when the reader takes them as the index. *)
Inductive label : Type :=
  | Pos (i : nat)
  | Key (k : list cell).

Record row : Type := mk_row { r_label : label; r_cells : list cell }.

Record DataFrame : Type := mk_df {
  columns : list string;
  rows : list row;
}.

#[global] Instance label_eq_dec : EqDecision label.
Proof. solve_decision. Defined.
#[global] Instance row_eq_dec : EqDecision row.
Proof. solve_decision. Defined.
#[global] Instance DataFrame_eq_dec : EqDecision DataFrame.
Proof. solve_decision. Defined.

Definition nrows (df : DataFrame) : nat := length (rows df).

(** Every row has as many values as the table has columns. *)
Definition rows_fit (df : DataFrame) : Prop :=
  Forall (λ r, length (r_cells r) = length (columns df)) (rows df).

(** ** [pd.read_csv(path, skiprows=..)] *)

(** The row of the table made from the [i]-th data line: its first
    [leading_cols] values are the label when there are any. *)
Definition make_row (leading_cols i : nat) (cells : list cell) : row :=
  if decide (leading_cols = 0) then {| r_label := Pos i; r_cells := cells |}
  else {| r_label := Key (take leading_cols cells); r_cells := drop leading_cols cells |}.

(** [TextReader.__cinit__]: the number of rows of a chunk of the
    low-memory reader, the largest power of 2 below [2**20 //
    table_width]:
    [heuristic = 2**20 // table_width; buffer_lines = 1;
     while buffer_lines * 2 < heuristic: buffer_lines *= 2].
    The loop runs at most 19 times; a table has at least one column. *)
Fixpoint buffer_lines_loop (fuel : nat) (heuristic buffer_lines : N) : N :=
  match fuel with
  | 0 => buffer_lines
  | S fuel' =>
      if (buffer_lines * 2 <? heuristic)%N
      then buffer_lines_loop fuel' heuristic (buffer_lines * 2)%N
      else buffer_lines
  end.

Definition buffer_lines (table_width : nat) : N :=
  buffer_lines_loop 20 (2 ^ 20 / N.of_nat table_width)%N 1%N.

(** A file whose header row and [n] rows after it are all tokenized
    before the first chunk of the reader is full. *)
Definition one_chunk (table_width n : nat) : Prop :=
  (N.of_nat n + 2 < buffer_lines table_width)%N.

(** The reader on the bytes of a file: the first line that is neither
    skipped nor blank names the columns, the lines after it are the
    rows.  When the first of them has more fields than the header, the
    leading fields of every row are taken as its label.

    pandas tokenizes the header row and the first data row, and then
    the rows in chunks of [buffer_lines table_width] rows, forgetting
    the rows of a chunk before it reads the next one; the model
    tokenizes the whole text at once.  The two agree on a file with
    fewer data rows than one chunk.  On a longer file they agree when
    the rows have the width of the header; they differ where [end_line]
    measures the first rows of a later chunk against the rows before
    them. *)
Definition read_csv_bytes (skiprows : nat) (data : string) : result DataFrame :=
  text ← read_text data;
  match tokenize_all_rows skiprows text with
  | (_, Some e) => Raise e
  | (p, None) =>
      match lines p with
      | [] => Raise EmptyDataError
      | header :: data_lines =>
          let table_width := from_option length (length header) (head data_lines) in
          let leading_cols := table_width - length header in
          Ok {| columns := column_names (c_str <$> header);
                rows := imap (make_row leading_cols) (to_cells <$> data_lines) |}
      end
  end.

Definition pd_read_csv (fs : filesystem) (path : string) (skiprows : nat) : result DataFrame :=
  data ← read_bytes fs path;
  read_csv_bytes skiprows data.

(** ** Operations on tables *)

(** The value of a row under the first column called [key]. *)
Fixpoint get_named (key : string) (cols : list string) (cells : list cell) : option cell :=
  match cols, cells with
  | c :: cols', x :: cells' =>
      if decide (c = key) then Some x else get_named key cols' cells'
  | _, _ => None
  end.

(** A row with [v] under every column called [key]. *)
Fixpoint set_named (key : string) (v : cell) (cols : list string) (cells : list cell)
    : list cell :=
  match cols, cells with
  | c :: cols', x :: cells' =>
      (if decide (c = key) then v else x) :: set_named key v cols' cells'
  | _, _ => cells
  end.

Definition map_cells (f : list cell → list cell) (r : row) : row :=
  {| r_label := r_label r; r_cells := f (r_cells r) |}.

(** [df[key] = value] for a scalar [value]: an existing column of that
    name is overwritten, otherwise the column is added as the last. *)
Definition setitem (df : DataFrame) (key : string) (value : cell) : DataFrame :=
  if bool_decide (key ∈ columns df) then
    {| columns := columns df;
       rows := map_cells (set_named key value (columns df)) <$> rows df |}
  else
    {| columns := columns df ++ [key];
       rows := map_cells (λ cells, cells ++ [value]) <$> rows df |}.

(** The columns of the concatenation when the tables do not all have
    the same: each table adds, in its order, the columns not met yet. *)
Definition union_columns (objs : list DataFrame) : list string :=
  foldl (λ acc df, acc ++ filter (λ c, c ∉ acc) (columns df)) [] objs.

(** A row brought to the columns [target]: a column the row's table
    does not have is filled with [NaN]. *)
Definition reindex_cells (target cols : list string) (cells : list cell) : list cell :=
  (λ c, default NaN (get_named c cols cells)) <$> target.

Definition renumber (rs : list (list cell)) : list row :=
  imap (λ i cells, {| r_label := Pos i; r_cells := cells |}) rs.

(** The rows of [df] under the columns [cols] of the result; a table
    that has these columns already is taken as it is. *)
Definition align (cols : list string) (df : DataFrame) : list (list cell) :=
  if decide (columns df = cols) then r_cells <$> rows df
  else (λ r, reindex_cells cols (columns df) (r_cells r)) <$> rows df.

Definition same_columns (objs : list DataFrame) : bool :=
  match objs with
  | [] => true
  | first :: _ => forallb (λ df, bool_decide (columns df = columns first)) objs
  end.

(** [pd.concat(objs, ignore_index=True)]: the rows of the tables one
    after the other under the outer join of their columns.  Tables
    with different columns can only be joined when no table repeats a
    column name. *)
Definition pd_concat (objs : list DataFrame) : result DataFrame :=
  match objs with
  | [] => Raise (ValueError "No objects to concatenate")
  | first :: _ =>
      if same_columns objs then
        Ok {| columns := columns first;
              rows := renumber (objs ≫= align (columns first)) |}
      else if forallb (λ df, bool_decide (NoDup (columns df))) objs then
        let cols := union_columns objs in
        Ok {| columns := cols; rows := renumber (objs ≫= align cols) |}
      else Raise InvalidIndexError
  end.

(** ** The cells of the notebook *)

(** [add_file_name(path)], whose comment reads: Reads the csv file
    from the path and adds a coulumn with the file name. *)
Definition add_file_name (fs : filesystem) (path : string) : result DataFrame :=
  df ← pd_read_csv fs path 8;
  let df := setitem df "file_name" (Text path) in
  Ok df.

(** A line written by [print(f"Failed to read {file}: {e}")]. *)
Inductive output_line : Type :=
  | Failed_to_read (file : string) (e : exception).

(** What the loop of cell 9 changes: the list [all_dataframes] and the
    standard output. *)
Record loop_state : Type := mk_loop {
  all_dataframes : list DataFrame;
  stdout : list output_line;
}.

(** The body of [for file in tqdm(csv_files, ..)]: the [try] with its
    [except Exception as e]. *)
Definition loop_body (fs : filesystem) (st : loop_state) (file : string) : loop_state :=
  match add_file_name fs file with
  | Ok df =>
      {| all_dataframes := all_dataframes st ++ [df]; stdout := stdout st |}
  | Raise e =>
      {| all_dataframes := all_dataframes st;
         stdout := stdout st ++ [Failed_to_read file e] |}
  end.

Definition read_all (fs : filesystem) (csv_files : list string) : loop_state :=
  foldl (loop_body fs) {| all_dataframes := []; stdout := [] |} csv_files.

(** Cells 7, 9 and 10 in sequence: the table [full_df], or the
    exception that stopped the run, together with what the loop printed
    on the way.  The cells in between only display a sample file and
    the result ([df_sample.head()], [full_df.info()]); they are left
    out. *)
Definition build (fs : filesystem) : result DataFrame * list output_line :=
  match discover fs with
  | Raise e => (Raise e, [])
  | Ok csv_files =>
      let st := read_all fs csv_files in
      (pd_concat (all_dataframes st), stdout st)
  end.

(** The files that were read and the tables made of them, in the order
    of [csv_files]. *)
Definition parsed (fs : filesystem) (csv_files : list string) : list (string * DataFrame) :=
  omap (λ file, match add_file_name fs file with
                | Ok df => Some (file, df)
                | Raise _ => None
                end) csv_files.

(** The number of rows [pd.read_csv] makes of a file, when it does
    not raise. *)
Definition parse_row_count (fs : filesystem) (file : string) : option nat :=
  match pd_read_csv fs file 8 with
  | Ok df => Some (nrows df)
  | Raise _ => None
  end.

(** The files whose read raised, each with its exception. *)
Definition failed (fs : filesystem) (csv_files : list string) : list (string * exception) :=
  omap (λ file, match add_file_name fs file with
                | Ok _ => None
                | Raise e => Some (file, e)
                end) csv_files.

(** ** Cleaning of the net exchange column *)

Definition SENTINEL : string := "---".
Definition NET_EXCHANGE : string := " Intercambio neto entre Gerencias (MWh)".

Definition normalize_cell (c : cell) : cell :=
  match c with
  | Text s => if decide (s = SENTINEL) then NaN else Text s
  | NaN => NaN
  end.

Fixpoint normalize_cells (cols : list string) (cells : list cell) : list cell :=
  match cols, cells with
  | c :: cols', x :: cells' =>
      (if decide (c = NET_EXCHANGE) then normalize_cell x else x)
        :: normalize_cells cols' cells'
  | _, _ => cells
  end.

(** Modelled from the spec: [normalize], which the notebook of [src/]
    announces ("Change --- to np.nan in Intercambio neto entre
    Gerencias") and does not contain.  It replaces the sentinel token
    in the net exchange field of every row by the missing value and
    leaves every other field as it is. *)
Definition normalize (d : DataFrame) : DataFrame :=
  {| columns := columns d;
     rows := map_cells (normalize_cells (columns d)) <$> rows d |}.

(** ** Files of the expected layout *)

Fixpoint str_join (sep : string) (l : list string) : string :=
  match l with
  | [] => ""
  | [x] => x
  | x :: l' => x +:+ sep +:+ str_join sep l'
  end.

(** How the lines of a file end: with a line feed, or with a carriage
    return and a line feed. *)
Inductive newline : Type := NL_LF | NL_CRLF.

Definition eol (nl : newline) : string :=
  match nl with
  | NL_LF => String LF ""
  | NL_CRLF => String CR (String LF "")
  end.

(** A line of text followed by its line end. *)
Definition text_line (nl : newline) (s : string) : string := s +:+ eol nl.

Definition csv_line (nl : newline) (fields : list string) : string :=
  text_line nl (str_join "," fields).

Fixpoint concat_lines (l : list string) : string :=
  match l with
  | [] => ""
  | x :: l' => x +:+ concat_lines l'
  end.

(** The bytes of a file with the metadata lines [meta], the header row
    [header] and the data rows [data], every line ended by [nl]. *)
Definition render_file (nl : newline) (meta : list string) (header : list string)
    (data : list (list string)) : string :=
  concat_lines (text_line nl <$> meta) +:+ csv_line nl header
  +:+ concat_lines (csv_line nl <$> data).

(** A character a field can hold without quoting.  (A NUL byte is
    one: the tokenizer reads it as any other character, and the token
    ends there when it is converted, see [c_str].) *)
Definition plain_char (c : ascii) : bool :=
  negb (IS_DELIMITER c || IS_QUOTE c || IS_TERMINATOR c || IS_CARRIAGE c).

(** A character of a metadata line. *)
Definition meta_char (c : ascii) : bool :=
  negb (IS_QUOTE c || IS_TERMINATOR c || IS_CARRIAGE c).

(** A row is blank when it is a single field of spaces and tabs (the
    reader skips such a line). *)
Definition blank_row (fields : list string) : bool :=
  match fields with
  | [f] => string_forall isblank f
  | [] => true
  | _ => false
  end.

Definition plain_row (width : nat) (fields : list string) : bool :=
  bool_decide (length fields = width)
  && forallb (λ f, string_forall plain_char f && utf8_valid f) fields
  && negb (blank_row fields).

(** A file of the layout the notebook expects: [skip] metadata lines,
    a header row and data rows of as many fields as the header. *)
Definition well_formed (skip : nat) (meta header : list string)
    (data : list (list string)) : bool :=
  bool_decide (length meta = skip)
  && forallb (λ m, string_forall meta_char m && utf8_valid m) meta
  && plain_row (length header) header
  && forallb (plain_row (length header)) data.

(** The number of line ends of a text, a CR LF pair counting once;
    [after_cr] tells that the character before was a CR. *)
Fixpoint line_ends (after_cr : bool) (s : string) : nat :=
  match s with
  | "" => 0
  | String c rest =>
      if ch_eqb c LF then (if after_cr then 0 else 1) + line_ends false rest
      else if ch_eqb c CR then 1 + line_ends true rest
      else line_ends false rest
  end.

Fixpoint ends_with_newline (s : string) : bool :=
  match s with
  | "" => true
  | String c "" => ch_eqb c LF || ch_eqb c CR
  | String _ rest => ends_with_newline rest
  end.

(** One for a last line that is not ended. *)
Definition pending (s : string) : nat := if ends_with_newline s then 0 else 1.

(** The number of lines of a text: its line ends, and one more for a
    last line that is not ended. *)
Definition line_count (s : string) : nat := line_ends false s + pending s.


(** Every CR of the text is followed by an LF: no line is ended by a
    CR alone. *)
Fixpoint no_lone_cr (s : string) : bool :=
  match s with
  | "" => true
  | String c rest =>
      (if ch_eqb c CR
       then match rest with String d _ => ch_eqb d LF | "" => false end
       else true)
      && no_lone_cr rest
  end.






(** The pieces of a text between the occurrences of [sep]. *)
Fixpoint split_on (sep : ascii) (s : string) : list string :=
  match s with
  | "" => [""]
  | String c rest =>
      if ch_eqb c sep then "" :: split_on sep rest
      else match split_on sep rest with
           | [] => [String c ""]
           | w :: ws => String c w :: ws
           end
  end.

(** The number of comma separated columns of the [n]-th line of a
    text (from 1), if it has that many lines. *)
Definition columns_of_line (n : nat) (s : string) : option nat :=
  (λ line, length (split_on COMMA line)) <$> split_on LF s !! (n - 1).



(** ** Sample files *)

Definition META : list string :=
  ["Centro Nacional de Control de Energia";
   "Estimacion de la Demanda Real del Sistema";
   "Demanda Real por Balance";
   "";
   "Dia de Operacion: 2023-01-01";
   "Version: 2023 01 15";
   "";
   "Datos horarios"].

(** The header row of the files, as cell 11 of the notebook shows it. *)
Definition HEADER : list string :=
  ["Sistema"; " Area"; " Hora"; " Generacion (MWh)"; " Importacion Total (MWh)";
   " Exportacion Total (MWh)"; " Intercambio neto entre Gerencias (MWh)";
   " Estimacion de Demanda por Balance (MWh) "].

Definition hour_row (h : nat) : list string :=
  ["BCA"; "BCA"; pretty h; "1036.03252"; "22.10174"; "20.97918"; "---"; "1037.15508"].

(** A file with the 24 hours of one area. *)
Definition file_A : string := render_file NL_CRLF META HEADER (hour_row <$> seq 1 24).

(** A file that is not a table. *)
Definition file_B : string := "<html>Service unavailable</html>".

Definition path_A : string := "./data/raw_data/A.csv".
Definition path_B : string := "./data/raw_data/B.csv".

Definition fs_AB : filesystem :=
  {[ "./data/raw_data" := [("A.csv", RegularFile file_A); ("B.csv", RegularFile file_B)] ]}.

(** The data folder with the file that is not a table alone. *)
Definition fs_only_B : filesystem :=
  {[ "./data/raw_data" := [("B.csv", RegularFile file_B)] ]}.

(** A file whose header row has three columns. *)
Definition file_three_columns : string :=
  render_file NL_LF META ["a"; "b"; "c"] [["1"; "2"; "3"]; ["4"; "5"; "6"]].

Definition fs_three_columns : filesystem :=
  {[ "./data/raw_data" := [("A.csv", RegularFile file_three_columns)] ]}.

(** The data folder with the file of 24 hours and the file of three
    columns. *)
Definition fs_A_three_columns : filesystem :=
  {[ "./data/raw_data" :=
       [("A.csv", RegularFile file_A); ("B.csv", RegularFile file_three_columns)] ]}.

(** A file with a single data row. *)
Definition file_one_row : string := render_file NL_LF META HEADER [hour_row 1].

(** A file that has a column called [file_name] itself. *)
Definition file_with_file_name : string :=
  render_file NL_CRLF META ["Hora"; "file_name"] [["1"; "enero.csv"]].

Definition fs_with_file_name : filesystem :=
  {[ "./data/raw_data" := [("A.csv", RegularFile file_with_file_name)] ]}.

(** The data folder with nothing in it. *)
Definition fs_empty_folder : filesystem := {[ "./data/raw_data" := [] ]}.

(** A folder with three CSV files and two other files. *)
Definition fs_five_files : filesystem :=
  {[ "./data/raw_data" :=
       [("d1.csv", RegularFile file_A); ("notes.txt", RegularFile "notes");
        ("d2.csv", RegularFile file_A); ("d3.csv", RegularFile file_one_row);
        ("README.md", RegularFile "readme")] ]}.

(** ** The display cells of the notebook *)

(** [DataFrame.head(n)] for [n >= 0], that is [self.iloc[:n]]: the
    first [n] rows under the same columns, each with its label.  The
    notebook calls it with the default [n = 5]. *)
Definition DataFrame_head (df : DataFrame) (n : nat) : DataFrame :=
  {| columns := columns df; rows := take n (rows df) |}.

(** What a cell that indexes a list yields: a value, the [IndexError]
    of [csv_files[0]] on an empty list, or an exception of the reader. *)
Inductive cell_result (A : Type) : Type :=
  | Value (a : A)
  | IndexError                          (* list index out of range *)
  | Raised (e : exception).
Arguments Value {A} a.
Arguments IndexError {A}.
Arguments Raised {A} e.

(** The file that cell 4 reads. *)
Definition SAMPLE_NAME : string :=
  "Demanda Real Balance_0_v3 Dia Operacion 2023-01-01 v2023 01 15_12 25 01.csv".
Definition SAMPLE_FILE : string := "./data/raw_data/" +:+ SAMPLE_NAME.

(** Cell 4: [df_sample = pd.read_csv(<SAMPLE_FILE>, skiprows=8)] and
    [df_sample.head()]; the table bound to [df_sample] and the table
    displayed. *)
Definition cell_4 (fs : filesystem) : result (DataFrame * DataFrame) :=
  df_sample ← pd_read_csv fs SAMPLE_FILE 8;
  Ok (df_sample, DataFrame_head df_sample 5).

(** The line that cell 7 prints:
    [print(f"Found {len(csv_files)} CSV files")]. *)
Definition found_line (csv_files : list string) : string :=
  "Found " +:+ pretty (length csv_files) +:+ " CSV files".

(** Cell 8: [df_sample = pd.read_csv(csv_files[0], skiprows=8)] and
    [df_sample.head()]. *)
Definition cell_8 (fs : filesystem) : cell_result (DataFrame * DataFrame) :=
  match csv_files fs with
  | [] => IndexError
  | file :: _ =>
      match pd_read_csv fs file 8 with
      | Ok df_sample => Value (df_sample, DataFrame_head df_sample 5)
      | Raise e => Raised e
      end
  end.

(** Cell 12: [full_df.head()]. *)
Definition cell_12 (fs : filesystem) : result DataFrame :=
  full_df ← (build fs).1; Ok (DataFrame_head full_df 5).

(** ** Files with quoted fields and blank lines *)

(** A field as a file writes it: as it stands, or between double
    quotes with every double quote of its text written twice. *)
Inductive field_src : Type :=
  | Plain (text : string)
  | Quoted (text : string).

Definition field_value (f : field_src) : string :=
  match f with Plain s | Quoted s => s end.

Fixpoint double_quotes (s : string) : string :=
  match s with
  | "" => ""
  | String c rest =>
      if IS_QUOTE c then String QUOTE (String QUOTE (double_quotes rest))
      else String c (double_quotes rest)
  end.

Definition render_field (f : field_src) : string :=
  match f with
  | Plain s => s
  | Quoted s => String QUOTE (double_quotes s +:+ String QUOTE "")
  end.

(** A plain field holds no comma, double quote or line end; a quoted
    field may hold any character. *)
Definition field_shape (f : field_src) : bool :=
  match f with
  | Plain s => string_forall plain_char s
  | Quoted _ => true
  end.


(** A row that the reader takes for a blank line: no field, or a
    single plain field of blanks. *)
Definition blank_src (fields : list field_src) : bool :=
  match fields with
  | [] => true
  | [Plain s] => string_forall isblank s
  | _ => false
  end.

(** A line of the part of a file that follows the skipped lines: a row
    or a line of blanks. *)
Inductive file_line : Type :=
  | Row (fields : list field_src)
  | Blank (blanks : string).

Definition render_line (nl : newline) (l : file_line) : string :=
  match l with
  | Row fields => text_line nl (str_join "," (render_field <$> fields))
  | Blank blanks => text_line nl blanks
  end.




(** The metadata lines of a file of the expected layout. *)
Definition meta_ok (skip : nat) (meta : list string) : bool :=
  bool_decide (length meta = skip)
  && forallb (λ m, string_forall meta_char m && utf8_valid m) meta.

(** A row of plain fields, of any width, that is not blank. *)
Definition plain_fields (fields : list string) : bool :=
  forallb (λ f, string_forall plain_char f && utf8_valid f) fields
  && negb (blank_row fields).


(** A row filled up to [width] fields with empty fields, as [end_line]
    does with a row shorter than the row before it. *)
Definition pad_row (width : nat) (fields : list string) : list string :=
  fields ++ replicate (width - length fields) "".

(** Whether a name holds no slash, as every name of a directory entry. *)
Definition slash_free (name : string) : bool :=
  string_forall (λ c, negb (ch_eqb c SLASH)) name.

(** ** Counting the lines the reader has met

    What is left of the line count of the text while the reader stands
    in a state with [rest] still to read. *)

(** A carriage return has been read whose line is not counted yet. *)
Definition owed (st : ParserState) : nat :=
  match st with EAT_CRNL => 1 | _ => 0 end.

(** The character before was a carriage return. *)
Definition cr_seen (st : ParserState) : bool :=
  match st with EAT_CRNL | EAT_CRNL_NOP => true | _ => false end.

(** The states in which the end of the input ends a line. *)
Definition line_open (st : ParserState) : nat :=
  match st with
  | START_RECORD | WHITESPACE_LINE | EAT_CRNL_NOP | EAT_CRNL | IN_QUOTED_FIELD => 0
  | _ => 1
  end.

Definition tail_at (x : nat) (rest : string) : nat :=
  match rest with "" => x | _ => pending rest end.

Definition lines_ahead (st : ParserState) (rest : string) : nat :=
  owed st + line_ends (cr_seen st) rest + tail_at (line_open st) rest.

(** The states of a row that is not skipped. *)
Definition active (st : ParserState) : bool :=
  match st with
  | START_FIELD | IN_FIELD | IN_QUOTED_FIELD | QUOTE_IN_QUOTED_FIELD
  | EAT_CRNL | WHITESPACE_LINE => true
  | _ => false
  end.

(** The rows kept were counted after the skipped ones. *)
Definition counted (skiprows : nat) (p : parser_t) : Prop :=
  (length (lines p) = 0 ∨ skiprows + length (lines p) ≤ file_lines p)
  ∧ (active (state p) = true → skiprows ≤ file_lines p).

(** ** More sample files *)

(** The data folder with the file of cell 4, a directory whose name
    ends in [.csv] and a link of such a name whose target is gone. *)
Definition fs_sample : filesystem :=
  {[ "./data/raw_data" :=
       [(SAMPLE_NAME, RegularFile file_A); ("old.csv", Directory);
        ("B.csv", RegularFile file_B); ("gone.csv", BrokenLink)] ]}.




Definition file_long_row : string :=
  render_file NL_LF META ["a"; "b"; "c"] [["1"; "2"; "3"]; ["4"; "5"; "6"; "7"]].


(** A folder whose files do not have the same columns. *)
Definition fs_mixed_columns : filesystem :=
  {[ "./data/raw_data" :=
       [("d1.csv", RegularFile file_three_columns);
        ("d2.csv", RegularFile (render_file NL_LF META ["c"; "d"] [["7"; "8"]]))] ]}.

(** * Properties *)

Lemma renamed_inj (old : string) : Inj (=) (=) (renamed old).
Proof.
  intros k1 k2 H. unfold renamed in H. apply (inj (String.app old)) in H.
  apply (inj (String.app ".")) in H. by apply (inj pretty) in H.
Qed.

Lemma candidates_bounded (h : list string) (old : string) (K : list nat) :
  NoDup K → (∀ k, k ∈ K → renamed old k ∈ h) → length K ≤ length h.
Proof.
  intros HK Hin.
  rewrite <-(length_fmap (renamed old) K).
  apply submseteq_length, NoDup_submseteq.
  - apply NoDup_fmap_2; [apply renamed_inj|done].
  - intros x [k [-> Hk]]%list_elem_of_fmap. by apply Hin.
Qed.

Lemma mangle_loop_spec fuel (h : list string) old col cur (counts : gmap string nat) :
  (∀ name, is_Some (counts !! name) → name ∈ h) →
  is_Some (counts !! old) →
  1 ≤ cur →
  (∀ K : list nat, NoDup K →
     (∀ k, k ∈ K → (cur ≤ k) ∧ renamed old k ∈ h) → length K < fuel) →
  ∃ col' m, mangle_loop fuel h old col cur counts = (col', 0, (<[old := m]> counts))
            ∧ (col' ∉ h) ∧ 1 ≤ m.
Proof.
  revert col cur counts. induction fuel as [|fuel IH]; intros col cur counts Hkeys Hold Hcur Hfuel.
  { exfalso. assert (length (@nil nat) < 0) as Hl; [|simpl in Hl; lia].
    apply Hfuel; [constructor|]. by intros ? ?%elem_of_nil. }
  simpl. destruct (0 <? cur) eqn:Hlt; [|apply Nat.ltb_ge in Hlt; lia].
  case_bool_decide as Hin.
  - destruct (IH (renamed old cur) (S cur) (<[old:=S cur]> counts))
      as (col' & m & Heq & Hnot & Hm).
    + intros name [x Hx]. apply Hkeys.
      destruct (decide (old = name)) as [->|Hne]; [done|].
      rewrite lookup_insert_ne in Hx; eauto.
    + rewrite lookup_insert_eq. eauto.
    + lia.
    + intros K HK HKin.
      assert (length (cur :: K) < S fuel); [|simpl in *; lia].
      apply Hfuel.
      * constructor; [|done]. intros Hc. apply HKin in Hc. lia.
      * intros k [->|Hk]%elem_of_cons; [split; [lia|done]|].
        apply HKin in Hk. split; [lia|tauto].
    + exists col', m. rewrite Heq, insert_insert_eq. done.
  - assert (Hnone : <[old:=S cur]> counts !! renamed old cur = None).
    { destruct (<[old:=S cur]> counts !! _) eqn:E; [|done].
      exfalso. apply Hin.
      destruct (decide (old = renamed old cur)) as [He|Hne].
      - rewrite <-He. by apply Hkeys.
      - rewrite lookup_insert_ne in E by done. apply Hkeys. eauto. }
    rewrite Hnone. simpl.
    exists (renamed old cur), (S cur).
    split; [|split; [done|lia]].
    destruct fuel; done.
Qed.

Lemma mangle_step_inv n P h counts i :
  mangle_inv n P h counts → i ∉ P → i < n →
  mangle_inv n (i :: P) (mangle_step (h, counts) i).1 (mangle_step (h, counts) i).2.
Proof.
  intros [Hlen Hkeys Hpos Hnamed Hdist] HiP Hi.
  destruct (lookup_lt_is_Some_2 h i) as [col Hcol]; [lia|].
  unfold mangle_step. rewrite Hcol.
  assert (Hsub : ∀ name, is_Some (counts !! name) → name ∈ h).
  { intros name (j & _ & Hj)%Hkeys. by eapply list_elem_of_lookup_2. }
  destruct (counts !! col) as [c|] eqn:Hc.
  - (* the name was given before: it is renamed *)
    change (default 0 (Some c)) with c.
    pose proof (Hpos _ _ Hc) as Hc1.
    destruct (mangle_loop_spec (S (length h)) h col col c counts)
      as (col' & m & Heq & Hnot & Hm); [done|eauto|done| |].
    { intros K HK HKin. apply Nat.lt_succ_r, (candidates_bounded h col); [done|].
      intros k Hk. by apply HKin. }
    rewrite Heq. simpl. split.
    + by rewrite length_insert.
    + intros name [x Hx].
      destruct (decide (col' = name)) as [<-|Hne1].
      { exists i. split; [left|]. apply list_lookup_insert_eq. lia. }
      rewrite lookup_insert_ne in Hx by done.
      assert (is_Some (counts !! name)) as (j & Hj & Hjn)%Hkeys.
      { destruct (decide (col = name)) as [<-|Hne2]; [eauto|].
        rewrite lookup_insert_ne in Hx by done. eauto. }
      exists j. split; [by right|].
      rewrite list_lookup_insert_ne; [done|]. intros ->. done.
    + intros name x Hx.
      destruct (decide (col' = name)) as [<-|Hne1].
      { rewrite lookup_insert_eq in Hx. by simplify_eq. }
      rewrite lookup_insert_ne in Hx by done.
      destruct (decide (col = name)) as [<-|Hne2].
      { rewrite lookup_insert_eq in Hx. by simplify_eq. }
      rewrite lookup_insert_ne in Hx by done. eauto.
    + intros j name [->|Hj]%elem_of_cons Hjn.
      { rewrite list_lookup_insert_eq in Hjn by lia. simplify_eq.
        rewrite lookup_insert_eq. eauto. }
      rewrite list_lookup_insert_ne in Hjn by (intros ->; done).
      destruct (Hnamed _ _ Hj Hjn) as [x Hx].
      destruct (decide (col' = name)) as [<-|Hne1]; [rewrite lookup_insert_eq; eauto|].
      rewrite lookup_insert_ne by done.
      destruct (decide (col = name)) as [<-|Hne2]; [rewrite lookup_insert_eq; eauto|].
      rewrite lookup_insert_ne by done. eauto.
    + assert (Hfresh : ∀ j, j ∈ P → h !! j ≠ Some col').
      { intros j _ Hj. apply Hnot. by eapply list_elem_of_lookup_2. }
      intros j1 j2 name [->|Hj1]%elem_of_cons [->|Hj2]%elem_of_cons H1 H2; [done| | |].
      * rewrite list_lookup_insert_eq in H1 by lia.
        rewrite list_lookup_insert_ne in H2 by (intros ->; done).
        simplify_eq. by destruct (Hfresh j2).
      * rewrite list_lookup_insert_eq in H2 by lia.
        rewrite list_lookup_insert_ne in H1 by (intros ->; done).
        simplify_eq. by destruct (Hfresh j1).
      * rewrite list_lookup_insert_ne in H1 by (intros ->; done).
        rewrite list_lookup_insert_ne in H2 by (intros ->; done). eauto.
  - (* a new name: it is kept *)
    simpl. rewrite list_insert_id by done. split.
    + done.
    + intros name [x Hx].
      destruct (decide (col = name)) as [<-|Hne].
      { exists i. split; [left|done]. }
      rewrite lookup_insert_ne in Hx by done.
      destruct (Hkeys name) as (j & Hj & Hjn); [eauto|].
      exists j. split; [by right|done].
    + intros name x Hx.
      destruct (decide (col = name)) as [<-|Hne].
      { rewrite lookup_insert_eq in Hx. by simplify_eq. }
      rewrite lookup_insert_ne in Hx by done. eauto.
    + intros j name Hj Hjn.
      destruct (decide (col = name)) as [<-|Hne]; [rewrite lookup_insert_eq; eauto|].
      rewrite lookup_insert_ne by done.
      apply elem_of_cons in Hj as [->|Hj]; [congruence|eauto].
    + intros j1 j2 name [->|Hj1]%elem_of_cons [->|Hj2]%elem_of_cons H1 H2; [done| | |eauto].
      * simplify_eq. destruct (Hnamed _ _ Hj2 H2) as [x Hx]. congruence.
      * simplify_eq. destruct (Hnamed _ _ Hj1 H1) as [x Hx]. congruence.
Qed.


Lemma mangle_fold_inv n L : ∀ P h counts,
  mangle_inv n P h counts → NoDup L → (∀ i, i ∈ L → i < n ∧ i ∉ P) →
  mangle_inv n (reverse L ++ P) (foldl mangle_step (h, counts) L).1
             (foldl mangle_step (h, counts) L).2.
Proof.
  induction L as [|i L IH]; intros P h counts Hinv HL Hin; [done|].
  apply NoDup_cons in HL as [HiL HL].
  cbn [foldl]. rewrite reverse_cons, <-app_assoc. cbn [app].
  destruct (mangle_step (h, counts) i) as [h' counts'] eqn:Hstep.
  apply IH; [|done|].
  - pose proof (mangle_step_inv n P h counts i Hinv) as Hs.
    rewrite Hstep in Hs. apply Hs; apply Hin; left.
  - intros j Hj. split; [apply Hin; by right|].
    intros [->|HjP]%elem_of_cons; [done|].
    destruct (Hin j); [by right|done].
Qed.


Lemma mangle_inv_init (h : list string) : mangle_inv (length h) [] h ∅.
Proof.
  split; try done.
  - intros name [x Hx]. by rewrite lookup_empty in Hx.
  - intros j name Hj. by apply elem_of_nil in Hj.
  - intros j1 j2 name Hj. by apply elem_of_nil in Hj.
Qed.

Lemma col_loop_order_NoDup (n : nat) (U : list nat) :
  NoDup U → NoDup (filter (λ i, i ∉ U) (seq 0 n) ++ U).
Proof.
  intros HU. apply NoDup_app. split; [|split; [|done]].
  - apply NoDup_filter, NoDup_seq.
  - by intros i [Hi _]%list_elem_of_filter.
Qed.

Lemma column_names_length (names : list string) :
  length (column_names names) = length names.
Proof.
  unfold column_names.
  set (h := imap _ names). set (U := unnamed_col_indices names).
  pose proof (mangle_fold_inv (length h) (filter (λ i, i ∉ U) (seq 0 (length h)) ++ U)
                [] h ∅ (mangle_inv_init h)) as Hinv.
  destruct Hinv as [Hlen _ _ _ _].
  - apply col_loop_order_NoDup. apply NoDup_filter, NoDup_seq.
  - intros i Hi. split; [|by intros ?%elem_of_nil].
    apply elem_of_app in Hi as [[_ Hi]%list_elem_of_filter|[_ Hi]%list_elem_of_filter].
    + apply elem_of_seq in Hi. lia.
    + apply elem_of_seq in Hi. subst h. rewrite length_imap. lia.
  - rewrite Hlen. apply length_imap.
Qed.

Lemma column_names_NoDup (names : list string) : NoDup (column_names names).
Proof.
  unfold column_names.
  set (h := imap _ names). set (U := unnamed_col_indices names).
  set (L := filter (λ i, i ∉ U) (seq 0 (length h)) ++ U).
  assert (HU : ∀ i, i ∈ U → i < length h).
  { intros i [_ Hi]%list_elem_of_filter. apply elem_of_seq in Hi.
    subst h. rewrite length_imap. lia. }
  pose proof (mangle_fold_inv (length h) L [] h ∅ (mangle_inv_init h)) as Hinv.
  destruct Hinv as [Hlen _ _ _ Hdist].
  - apply col_loop_order_NoDup. apply NoDup_filter, NoDup_seq.
  - intros i Hi. split; [|by intros ?%elem_of_nil].
    apply elem_of_app in Hi as [[_ Hi]%list_elem_of_filter|Hi]; [|by apply HU].
    apply elem_of_seq in Hi. lia.
  - apply NoDup_alt. intros i j x Hi Hj.
    assert (Hall : ∀ k, k < length h → k ∈ reverse L ++ []).
    { intros k Hk. rewrite app_nil_r, elem_of_reverse. subst L.
      apply elem_of_app. destruct (decide (k ∈ U)); [by right|left].
      apply list_elem_of_filter. split; [done|]. apply elem_of_seq. lia. }
    apply (Hdist i j x); [apply Hall|apply Hall|done|done].
    + apply lookup_lt_Some in Hi. lia.
    + apply lookup_lt_Some in Hj. lia.
Qed.


Lemma string_app_nil_r (s : string) : s +:+ "" = s.
Proof. induction s; simpl; [done|]. unfold String.app in *. simpl. by f_equal. Qed.

Lemma string_app_assoc (s1 s2 s3 : string) : (s1 +:+ s2) +:+ s3 = s1 +:+ (s2 +:+ s3).
Proof. induction s1; [done|]. unfold String.app in *. simpl. by f_equal. Qed.

Lemma string_app_cons (c : ascii) (s1 s2 : string) :
  String c s1 +:+ s2 = String c (s1 +:+ s2).
Proof. done. Qed.

Lemma string_app_snoc (s1 s2 : string) (c : ascii) :
  (s1 +:+ String c "") +:+ s2 = s1 +:+ String c s2.
Proof. by rewrite string_app_assoc. Qed.

Lemma tokenize_bytes_app skiprows (s1 s2 : string) (p : parser_t) :
  tokenize_bytes skiprows p (s1 +:+ s2) =
  match tokenize_bytes skiprows p s1 with
  | (p', None) => tokenize_bytes skiprows p' s2
  | r => r
  end.
Proof.
  revert p. induction s1 as [|c s1 IH]; intros p; [done|].
  rewrite string_app_cons. simpl. destruct (tokenize_byte skiprows p c); [apply IH|done].
Qed.

Ltac psimpl :=
  unfold END_LINE, set_state, incr_file_lines, PUSH_CHAR, clear_stream, end_field; simpl.

(** Characters classes *)
Lemma plain_char_inv c :
  plain_char c = true →
  IS_DELIMITER c = false ∧ IS_QUOTE c = false ∧ IS_TERMINATOR c = false ∧ IS_CARRIAGE c = false.
Proof.
  unfold plain_char. destruct (IS_DELIMITER c), (IS_QUOTE c), (IS_TERMINATOR c), (IS_CARRIAGE c); naive_solver.
Qed.

Lemma meta_char_inv c :
  meta_char c = true →
  IS_QUOTE c = false ∧ IS_TERMINATOR c = false ∧ IS_CARRIAGE c = false.
Proof.
  unfold meta_char. destruct (IS_QUOTE c), (IS_TERMINATOR c), (IS_CARRIAGE c); naive_solver.
Qed.

(** Characters of a field, read inside the field. *)
Lemma tokenize_in_field skiprows (f : string) : ∀ fl ls ws sm,
  string_forall plain_char f = true →
  tokenize_bytes skiprows (mk_parser IN_FIELD fl ls ws sm) f
  = (mk_parser IN_FIELD fl ls ws (sm +:+ f), None).
Proof.
  induction f as [|c f IH]; intros fl ls ws sm Hf.
  { by rewrite string_app_nil_r. }
  simpl in Hf. apply andb_true_iff in Hf as [Hc Hf].
  apply plain_char_inv in Hc as (Hd & Hq & Ht & Hr).
  simpl. unfold tokenize_byte, in_field_byte. simpl. rewrite Ht, Hr, Hd.
  unfold PUSH_CHAR. simpl. rewrite IH by done. by rewrite string_app_snoc.
Qed.

(** A metadata line in the rows to skip. *)
Lemma tokenize_skip_chars skiprows (m : string) : ∀ st fl ls ws sm,
  st = IN_FIELD_IN_SKIP_LINE ∨ st = START_FIELD_IN_SKIP_LINE →
  string_forall meta_char m = true →
  ∃ st', (st' = IN_FIELD_IN_SKIP_LINE ∨ st' = START_FIELD_IN_SKIP_LINE) ∧
    tokenize_bytes skiprows (mk_parser st fl ls ws sm) m = (mk_parser st' fl ls ws sm, None).
Proof.
  induction m as [|c m IH]; intros st fl ls ws sm Hst Hm; [by exists st|].
  simpl in Hm. apply andb_true_iff in Hm as [Hc Hm].
  apply meta_char_inv in Hc as (Hq & Ht & Hr).
  simpl. destruct Hst as [-> | ->]; unfold tokenize_byte; simpl; rewrite ?Ht, ?Hr, ?Hq;
    destruct (IS_DELIMITER c); simpl; apply IH; auto.
Qed.

Lemma tokenize_meta_line skiprows nl (m : string) fl ls sm :
  fl < skiprows →
  string_forall meta_char m = true →
  tokenize_bytes skiprows (mk_parser START_RECORD fl ls [] sm) (text_line nl m)
  = (mk_parser START_RECORD (S fl) ls [] sm, None).
Proof.
  intros Hfl Hm. unfold text_line.
  assert (Hskip : skip_this skiprows fl = true) by (by apply Nat.ltb_lt).
  destruct m as [|c m].
  { destruct nl; simpl; unfold tokenize_byte, start_record_byte; simpl;
      by rewrite Hskip. }
  simpl in Hm. apply andb_true_iff in Hm as [Hc Hm].
  apply meta_char_inv in Hc as (Hq & Ht & Hr).
  rewrite string_app_cons. simpl. unfold tokenize_byte at 1, start_record_byte. simpl.
  rewrite Hskip, Hq, Ht. psimpl.
  rewrite tokenize_bytes_app.
  destruct (tokenize_skip_chars skiprows m IN_FIELD_IN_SKIP_LINE fl ls [] sm) as (st' & Hst' & ->);
    [auto|done|].
  destruct nl, Hst' as [-> | ->]; done.
Qed.

Lemma tokenize_meta_lines skiprows nl (meta : list string) : ∀ fl ls sm,
  fl + length meta ≤ skiprows →
  forallb (string_forall meta_char) meta = true →
  tokenize_bytes skiprows (mk_parser START_RECORD fl ls [] sm)
                 (concat_lines (text_line nl <$> meta))
  = (mk_parser START_RECORD (fl + length meta) ls [] sm, None).
Proof.
  induction meta as [|m meta IH]; intros fl ls sm Hlen Hall.
  { simpl. by rewrite Nat.add_0_r. }
  simpl in *. apply andb_true_iff in Hall as [Hm Hall].
  rewrite tokenize_bytes_app, tokenize_meta_line by (done || lia).
  rewrite IH by (done || lia). do 2 f_equal. lia.
Qed.

(** Blanks at the start of a line. *)
Lemma tokenize_whitespace_line skiprows (f : string) : ∀ fl ls ws sm,
  string_forall plain_char f = true →
  tokenize_bytes skiprows (mk_parser WHITESPACE_LINE fl ls ws sm) f
  = (mk_parser (if string_forall isblank f then WHITESPACE_LINE else IN_FIELD)
               fl ls ws (sm +:+ f), None).
Proof.
  induction f as [|c f IH]; intros fl ls ws sm Hf.
  { by rewrite string_app_nil_r. }
  simpl in Hf. apply andb_true_iff in Hf as [Hc Hf].
  apply plain_char_inv in Hc as (Hd & Hq & Ht & Hr).
  simpl. unfold tokenize_byte. simpl. rewrite Ht, Hr.
  destruct (isblank c) eqn:Hb; psimpl.
  - rewrite IH by done. by rewrite string_app_snoc.
  - unfold in_field_byte. rewrite Ht, Hr, Hd. psimpl.
    rewrite tokenize_in_field by done. by rewrite string_app_snoc.
Qed.

Lemma tokenize_first_field skiprows (f : string) fl ls ws :
  skiprows ≤ fl →
  string_forall plain_char f = true →
  tokenize_bytes skiprows (mk_parser START_RECORD fl ls ws "") f
  = (mk_parser (first_field_state f) fl ls ws f, None).
Proof.
  intros Hfl Hf. destruct f as [|c f]; [done|].
  assert (Hskip : skip_this skiprows fl = false) by (by apply Nat.ltb_ge).
  simpl in Hf. apply andb_true_iff in Hf as [Hc Hf].
  apply plain_char_inv in Hc as (Hd & Hq & Ht & Hr).
  cbn [tokenize_bytes]. unfold tokenize_byte, start_record_byte. simpl.
  rewrite Hskip, Ht, Hr.
  destruct (isblank c) eqn:Hb; psimpl.
  - by rewrite tokenize_whitespace_line.
  - unfold start_field_byte. rewrite Ht, Hr, Hq, Hd. psimpl.
    by rewrite tokenize_in_field.
Qed.

Lemma tokenize_first_delimiter skiprows (f : string) fl ls ws :
  skiprows ≤ fl →
  tokenize_byte skiprows (mk_parser (first_field_state f) fl ls ws f) COMMA
  = Ok (mk_parser START_FIELD fl ls (ws ++ [f]) "").
Proof.
  intros Hfl.
  assert (Hskip : skip_this skiprows fl = false) by (by apply Nat.ltb_ge).
  unfold first_field_state. destruct f as [|c f].
  { unfold tokenize_byte, start_record_byte. simpl. by rewrite Hskip. }
  destruct (string_forall isblank (String c f)); done.
Qed.

(** The fields after the first one. *)
Lemma join_cons_snoc (f : string) (init : list string) (l : string) :
  str_join "," (f :: init ++ [l]) = f +:+ "," +:+ str_join "," (init ++ [l]).
Proof. simpl. by destruct init. Qed.

Lemma tokenize_field skiprows (f : string) fl ls ws :
  string_forall plain_char f = true →
  ∃ st, (st = START_FIELD ∨ st = IN_FIELD) ∧
    tokenize_bytes skiprows (mk_parser START_FIELD fl ls ws "") f
    = (mk_parser st fl ls ws f, None).
Proof.
  intros Hf. destruct f as [|c f]; [exists START_FIELD; auto|].
  simpl in Hf. apply andb_true_iff in Hf as [Hc Hf].
  apply plain_char_inv in Hc as (Hd & Hq & Ht & Hr).
  exists IN_FIELD. split; [auto|].
  cbn [tokenize_bytes]. unfold tokenize_byte, start_field_byte. simpl.
  rewrite Ht, Hr, Hq, Hd. psimpl. by rewrite tokenize_in_field.
Qed.

Lemma tokenize_fields skiprows (init : list string) : ∀ (l : string) fl ls ws,
  forallb (string_forall plain_char) (init ++ [l]) = true →
  ∃ st, (st = START_FIELD ∨ st = IN_FIELD) ∧
    tokenize_bytes skiprows (mk_parser START_FIELD fl ls ws "") (str_join "," (init ++ [l]))
    = (mk_parser st fl ls (ws ++ init) l, None).
Proof.
  induction init as [|f init IH]; intros l fl ls ws Hall.
  { simpl in *. rewrite app_nil_r. apply tokenize_field.
    by apply andb_true_iff in Hall as [? _]. }
  change ((f :: init) ++ [l]) with (f :: init ++ [l]) in *.
  rewrite join_cons_snoc. cbn [forallb] in Hall.
  apply andb_true_iff in Hall as [Hf Hall].
  destruct (tokenize_field skiprows f fl ls ws Hf) as (st & Hst & Hfld).
  destruct (IH l fl ls (ws ++ [f]) Hall) as (st' & Hst' & Hrest).
  exists st'. split; [done|].
  rewrite tokenize_bytes_app, Hfld. rewrite string_app_cons. cbn [tokenize_bytes].
  assert (tokenize_byte skiprows (mk_parser st fl ls ws f) ","
          = Ok (mk_parser START_FIELD fl ls (ws ++ [f]) "")) as ->.
  { destruct Hst as [-> | ->]; unfold tokenize_byte, start_field_byte, in_field_byte; psimpl; done. }
  change ("" +:+ str_join "," (init ++ [l])) with (str_join "," (init ++ [l])).
  rewrite Hrest. by rewrite <-app_assoc.
Qed.

(** The end of a row whose fields are as many as those of the row
    before, or that is the first row. *)
Lemma end_line_same_width st fl ls (fields : list string) sm :
  in_skip_line st = false →
  (ls = [] ∨ ∃ l, last ls = Some l ∧ length l = length fields) →
  end_line (mk_parser st fl ls fields sm) = Ok (mk_parser st (S fl) (ls ++ [fields]) [] sm).
Proof.
  intros Hst Hls. unfold end_line. simpl. rewrite Hst.
  destruct Hls as [-> | (l & Hl & Hlen)]; [done|].
  rewrite Hl. simpl. rewrite Hlen, Nat.ltb_irrefl, andb_false_r, Nat.sub_diag.
  simpl. rewrite app_nil_r. by destruct (length ls).
Qed.

(** The end of a row, after the characters of its last field. *)
Lemma tokenize_eol skiprows nl st fl ls ws sm :
  st = START_FIELD ∨ st = IN_FIELD →
  (ls = [] ∨ ∃ l, last ls = Some l ∧ length l = length (ws ++ [sm])) →
  tokenize_bytes skiprows (mk_parser st fl ls ws sm) (eol nl)
  = (mk_parser START_RECORD (S fl) (ls ++ [ws ++ [sm]]) [] "", None).
Proof.
  intros Hst Hls. destruct nl; cbn [eol tokenize_bytes].
  - assert (tokenize_byte skiprows (mk_parser st fl ls ws sm) LF
            = END_LINE (mk_parser st fl ls (ws ++ [sm]) "")) as ->.
    { by destruct Hst as [-> | ->]. }
    unfold END_LINE. rewrite end_line_same_width; [done| |done].
    by destruct Hst as [-> | ->].
  - assert (tokenize_byte skiprows (mk_parser st fl ls ws sm) CR
            = Ok (mk_parser EAT_CRNL fl ls (ws ++ [sm]) "")) as ->.
    { by destruct Hst as [-> | ->]. }
    assert (tokenize_byte skiprows (mk_parser EAT_CRNL fl ls (ws ++ [sm]) "") LF
            = END_LINE (mk_parser EAT_CRNL fl ls (ws ++ [sm]) "")) as -> by done.
    unfold END_LINE. by rewrite end_line_same_width.
Qed.

Lemma tokenize_csv_line skiprows nl (fields : list string) fl ls :
  skiprows ≤ fl →
  forallb (string_forall plain_char) fields = true →
  blank_row fields = false →
  (ls = [] ∨ ∃ l, last ls = Some l ∧ length l = length fields) →
  tokenize_bytes skiprows (mk_parser START_RECORD fl ls [] "") (csv_line nl fields)
  = (mk_parser START_RECORD (S fl) (ls ++ [fields]) [] "", None).
Proof.
  intros Hfl Hall Hblank Hls. unfold csv_line, text_line.
  destruct fields as [|f0 more]; [done|].
  cbn [forallb] in Hall. apply andb_true_iff in Hall as [Hf0 Hmore].
  destruct (decide (more = [])) as [-> | Hne].
  - (* a single field *)
    simpl in Hblank. cbn [str_join].
    rewrite tokenize_bytes_app, tokenize_first_field by done.
    assert (first_field_state f0 = IN_FIELD) as ->.
    { unfold first_field_state. destruct f0; [done|]. by rewrite Hblank. }
    by rewrite tokenize_eol; [|auto|].
  - destruct (exists_last Hne) as (init & l & ->).
    rewrite join_cons_snoc. rewrite 2 tokenize_bytes_app.
    rewrite tokenize_first_field by done. cbv iota beta.
    change ("," +:+ ?s) with (String COMMA s). cbn [tokenize_bytes].
    rewrite tokenize_first_delimiter by done.
    destruct (tokenize_fields skiprows init l fl ls ([] ++ [f0]) Hmore) as (st & Hst & ->).
    rewrite tokenize_eol; [|done|].
    + by rewrite <-!app_assoc.
    + destruct Hls as [->|(l0 & Hl0 & Hlen)]; [by left|right].
      exists l0. split; [done|]. rewrite Hlen. simpl. by rewrite !length_app.
Qed.

Lemma plain_row_inv width fields :
  plain_row width fields = true →
  length fields = width ∧ forallb (string_forall plain_char) fields = true
  ∧ forallb utf8_valid fields = true ∧ blank_row fields = false.
Proof.
  unfold plain_row. intros [[Hlen Hall]%andb_true_iff Hb]%andb_true_iff.
  apply bool_decide_eq_true in Hlen. apply negb_true_iff in Hb.
  split; [done|]. split; [|split; [|done]].
  - clear -Hall. induction fields as [|f fields IH]; [done|].
    simpl in *. apply andb_true_iff in Hall as [[-> _]%andb_true_iff Hall]. auto.
  - clear -Hall. induction fields as [|f fields IH]; [done|].
    simpl in *. apply andb_true_iff in Hall as [[_ ->]%andb_true_iff Hall]. auto.
Qed.

Lemma tokenize_csv_lines skiprows nl width (data : list (list string)) : ∀ fl ls l,
  skiprows ≤ fl →
  last ls = Some l → length l = width →
  forallb (plain_row width) data = true →
  tokenize_bytes skiprows (mk_parser START_RECORD fl ls [] "")
                 (concat_lines (csv_line nl <$> data))
  = (mk_parser START_RECORD (fl + length data) (ls ++ data) [] "", None).
Proof.
  induction data as [|fields data IH]; intros fl ls l Hfl Hl Hlen Hall.
  { simpl. by rewrite Nat.add_0_r, app_nil_r. }
  cbn [forallb] in Hall. apply andb_true_iff in Hall as [Hrow Hall].
  apply plain_row_inv in Hrow as (Hw & Hplain & _ & Hblank).
  cbn [fmap list_fmap concat_lines].
  rewrite tokenize_bytes_app, tokenize_csv_line; [|lia|done|done|].
  2:{ right. exists l. split; [done|lia]. }
  rewrite (IH _ _ fields); [|lia|by rewrite last_snoc|done|done].
  rewrite <-app_assoc. simpl. do 2 f_equal. lia.
Qed.

Lemma well_formed_inv skip meta header data :
  well_formed skip meta header data = true →
  length meta = skip ∧ forallb (string_forall meta_char) meta = true
  ∧ forallb utf8_valid meta = true
  ∧ plain_row (length header) header = true
  ∧ forallb (plain_row (length header)) data = true.
Proof.
  unfold well_formed. intros [[[H1 H2]%andb_true_iff H3]%andb_true_iff H4]%andb_true_iff.
  apply bool_decide_eq_true in H1. split; [done|].
  split; [|split; [|done]].
  - clear -H2. induction meta as [|m meta IH]; [done|].
    simpl in *. apply andb_true_iff in H2 as [[-> _]%andb_true_iff H2]. auto.
  - clear -H2. induction meta as [|m meta IH]; [done|].
    simpl in *. apply andb_true_iff in H2 as [[_ ->]%andb_true_iff H2]. auto.
Qed.

Lemma tokenize_well_formed skip nl meta header data :
  well_formed skip meta header data = true →
  tokenize_all_rows skip (render_file nl meta header data)
  = (mk_parser START_RECORD (skip + 1 + length data) (header :: data) [] "", None).
Proof.
  intros (Hmeta & Hmc & _ & Hhdr & Hdata)%well_formed_inv.
  apply plain_row_inv in Hhdr as (_ & Hplain & _ & Hblank).
  unfold tokenize_all_rows, render_file, parser_init.
  rewrite tokenize_bytes_app, tokenize_meta_lines by (done || lia).
  rewrite tokenize_bytes_app, tokenize_csv_line; [|lia|done|done|by left].
  simpl app. rewrite (tokenize_csv_lines skip nl (length header) data _ _ header); [|lia|done..].
  simpl. do 3 f_equal. lia.
Qed.

(** *** Well formed UTF-8 *)

Lemma utf8_check_app (s1 s2 : string) : ∀ pending,
  utf8_check pending s1 = true → utf8_valid s2 = true →
  utf8_check pending (s1 +:+ s2) = true.
Proof.
  induction s1 as [|c s1 IH]; intros pending H1 H2.
  { simpl in H1. apply bool_decide_eq_true in H1. by subst. }
  rewrite string_app_cons. cbn [utf8_check] in *.
  destruct pending as [|[lo hi] more].
  - destruct (utf8_lead (N_of_ascii c)); [by apply IH|done].
  - apply andb_true_iff in H1 as [-> H1]. by apply IH.
Qed.

Lemma utf8_valid_app (s1 s2 : string) :
  utf8_valid s1 = true → utf8_valid s2 = true → utf8_valid (s1 +:+ s2) = true.
Proof. apply utf8_check_app. Qed.

Lemma utf8_valid_str_join (fields : list string) :
  forallb utf8_valid fields = true → utf8_valid (str_join "," fields) = true.
Proof.
  induction fields as [|f fields IH]; [done|].
  cbn [forallb]. intros [Hf Hfs]%andb_true_iff.
  destruct fields as [|f2 fields]; [done|].
  change (str_join "," (f :: f2 :: fields)) with (f +:+ "," +:+ str_join "," (f2 :: fields)).
  apply utf8_valid_app; [done|]. apply utf8_valid_app; [done|]. by apply IH.
Qed.

Lemma utf8_valid_text_line nl (s : string) :
  utf8_valid s = true → utf8_valid (text_line nl s) = true.
Proof. intros Hs. apply utf8_valid_app; [done|]. by destruct nl. Qed.

Lemma utf8_valid_concat_lines (ls : list string) :
  forallb utf8_valid ls = true → utf8_valid (concat_lines ls) = true.
Proof.
  induction ls as [|x ls IH]; [done|]. cbn [forallb concat_lines].
  intros [Hx Hls]%andb_true_iff. apply utf8_valid_app; auto.
Qed.

Lemma forallb_fmap {A B} (f : A → B) (P : B → bool) (l : list A) :
  forallb P (f <$> l) = forallb (P ∘ f) l.
Proof. induction l as [|x l IH]; [done|]. simpl. f_equal. apply IH. Qed.

Lemma forallb_impl {A} (P Q : A → bool) (l : list A) :
  (∀ x, P x = true → Q x = true) → forallb P l = true → forallb Q l = true.
Proof.
  intros HPQ. induction l as [|x l IH]; [done|]. simpl.
  intros [Hx Hl]%andb_true_iff. rewrite HPQ by done. auto.
Qed.

Lemma utf8_valid_render_file skip nl meta header data :
  well_formed skip meta header data = true →
  utf8_valid (render_file nl meta header data) = true.
Proof.
  intros (_ & _ & Hmeta & Hhdr & Hdata)%well_formed_inv.
  unfold render_file. apply utf8_valid_app; [|apply utf8_valid_app].
  - apply utf8_valid_concat_lines. rewrite forallb_fmap.
    eapply forallb_impl; [|exact Hmeta]. intros m Hm. by apply utf8_valid_text_line.
  - apply plain_row_inv in Hhdr as (_ & _ & Hv & _).
    by apply utf8_valid_text_line, utf8_valid_str_join.
  - apply utf8_valid_concat_lines. rewrite forallb_fmap.
    eapply forallb_impl; [|exact Hdata]. intros r (_ & _ & Hv & _)%plain_row_inv.
    by apply utf8_valid_text_line, utf8_valid_str_join.
Qed.

Lemma read_text_valid (data : string) : utf8_valid data = true → read_text data = Ok data.
Proof. intros H. unfold read_text. by rewrite H. Qed.

(** The table read from a file of the expected layout. *)
Lemma read_csv_well_formed skip nl meta header data :
  well_formed skip meta header data = true →
  read_csv_bytes skip (render_file nl meta header data)
  = Ok {| columns := column_names (c_str <$> header);
          rows := renumber (to_cells <$> data) |}.
Proof.
  intros Hwf. unfold read_csv_bytes.
  rewrite read_text_valid by (by eapply utf8_valid_render_file).
  cbn [mbind result_bind]. rewrite tokenize_well_formed by done.
  apply well_formed_inv in Hwf as (_ & _ & _ & Hhdr & Hdata).
  cbn [lines]. do 2 f_equal.
  assert (from_option length (length header) (head data) - length header = 0) as ->; [|done].
  destruct data as [|r data]; simpl; [lia|].
  simpl in Hdata. apply andb_true_iff in Hdata as [(-> & _)%plain_row_inv _]. lia.
Qed.

Section lines_invariant.
Variable Q : list (list string) → Prop.
Hypothesis Q_end_line : ∀ q q', end_line q = Ok q' → Q (lines q) → Q (lines q').

Local Arguments end_line : simpl never.
Local Arguments IS_TERMINATOR : simpl never.
Local Arguments IS_CARRIAGE : simpl never.
Local Arguments IS_QUOTE : simpl never.
Local Arguments IS_DELIMITER : simpl never.
Local Arguments isblank : simpl never.
Local Arguments skip_this : simpl never.

Ltac split_end_line :=
  repeat match goal with
  | H : context [end_line ?q] |- _ =>
      lazymatch type of H with
      | end_line _ = _ => fail
      | _ => let E := fresh "E" in destruct (end_line q) as [?|?] eqn:E; simplify_eq/=
      end
  end.

Ltac use_end_line :=
  match goal with
  | E : end_line ?q = Ok ?q' |- Q (lines ?q') =>
      apply (Q_end_line q q' E); simpl; assumption
  end.

Lemma start_field_byte_lines c p p' :
  start_field_byte c p = Ok p' → Q (lines p) → Q (lines p').
Proof.
  destruct p as [st fl ls ws sm]. unfold start_field_byte, END_LINE.
  intros H HQ.
  repeat (case_match; simplify_eq/=); split_end_line; first [assumption|use_end_line].
Qed.

Lemma in_field_byte_lines c p p' :
  in_field_byte c p = Ok p' → Q (lines p) → Q (lines p').
Proof.
  destruct p as [st fl ls ws sm]. unfold in_field_byte, END_LINE.
  intros H HQ.
  repeat (case_match; simplify_eq/=); split_end_line; first [assumption|use_end_line].
Qed.

Lemma start_record_byte_lines skiprows c p p' :
  start_record_byte skiprows c p = Ok p' → Q (lines p) → Q (lines p').
Proof.
  destruct p as [st fl ls ws sm]. unfold start_record_byte, END_LINE.
  intros H HQ.
  repeat (case_match; simplify_eq/=); split_end_line;
    first [assumption|use_end_line|by eapply start_field_byte_lines].
Qed.

Lemma tokenize_byte_lines skiprows c p p' :
  tokenize_byte skiprows p c = Ok p' → Q (lines p) → Q (lines p').
Proof.
  destruct p as [st fl ls ws sm]. unfold tokenize_byte, END_LINE.
  intros H HQ. destruct st; simpl in H.
  all: repeat (case_match; simplify_eq/=); split_end_line.
  all: first
    [ assumption | use_end_line
    | by eapply start_record_byte_lines
    | by eapply start_field_byte_lines
    | by eapply in_field_byte_lines
    | eapply start_record_byte_lines; [eassumption|]; simpl; use_end_line ].
Qed.

Lemma tokenize_bytes_lines skiprows data : ∀ p,
  Q (lines p) → Q (lines (tokenize_bytes skiprows p data).1).
Proof.
  induction data as [|c data IH]; intros p HQ; [done|].
  simpl. destruct (tokenize_byte skiprows p c) eqn:E; [|done].
  apply IH. by eapply tokenize_byte_lines.
Qed.

Lemma tokenize_all_rows_lines skiprows data :
  Q [] → Q (lines (tokenize_all_rows skiprows data).1).
Proof.
  intros HQ. unfold tokenize_all_rows.
  pose proof (tokenize_bytes_lines skiprows data parser_init HQ) as H.
  destruct (tokenize_bytes skiprows parser_init data) as [p [e|]]; [done|].
  simpl in H. destruct (parser_handle_eof p) as [p'|e] eqn:E; [|done].
  simpl. unfold parser_handle_eof in E.
  destruct p as [st fl ls ws sm]. simpl in *.
  destruct st; simplify_eq/=; first [assumption|use_end_line].
Qed.
End lines_invariant.

Lemma rect_end_line q q' : end_line q = Ok q' → rect (lines q) → rect (lines q').
Proof.
  destruct q as [st fl ls ws sm]. unfold end_line. simpl.
  destruct (in_skip_line st); [intros; by simplify_eq/=|].
  destruct ls as [|h [|l1 rest]].
  - intros; by simplify_eq/=.
  - intros ? _. simplify_eq/=. split; [|done]. rewrite length_app, length_replicate. lia.
  - assert (from_option length 0 (last (h :: l1 :: rest)) = length l1 ∨ ¬ rect (h :: l1 :: rest))
      as [Hex|Hn].
    { destruct rest as [|r rest _] using rev_ind; [left; reflexivity|].
      rewrite !app_comm_cons, last_snoc. simpl.
      destruct (decide (length r = length l1)) as [Heq|Hne]; [left; exact Heq|right].
      intros [_ HF]. apply Forall_app in HF as [_ Hr].
      rewrite Forall_singleton in Hr. exact (Hne Hr). }
    2:{ intros _ Hr. done. }
    rewrite Hex. change (1 <? length (h :: l1 :: rest)) with true.
    change (1 <=? length (h :: l1 :: rest)) with true. cbn [andb].
    destruct (length l1 <? length ws) eqn:E; [done|].
    intros ? [Hh Hrest]. simplify_eq/=. split; [done|].
    apply Forall_app. split; [done|]. apply Forall_singleton.
    apply Nat.ltb_ge in E. rewrite length_app, length_replicate. lia.
Qed.

Lemma tokenize_all_rows_rect skiprows data :
  rect (lines (tokenize_all_rows skiprows data).1).
Proof. apply tokenize_all_rows_lines; [apply rect_end_line|done]. Qed.

Lemma bind_Ok {A B} (m : result A) (k : A → result B) (b : B) :
  m ≫= k = Ok b → ∃ a, m = Ok a ∧ k a = Ok b.
Proof. destruct m as [a|e]; [|done]. intros H. by exists a. Qed.

Lemma make_row_width leading i cells width :
  length cells = width + leading →
  length (r_cells (make_row leading i cells)) = width.
Proof.
  intros Hlen. unfold make_row. case_decide; simpl; [lia|].
  rewrite length_drop. lia.
Qed.

Lemma read_csv_bytes_Ok skiprows data df :
  read_csv_bytes skiprows data = Ok df →
  ∃ p header data_lines,
    tokenize_all_rows skiprows data = (p, None) ∧ lines p = header :: data_lines
    ∧ df = {| columns := column_names (c_str <$> header);
              rows := imap (make_row (from_option length (length header) (head data_lines)
                                      - length header))
                           (to_cells <$> data_lines) |}.
Proof.
  unfold read_csv_bytes, read_text. intros H.
  destruct (utf8_valid data); [|done]. cbn [mbind result_bind] in H.
  destruct (tokenize_all_rows skiprows data) as [p [e|]]; [done|].
  destruct (lines p) as [|header data_lines] eqn:Hl; [done|].
  exists p, header, data_lines. by simplify_eq.
Qed.

Lemma read_csv_bytes_rows_fit skiprows data df :
  read_csv_bytes skiprows data = Ok df → rows_fit df.
Proof.
  intros (p & header & data_lines & Htok & Hl & ->)%read_csv_bytes_Ok.
  pose proof (tokenize_all_rows_rect skiprows data) as Hrect.
  rewrite Htok in Hrect. simpl in Hrect. rewrite Hl in Hrect.
  unfold rows_fit. simpl. rewrite column_names_length, length_fmap.
  apply Forall_forall. intros r (i & Hr)%list_elem_of_lookup.
  apply list_lookup_imap_Some in Hr as (cs & Hcs & ->).
  apply list_lookup_fmap_Some in Hcs as (l & -> & Hl').
  apply make_row_width. unfold to_cells. rewrite length_fmap.
  destruct data_lines as [|l1 rest]; [done|]. simpl. destruct Hrect as [Hh Hrest].
  assert (length l = length l1) as ->; [|lia].
  destruct i; simpl in Hl'; [by simplify_eq|].
  eapply Forall_lookup_1 in Hrest; [|done]. done.
Qed.

Lemma line_count_eq (s : string) : line_count s = line_ends false s + pending s.
Proof. done. Qed.

Lemma ch_eqb_true a b : ch_eqb a b = true → a = b.
Proof. apply Ascii.eqb_eq. Qed.

Lemma ch_eqb_false a b : a ≠ b → ch_eqb a b = false.
Proof. apply Ascii.eqb_neq. Qed.

Lemma pending_cons c s : pending s ≤ pending (String c s).
Proof. unfold pending. destruct s; simpl; [lia|]. done. Qed.

Lemma line_ends_flag s :
  line_ends true s ≤ line_ends false s ∧ line_ends false s ≤ S (line_ends true s).
Proof. destruct s as [|c s]; simpl; [lia|]. destruct (ch_eqb c LF); simpl; lia. Qed.

Lemma line_ends_not_LF c s b : c ≠ LF → line_ends b (String c s) = line_ends false (String c s).
Proof. intros Hc. simpl. by rewrite (ch_eqb_false c LF). Qed.

Lemma lines_left_pos : ∀ s c b,
  (b = false ∨ c ≠ LF) → 1 ≤ line_ends b (String c s) + pending (String c s).
Proof.
  induction s as [|c2 s IH]; intros c b Hb.
  - unfold pending. simpl.
    destruct (ch_eqb c LF) eqn:E1; simpl.
    + apply ch_eqb_true in E1. destruct Hb as [->|]; [simpl; lia|done].
    + destruct (ch_eqb c CR); simpl; lia.
  - assert (pending (String c (String c2 s)) = pending (String c2 s)) as -> by done.
    cbn [line_ends].
    destruct (ch_eqb c LF) eqn:E1.
    { apply ch_eqb_true in E1. destruct Hb as [->|]; [simpl; lia|done]. }
    destruct (ch_eqb c CR); [lia|].
    specialize (IH c2 false (or_introl eq_refl)). cbn [line_ends] in IH. lia.
Qed.

Lemma line_ends_LF b s : line_ends b (String LF s) = (if b then 0 else 1) + line_ends false s.
Proof. done. Qed.

Lemma line_ends_CR b s : line_ends b (String CR s) = 1 + line_ends true s.
Proof. done. Qed.

Lemma line_ends_other b c s : c ≠ LF → c ≠ CR → line_ends b (String c s) = line_ends false s.
Proof. intros H1 H2. simpl. by rewrite (ch_eqb_false c LF), (ch_eqb_false c CR). Qed.

Ltac classify c HK :=
  destruct (decide (c = LF)) as [->|?];
  [rewrite line_ends_LF in HK
  |destruct (decide (c = CR)) as [->|?];
    [rewrite line_ends_CR in HK
    |rewrite (line_ends_other _ c) in HK by done;
     destruct (decide (c = QUOTE)) as [->|?];
      [|destruct (decide (c = COMMA)) as [->|?];
        [|assert (Hnt : IS_TERMINATOR c = false) by (by apply ch_eqb_false);
          assert (Hnc : IS_CARRIAGE c = false) by (by apply ch_eqb_false);
          assert (Hnq : IS_QUOTE c = false) by (by apply ch_eqb_false);
          assert (Hnd : IS_DELIMITER c = false) by (by apply ch_eqb_false)]]]].

Ltac skip_done :=
  eexists; (split; [reflexivity|]); simpl in *; repeat split; try done; lia.

Lemma start_record_skip skiprows fl sm c rest :
  fl + (line_ends false (String c rest) + pending (String c rest)) ≤ skiprows →
  ∃ p', start_record_byte skiprows c (mk_parser START_RECORD fl [] [] sm) = Ok p'
    ∧ lines p' = [] ∧ words p' = [] ∧ skip_region (state p') = true
    ∧ file_lines p' + (line_ends (after_cr (state p')) rest + pending rest) ≤ skiprows.
Proof.
  intros HK.
  pose proof (lines_left_pos rest c false (or_introl eq_refl)) as Hpos.
  pose proof (pending_cons c rest) as Hpend.
  pose proof (line_ends_flag rest) as [Hle1 Hle2].
  assert (Hskip : skip_this skiprows fl = true) by (apply Nat.ltb_lt; lia).
  unfold start_record_byte. cbn [file_lines]. rewrite Hskip. clear Hpos Hskip.
  classify c HK; [skip_done..|].
  rewrite Hnq, Hnt. skip_done.
Qed.

Lemma skip_region_step skiprows p c rest :
  lines p = [] → words p = [] → skip_region (state p) = true →
  file_lines p + (line_ends (after_cr (state p)) (String c rest) + pending (String c rest))
    ≤ skiprows →
  ∃ p', tokenize_byte skiprows p c = Ok p'
    ∧ lines p' = [] ∧ words p' = [] ∧ skip_region (state p') = true
    ∧ file_lines p' + (line_ends (after_cr (state p')) rest + pending rest) ≤ skiprows.
Proof.
  destruct p as [st fl ls ws sm]. cbn [lines words state file_lines].
  intros -> -> Hst HK.
  pose proof (pending_cons c rest) as Hpend.
  pose proof (line_ends_flag rest) as [Hle1 Hle2].
  unfold tokenize_byte. simpl state.
  destruct st; try discriminate Hst; simpl after_cr in HK.
  - (* START_RECORD *) by apply start_record_skip.
  - (* EAT_CRNL_NOP *)
    destruct (decide (c = LF)) as [->|Hc].
    { rewrite line_ends_LF in HK. skip_done. }
    destruct (decide (c = COMMA)) as [->|Hc2].
    { rewrite line_ends_other in HK by done. skip_done. }
    assert (IS_TERMINATOR c = false) as -> by (by apply ch_eqb_false).
    assert (IS_DELIMITER c = false) as -> by (by apply ch_eqb_false).
    simpl orb. cbv iota. unfold set_state. simpl.
    apply start_record_skip.
    by rewrite (line_ends_not_LF c rest true) in HK.
  - (* START_FIELD_IN_SKIP_LINE *)
    classify c HK; [skip_done..|]. rewrite Hnt, Hnc, Hnq, Hnd. skip_done.
  - (* IN_FIELD_IN_SKIP_LINE *)
    classify c HK; [skip_done..|]. rewrite Hnt, Hnc, Hnd. skip_done.
  - (* IN_QUOTED_FIELD_IN_SKIP_LINE *)
    classify c HK; [skip_done..|]. rewrite Hnq. skip_done.
  - (* QUOTE_IN_QUOTED_FIELD_IN_SKIP_LINE *)
    classify c HK; [skip_done..|]. rewrite Hnt, Hnc, Hnq, Hnd. skip_done.
Qed.

Lemma skip_region_bytes skiprows data : ∀ p,
  lines p = [] → words p = [] → skip_region (state p) = true →
  file_lines p + (line_ends (after_cr (state p)) data + pending data) ≤ skiprows →
  ∃ p', tokenize_bytes skiprows p data = (p', None)
    ∧ lines p' = [] ∧ skip_region (state p') = true.
Proof.
  induction data as [|c data IH]; intros p Hl Hw Hst HK.
  { exists p. done. }
  destruct (skip_region_step skiprows p c data Hl Hw Hst HK)
    as (p1 & Hstep & Hl1 & Hw1 & Hst1 & HK1).
  destruct (IH p1 Hl1 Hw1 Hst1 HK1) as (p' & Hrun & Hl' & Hst').
  exists p'. simpl. rewrite Hstep. done.
Qed.

(** A file of at most [skiprows] lines leaves nothing to parse. *)
Lemma read_csv_few_lines skiprows data :
  line_count data ≤ skiprows →
  read_csv_bytes skiprows data
  = Raise (if utf8_valid data then EmptyDataError else UnicodeDecodeError).
Proof.
  intros Hlc. rewrite line_count_eq in Hlc.
  unfold read_csv_bytes, read_text. destruct (utf8_valid data); [|done].
  cbn [mbind result_bind].
  destruct (skip_region_bytes skiprows data parser_init) as (p' & Hrun & Hl' & Hst');
    [done..|].
  unfold tokenize_all_rows. rewrite Hrun.
  destruct p' as [st fl ls ws sm]. simpl in *. subst ls.
  unfold parser_handle_eof, end_line. simpl.
  destruct st; try discriminate Hst'; done.
Qed.

(** *** The loop of cell 9 *)

Lemma loop_body_frames fs st file :
  all_dataframes (loop_body fs st file)
  = all_dataframes st ++ (parsed fs [file]).*2.
Proof.
  unfold loop_body, parsed. simpl.
  destruct (add_file_name fs file); simpl; [done|by rewrite app_nil_r].
Qed.

Lemma loop_body_stdout fs st file :
  stdout (loop_body fs st file)
  = stdout st ++ ((λ fe, Failed_to_read fe.1 fe.2) <$> failed fs [file]).
Proof.
  unfold loop_body, failed. simpl.
  destruct (add_file_name fs file); simpl; [by rewrite app_nil_r|done].
Qed.

Lemma parsed_cons fs file files :
  parsed fs (file :: files) = parsed fs [file] ++ parsed fs files.
Proof. unfold parsed. simpl. by destruct (add_file_name fs file). Qed.

Lemma failed_cons fs file files :
  failed fs (file :: files) = failed fs [file] ++ failed fs files.
Proof. unfold failed. simpl. by destruct (add_file_name fs file). Qed.

Lemma foldl_loop_body fs files : ∀ st,
  all_dataframes (foldl (loop_body fs) st files)
    = all_dataframes st ++ (parsed fs files).*2
  ∧ stdout (foldl (loop_body fs) st files)
    = stdout st ++ ((λ fe, Failed_to_read fe.1 fe.2) <$> failed fs files).
Proof.
  induction files as [|file files IH]; intros st.
  { unfold parsed, failed. simpl. by rewrite !app_nil_r. }
  cbn [foldl]. destruct (IH (loop_body fs st file)) as [-> ->].
  rewrite loop_body_frames, loop_body_stdout.
  rewrite (parsed_cons fs file files), (failed_cons fs file files).
  by rewrite !fmap_app, !app_assoc.
Qed.

Lemma read_all_frames fs files :
  all_dataframes (read_all fs files) = (parsed fs files).*2.
Proof. unfold read_all. by destruct (foldl_loop_body fs files (mk_loop [] [])) as [-> _]. Qed.

Lemma read_all_stdout fs files :
  stdout (read_all fs files) = (λ fe, Failed_to_read fe.1 fe.2) <$> failed fs files.
Proof. unfold read_all. by destruct (foldl_loop_body fs files (mk_loop [] [])) as [_ ->]. Qed.

Lemma parsed_failed_length fs files :
  length (parsed fs files) + length (failed fs files) = length files.
Proof.
  induction files as [|file files IH]; [done|].
  rewrite parsed_cons, failed_cons, !length_app. unfold parsed at 1, failed at 1. simpl.
  destruct (add_file_name fs file); simpl; lia.
Qed.

Lemma elem_of_parsed fs files file df :
  (file, df) ∈ parsed fs files ↔ file ∈ files ∧ add_file_name fs file = Ok df.
Proof.
  unfold parsed. rewrite list_elem_of_omap. split.
  - intros (f & Hf & H). destruct (add_file_name fs f) eqn:E; simplify_eq. done.
  - intros [Hf H]. exists file. by rewrite H.
Qed.

Lemma elem_of_failed fs files file e :
  (file, e) ∈ failed fs files ↔ file ∈ files ∧ add_file_name fs file = Raise e.
Proof.
  unfold failed. rewrite list_elem_of_omap. split.
  - intros (f & Hf & H). destruct (add_file_name fs f) eqn:E; simplify_eq. done.
  - intros [Hf H]. exists file. by rewrite H.
Qed.

(** *** [df[key] = value] *)

Lemma setitem_nrows df key v : nrows (setitem df key v) = nrows df.
Proof. unfold setitem, nrows. case_bool_decide; simpl; by rewrite length_fmap. Qed.

Lemma length_set_named key v cols cells :
  length (set_named key v cols cells) = length cells.
Proof.
  revert cells. induction cols as [|c cols IH]; intros [|x cells]; simpl; auto.
Qed.

Lemma setitem_rows_fit df key v : rows_fit df → rows_fit (setitem df key v).
Proof.
  unfold rows_fit, setitem. intros H. case_bool_decide; simpl.
  - apply Forall_fmap. eapply Forall_impl; [done|]. intros r Hr. simpl.
    by rewrite length_set_named.
  - apply Forall_fmap. eapply Forall_impl; [done|]. intros r Hr. simpl.
    rewrite !length_app, Hr. done.
Qed.

Lemma setitem_columns_NoDup df key v :
  NoDup (columns df) → NoDup (columns (setitem df key v)).
Proof.
  unfold setitem. intros H. case_bool_decide; simpl; [done|].
  apply NoDup_app. split; [done|]. split; [|apply NoDup_singleton].
  intros x Hx ->%list_elem_of_singleton. done.
Qed.

Lemma setitem_key_in df key v : key ∈ columns (setitem df key v).
Proof.
  unfold setitem. case_bool_decide; simpl; [done|].
  apply elem_of_app. right. by apply list_elem_of_singleton.
Qed.

Lemma get_named_set_named key v cols cells :
  key ∈ cols → length cells = length cols →
  get_named key cols (set_named key v cols cells) = Some v.
Proof.
  revert cells. induction cols as [|c cols IH]; intros cells Hin Hlen.
  { by apply elem_of_nil in Hin. }
  destruct cells as [|x cells]; [done|]. simpl in *.
  destruct (decide (c = key)); [done|].
  apply IH; [|lia]. apply elem_of_cons in Hin as [->|]; done.
Qed.

Lemma get_named_set_named_ne key key' v cols cells :
  key' ≠ key →
  get_named key' cols (set_named key v cols cells) = get_named key' cols cells.
Proof.
  intros Hne. revert cells. induction cols as [|c cols IH]; intros [|x cells]; simpl; auto.
  destruct (decide (c = key')) as [->|]; [|done].
  by destruct (decide (key' = key)).
Qed.

Lemma get_named_snoc_new key v cols cells :
  key ∉ cols → length cells = length cols →
  get_named key (cols ++ [key]) (cells ++ [v]) = Some v.
Proof.
  revert cells. induction cols as [|c cols IH]; intros cells Hin Hlen.
  { destruct cells; [|done]. simpl. by destruct (decide (key = key)). }
  destruct cells as [|x cells]; [done|]. simpl in *.
  apply not_elem_of_cons in Hin as [Hne Hin].
  destruct (decide (c = key)); [done|]. apply IH; [done|lia].
Qed.

Lemma get_named_snoc_old key key' v cols cells :
  key' ∈ cols → length cells = length cols →
  get_named key' (cols ++ [key]) (cells ++ [v]) = get_named key' cols cells.
Proof.
  revert cells. induction cols as [|c cols IH]; intros cells Hin Hlen.
  { by apply elem_of_nil in Hin. }
  destruct cells as [|x cells]; [done|]. simpl in *.
  destruct (decide (c = key')); [done|].
  apply IH; [|lia]. apply elem_of_cons in Hin as [->|]; done.
Qed.

Lemma get_named_is_Some key cols cells :
  key ∈ cols → length cells = length cols → is_Some (get_named key cols cells).
Proof.
  revert cells. induction cols as [|c cols IH]; intros cells Hin Hlen.
  { by apply elem_of_nil in Hin. }
  destruct cells as [|x cells]; [done|]. simpl in *.
  destruct (decide (c = key)); [eauto|].
  apply IH; [|lia]. apply elem_of_cons in Hin as [->|]; done.
Qed.

(** Every row of the table carries [v] under [key] after [df[key] = v]. *)
Lemma setitem_tagged df key v :
  rows_fit df →
  Forall (λ r, get_named key (columns (setitem df key v)) (r_cells r) = Some v)
         (rows (setitem df key v)).
Proof.
  unfold rows_fit, setitem. intros H. case_bool_decide; simpl.
  - apply Forall_fmap. eapply Forall_impl; [done|]. intros r Hr. simpl.
    by apply get_named_set_named.
  - apply Forall_fmap. eapply Forall_impl; [done|]. intros r Hr. simpl.
    by apply get_named_snoc_new.
Qed.

(** *** [add_file_name] *)

Lemma add_file_name_Ok fs path df :
  add_file_name fs path = Ok df ↔
  ∃ df0, pd_read_csv fs path 8 = Ok df0 ∧ df = setitem df0 "file_name" (Text path).
Proof.
  unfold add_file_name. split.
  - intros (df0 & H0 & H)%bind_Ok. exists df0. by simplify_eq.
  - intros (df0 & -> & ->). done.
Qed.

Lemma add_file_name_Raise fs path e :
  add_file_name fs path = Raise e ↔ pd_read_csv fs path 8 = Raise e.
Proof. unfold add_file_name. by destruct (pd_read_csv fs path 8). Qed.

Lemma pd_read_csv_Ok fs path skiprows df :
  pd_read_csv fs path skiprows = Ok df ↔
  ∃ data, read_bytes fs path = Ok data ∧ read_csv_bytes skiprows data = Ok df.
Proof.
  unfold pd_read_csv. split.
  - intros (data & H0 & H)%bind_Ok. by exists data.
  - intros (data & -> & H). done.
Qed.

Lemma read_csv_bytes_columns_NoDup skiprows data df :
  read_csv_bytes skiprows data = Ok df → NoDup (columns df).
Proof.
  intros (p & header & data_lines & _ & _ & ->)%read_csv_bytes_Ok.
  apply column_names_NoDup.
Qed.

Lemma pd_read_csv_sound fs path skiprows df :
  pd_read_csv fs path skiprows = Ok df → NoDup (columns df) ∧ rows_fit df.
Proof.
  intros (data & _ & H)%pd_read_csv_Ok. split.
  - by eapply read_csv_bytes_columns_NoDup.
  - by eapply read_csv_bytes_rows_fit.
Qed.

Lemma add_file_name_sound fs path df :
  add_file_name fs path = Ok df →
  NoDup (columns df) ∧ rows_fit df ∧ "file_name" ∈ columns df
  ∧ Forall (λ r, get_named "file_name" (columns df) (r_cells r) = Some (Text path)) (rows df).
Proof.
  intros (df0 & [Hnd Hfit]%pd_read_csv_sound & ->)%add_file_name_Ok.
  split; [by apply setitem_columns_NoDup|].
  split; [by apply setitem_rows_fit|].
  split; [apply setitem_key_in|]. by apply setitem_tagged.
Qed.

(** *** [pd.concat] *)

Lemma forallb_Forall {A} (f : A → bool) (l : list A) :
  forallb f l = true ↔ Forall (λ x, f x = true) l.
Proof.
  induction l as [|x l IH]; simpl; [by split|].
  rewrite andb_true_iff, Forall_cons, IH. done.
Qed.

Lemma length_align cols df : length (align cols df) = nrows df.
Proof. unfold align, nrows. case_decide; by rewrite length_fmap. Qed.

Lemma length_bind_align cols (objs : list DataFrame) :
  length (objs ≫= align cols) = sum_list (nrows <$> objs).
Proof.
  induction objs as [|df objs IH]; [done|].
  rewrite bind_cons, length_app, length_align, IH. done.
Qed.

Lemma length_renumber rs : length (renumber rs) = length rs.
Proof. apply length_imap. Qed.

Lemma renumber_cells rs : r_cells <$> renumber rs = rs.
Proof.
  apply list_eq. intros i. unfold renumber.
  rewrite list_lookup_fmap, list_lookup_imap. by destruct (rs !! i).
Qed.


Lemma pd_concat_rows objs ds :
  pd_concat objs = Ok ds → rows ds = renumber (objs ≫= align (columns ds)).
Proof.
  unfold pd_concat. destruct objs as [|first objs]; [done|].
  destruct (same_columns _); [by intros; simplify_eq|].
  destruct (forallb _ _); [by intros; simplify_eq|done].
Qed.

Lemma pd_concat_nrows objs ds :
  pd_concat objs = Ok ds → nrows ds = sum_list (nrows <$> objs).
Proof.
  intros H%pd_concat_rows. unfold nrows at 1.
  by rewrite H, length_renumber, length_bind_align.
Qed.

Lemma pd_concat_nil_iff objs :
  pd_concat objs = Raise (ValueError "No objects to concatenate") ↔ objs = [].
Proof.
  split; [|by intros ->]. unfold pd_concat. destruct objs as [|first objs]; [done|].
  destruct (same_columns _); [done|]. by destruct (forallb _ _).
Qed.

Lemma pd_concat_is_ok objs :
  objs ≠ [] → Forall (λ df, NoDup (columns df)) objs → ∃ ds, pd_concat objs = Ok ds.
Proof.
  intros Hne Hnd. unfold pd_concat. destruct objs as [|first objs]; [done|].
  destruct (same_columns _); [eauto|].
  assert (forallb (λ df, bool_decide (NoDup (columns df))) (first :: objs) = true) as ->;
    [|eauto].
  apply forallb_Forall. eapply Forall_impl; [done|]. intros df Hdf.
  by apply bool_decide_eq_true.
Qed.

Lemma elem_of_union_columns (objs : list DataFrame) df c :
  df ∈ objs → c ∈ columns df → c ∈ union_columns objs.
Proof.
  unfold union_columns.
  assert (Hacc : ∀ objs acc, c ∈ acc →
    c ∈ foldl (λ acc df, acc ++ filter (λ c, c ∉ acc) (columns df)) acc objs).
  { clear. induction objs as [|d objs IH]; intros acc Hc; [done|].
    simpl. apply IH. apply elem_of_app. by left. }
  generalize (@nil string). induction objs as [|d objs IH]; intros acc Hdf Hc.
  { by apply elem_of_nil in Hdf. }
  simpl. apply elem_of_cons in Hdf as [->|Hdf]; [|by apply IH].
  apply Hacc. destruct (decide (c ∈ acc)); apply elem_of_app; [by left|right].
  by apply list_elem_of_filter.
Qed.

Lemma pd_concat_columns objs ds df c :
  pd_concat objs = Ok ds → df ∈ objs → c ∈ columns df → c ∈ columns ds.
Proof.
  unfold pd_concat. destruct objs as [|first objs]; [done|].
  destruct (same_columns _) eqn:Hsame.
  - intros ? Hdf Hc. unfold same_columns in Hsame.
    apply forallb_Forall in Hsame. rewrite Forall_forall in Hsame.
    specialize (Hsame df Hdf). apply bool_decide_eq_true in Hsame.
    simplify_eq. simpl. by rewrite <-Hsame.
  - destruct (forallb _ _); [|done]. intros ? Hdf Hc. simplify_eq/=.
    by eapply elem_of_union_columns.
Qed.

Lemma get_named_reindex key target cols cells :
  key ∈ target →
  get_named key target (reindex_cells target cols cells)
  = Some (default NaN (get_named key cols cells)).
Proof.
  unfold reindex_cells. induction target as [|c target IH]; intros Hin.
  { by apply elem_of_nil in Hin. }
  simpl. destruct (decide (c = key)) as [->|Hne]; [done|].
  apply IH. apply elem_of_cons in Hin as [->|]; done.
Qed.


(** *** The whole run *)

Lemma build_unfold fs :
  build fs = (pd_concat (parsed fs (csv_files fs)).*2,
              (λ fe, Failed_to_read fe.1 fe.2) <$> failed fs (csv_files fs)).
Proof. unfold build, discover. by rewrite read_all_frames, read_all_stdout. Qed.

Lemma parsed_columns_NoDup fs files :
  Forall (λ df, NoDup (columns df)) (parsed fs files).*2.
Proof.
  apply Forall_fmap, Forall_forall. intros [file df] [_ H]%elem_of_parsed.
  by apply add_file_name_sound in H as [? _].
Qed.

Lemma build_is_ok fs :
  parsed fs (csv_files fs) ≠ [] → ∃ ds, (build fs).1 = Ok ds.
Proof.
  intros Hne. rewrite build_unfold. simpl. apply pd_concat_is_ok.
  - by destruct (parsed fs (csv_files fs)).
  - apply parsed_columns_NoDup.
Qed.

Lemma build_raises fs e :
  (build fs).1 = Raise e →
  parsed fs (csv_files fs) = [] ∧ e = ValueError "No objects to concatenate".
Proof.
  intros H. destruct (decide (parsed fs (csv_files fs) = [])) as [Hnil|Hne].
  - split; [done|]. rewrite build_unfold, Hnil in H. simpl in H. by simplify_eq.
  - destruct (build_is_ok fs Hne) as [ds Hds]. congruence.
Qed.

(** *** [fnmatch] and [glob] *)

Lemma fnmatchcase_literal (pat : string) : ∀ name,
  string_forall literal_char pat = true →
  fnmatchcase pat name = bool_decide (name = pat).
Proof.
  induction pat as [|p pat IH]; intros name Hlit; [done|].
  simpl in Hlit. apply andb_true_iff in Hlit as [Hp Hlit].
  unfold literal_char in Hp. apply negb_true_iff, orb_false_iff in Hp as [Hstar Hq].
  cbn [fnmatchcase]. rewrite Hstar, Hq. destruct name as [|c name].
  { symmetry. by apply bool_decide_eq_false. }
  rewrite IH by done. simpl.
  destruct (ch_eqb p c) eqn:E.
  - apply ch_eqb_true in E as ->. simpl. apply bool_decide_ext. naive_solver.
  - simpl. symmetry. apply bool_decide_eq_false. intros [= -> _].
    unfold ch_eqb in E. by rewrite Ascii.eqb_refl in E.
Qed.

Lemma fnmatchcase_star_literal (pat : string) : ∀ name,
  string_forall literal_char pat = true →
  fnmatchcase (String "*" pat) name = has_suffix pat name.
Proof.
  intros name Hlit. cbn [fnmatchcase].
  change (ch_eqb "*" "*") with true. cbv iota.
  induction name as [|c name IH].
  - simpl. by rewrite fnmatchcase_literal.
  - cbn [has_suffix]. rewrite <-IH, fnmatchcase_literal by done. done.
Qed.

Lemma has_suffix_spec (suffix s : string) :
  has_suffix suffix s = true ↔ ∃ stem, s = stem +:+ suffix.
Proof.
  induction s as [|c s IH]; simpl.
  - rewrite orb_false_r, bool_decide_eq_true. split.
    + intros <-. by exists "".
    + intros [[|? stem] H]; [done|discriminate H].
  - rewrite orb_true_iff, bool_decide_eq_true, IH. split.
    + intros [<-|[stem ->]]; [by exists ""|by exists (String c stem)].
    + intros [[|c' stem] H]; [left; done|right].
      injection H as -> ->. by exists stem.
Qed.

Lemma csv_files_eq (fs : filesystem) :
  csv_files fs
  = os_path_join "./data/raw_data" <$>
      filter (λ name, is_csv_name name = true) (iterdir fs "./data/raw_data").
Proof.
  unfold csv_files, glob_glob.
  change (os_path_split (os_path_join DATA_FOLDER "*.csv")) with ("./data/raw_data", "*.csv").
  cbv iota beta. f_equal. unfold glob1.
  change (ishidden "*.csv") with false. cbv iota.
  rewrite list_filter_filter. apply list_filter_iff. intros name.
  unfold is_csv_name. rewrite fnmatchcase_star_literal by done.
  rewrite andb_true_iff, negb_true_iff. tauto.
Qed.

(** *** Lines of a rendered file *)













(** *** Hours *)










(** *** Cleaning *)

Lemma normalize_cell_idemp c : normalize_cell (normalize_cell c) = normalize_cell c.
Proof. destruct c as [s|]; [|done]. simpl. case_decide; [done|]. simpl. by case_decide. Qed.

Lemma normalize_cells_idemp cols : ∀ cells,
  normalize_cells cols (normalize_cells cols cells) = normalize_cells cols cells.
Proof.
  induction cols as [|c cols IH]; intros [|x cells]; simpl; try done.
  rewrite IH. by destruct (decide (c = NET_EXCHANGE)); [rewrite normalize_cell_idemp|].
Qed.

Lemma normalize_idemp d : normalize (normalize d) = normalize d.
Proof.
  unfold normalize. simpl. f_equal. rewrite <-list_fmap_compose.
  apply list_fmap_ext. intros i r _. unfold map_cells. simpl.
  by rewrite normalize_cells_idemp.
Qed.

(** *** Rows with quoted fields, blank lines, rows of other widths *)

Lemma end_line_state st fl ls ws sm :
  in_skip_line st = false →
  set_state START_RECORD <$> end_line (mk_parser st fl ls ws sm)
  = end_line (mk_parser START_RECORD fl ls ws sm).
Proof.
  intros Hst. unfold end_line. simpl. rewrite Hst.
  destruct ((1 <? length ls) && _); [done|]. done.
Qed.

Lemma tokenize_quoted_body skiprows (s : string) : ∀ fl ls ws sm,
  tokenize_bytes skiprows (mk_parser IN_QUOTED_FIELD fl ls ws sm) (double_quotes s)
  = (mk_parser IN_QUOTED_FIELD fl ls ws (sm +:+ s), None).
Proof.
  induction s as [|c s IH]; intros fl ls ws sm.
  { by rewrite string_app_nil_r. }
  cbn [double_quotes]. destruct (IS_QUOTE c) eqn:Hq.
  - apply ch_eqb_true in Hq as ->. cbn [tokenize_bytes].
    unfold tokenize_byte. simpl. psimpl.
    rewrite IH. by rewrite string_app_snoc.
  - cbn [tokenize_bytes]. unfold tokenize_byte. simpl. rewrite Hq. psimpl.
    rewrite IH. by rewrite string_app_snoc.
Qed.



(** A field that is not the first of its row. *)
Lemma tokenize_field_src skiprows (f : field_src) fl ls ws :
  field_shape f = true →
  ∃ st, (st = START_FIELD ∨ st = IN_FIELD ∨ st = QUOTE_IN_QUOTED_FIELD) ∧
    tokenize_bytes skiprows (mk_parser START_FIELD fl ls ws "") (render_field f)
    = (mk_parser st fl ls ws (field_value f), None).
Proof.
  intros Hok. destruct f as [s|s].
  - destruct (tokenize_field skiprows s fl ls ws Hok) as (st & Hst & Heq).
    exists st. split; [destruct Hst; auto|done].
  - exists QUOTE_IN_QUOTED_FIELD. split; [auto|].
    cbn [render_field tokenize_bytes]. unfold tokenize_byte at 1, start_field_byte.
    simpl. psimpl. rewrite tokenize_bytes_app, tokenize_quoted_body. done.
Qed.

Lemma tokenize_delimiter_end skiprows st fl ls ws sm :
  st = START_FIELD ∨ st = IN_FIELD ∨ st = QUOTE_IN_QUOTED_FIELD →
  tokenize_byte skiprows (mk_parser st fl ls ws sm) COMMA
  = Ok (mk_parser START_FIELD fl ls (ws ++ [sm]) "").
Proof. by intros [-> | [-> | ->]]. Qed.

Lemma join_fmap_cons_snoc {A} (g : A → string) (f : A) (init : list A) (l : A) :
  str_join "," (g <$> f :: init ++ [l])
  = g f +:+ String COMMA (str_join "," (g <$> init ++ [l])).
Proof. rewrite fmap_cons, fmap_app. simpl. by destruct (g <$> init). Qed.

Lemma tokenize_fields_src skiprows (init : list field_src) : ∀ (l : field_src) fl ls ws,
  forallb field_shape (init ++ [l]) = true →
  ∃ st, (st = START_FIELD ∨ st = IN_FIELD ∨ st = QUOTE_IN_QUOTED_FIELD) ∧
    tokenize_bytes skiprows (mk_parser START_FIELD fl ls ws "")
                   (str_join "," (render_field <$> init ++ [l]))
    = (mk_parser st fl ls (ws ++ (field_value <$> init)) (field_value l), None).
Proof.
  induction init as [|f init IH]; intros l fl ls ws Hall.
  { simpl in *. rewrite app_nil_r. apply tokenize_field_src.
    by apply andb_true_iff in Hall as [? _]. }
  change ((f :: init) ++ [l]) with (f :: init ++ [l]) in *.
  rewrite join_fmap_cons_snoc. cbn [forallb] in Hall.
  apply andb_true_iff in Hall as [Hf Hall].
  destruct (tokenize_field_src skiprows f fl ls ws Hf) as (st & Hst & Hfld).
  destruct (IH l fl ls (ws ++ [field_value f]) Hall) as (st' & Hst' & Hrest).
  exists st'. split; [done|].
  rewrite tokenize_bytes_app, Hfld. cbn [tokenize_bytes].
  rewrite tokenize_delimiter_end by done.
  rewrite Hrest. by rewrite fmap_cons, <-app_assoc.
Qed.

(** The first field of a row and what follows it. *)
Lemma tokenize_first_src skiprows (f : field_src) fl ls ws :
  skiprows ≤ fl → field_shape f = true →
  ∃ st,
    tokenize_bytes skiprows (mk_parser START_RECORD fl ls ws "") (render_field f)
    = (mk_parser st fl ls ws (field_value f), None)
    ∧ tokenize_byte skiprows (mk_parser st fl ls ws (field_value f)) COMMA
      = Ok (mk_parser START_FIELD fl ls (ws ++ [field_value f]) "")
    ∧ (blank_src [f] = false →
       st = START_FIELD ∨ st = IN_FIELD ∨ st = QUOTE_IN_QUOTED_FIELD).
Proof.
  intros Hfl Hok.
  assert (Hskip : skip_this skiprows fl = false) by (by apply Nat.ltb_ge).
  destruct f as [s|s].
  - simpl in Hok. exists (first_field_state s).
    split; [by apply tokenize_first_field|].
    split; [by apply tokenize_first_delimiter|].
    simpl. intros Hb. right; left. unfold first_field_state.
    destruct s; [done|]. by rewrite Hb.
  - exists QUOTE_IN_QUOTED_FIELD. split; [|split; [done|auto]].
    cbn [render_field tokenize_bytes]. unfold tokenize_byte at 1, start_record_byte.
    simpl. rewrite Hskip. unfold start_field_byte. simpl. psimpl.
    rewrite tokenize_bytes_app, tokenize_quoted_body. done.
Qed.

(** The fields of a row, up to its line end. *)
Lemma tokenize_row_body skiprows (row : list field_src) fl ls :
  skiprows ≤ fl → forallb field_shape row = true → blank_src row = false →
  ∃ st init l,
    field_value <$> row = init ++ [l]
    ∧ (st = START_FIELD ∨ st = IN_FIELD ∨ st = QUOTE_IN_QUOTED_FIELD)
    ∧ tokenize_bytes skiprows (mk_parser START_RECORD fl ls [] "")
                     (str_join "," (render_field <$> row))
      = (mk_parser st fl ls init l, None).
Proof.
  intros Hfl Hall Hblank. destruct row as [|f0 more]; [done|].
  cbn [forallb] in Hall. apply andb_true_iff in Hall as [Hf0 Hmore].
  destruct (tokenize_first_src skiprows f0 fl ls [] Hfl Hf0) as (st0 & Hfirst & Hcomma & Hend).
  destruct (decide (more = [])) as [-> | Hne].
  - exists st0, [], (field_value f0). split; [done|]. split; [by apply Hend|done].
  - destruct (exists_last Hne) as (init & l & ->).
    destruct (tokenize_fields_src skiprows init l fl ls ([] ++ [field_value f0]) Hmore)
      as (st & Hst & Hrest).
    exists st, (field_value f0 :: (field_value <$> init)), (field_value l).
    split; [by rewrite fmap_cons, fmap_app|]. split; [done|].
    rewrite join_fmap_cons_snoc, tokenize_bytes_app, Hfirst. cbn [tokenize_bytes].
    rewrite Hcomma. exact Hrest.
Qed.

(** The line end after the last field of a row: the row goes to
    [end_line]. *)
Lemma tokenize_eol_end skiprows nl st fl ls ws sm (rest : string) :
  st = START_FIELD ∨ st = IN_FIELD ∨ st = QUOTE_IN_QUOTED_FIELD →
  ∃ q, tokenize_bytes skiprows (mk_parser st fl ls ws sm) (eol nl +:+ rest)
       = match end_line (mk_parser START_RECORD fl ls (ws ++ [sm]) "") with
         | Ok p' => tokenize_bytes skiprows p' rest
         | Raise e => (q, Some e)
         end.
Proof.
  intros Hst.
  assert (Hskip : in_skip_line st = false).
  { destruct Hst as [H | [H | H]]; by rewrite H. }
  destruct nl; cbn [eol].
  - exists (mk_parser st fl ls ws sm). rewrite string_app_cons. cbn [tokenize_bytes].
    assert (tokenize_byte skiprows (mk_parser st fl ls ws sm) LF
            = END_LINE (mk_parser st fl ls (ws ++ [sm]) "")) as ->.
    { by destruct Hst as [-> | [-> | ->]]. }
    unfold END_LINE. rewrite end_line_state by done.
    by destruct (end_line _).
  - exists (mk_parser EAT_CRNL fl ls (ws ++ [sm]) "").
    rewrite !string_app_cons. cbn [tokenize_bytes].
    assert (tokenize_byte skiprows (mk_parser st fl ls ws sm) CR
            = Ok (mk_parser EAT_CRNL fl ls (ws ++ [sm]) "")) as ->.
    { by destruct Hst as [-> | [-> | ->]]. }
    assert (tokenize_byte skiprows (mk_parser EAT_CRNL fl ls (ws ++ [sm]) "") LF
            = END_LINE (mk_parser EAT_CRNL fl ls (ws ++ [sm]) "")) as -> by done.
    unfold END_LINE. rewrite end_line_state by done.
    by destruct (end_line _).
Qed.

(** A row followed by anything: its fields go to [end_line]. *)
Lemma tokenize_row skiprows nl (row : list field_src) fl ls (rest : string) :
  skiprows ≤ fl → forallb field_shape row = true → blank_src row = false →
  ∃ q, tokenize_bytes skiprows (mk_parser START_RECORD fl ls [] "")
                      (render_line nl (Row row) +:+ rest)
       = match end_line (mk_parser START_RECORD fl ls (field_value <$> row) "") with
         | Ok p' => tokenize_bytes skiprows p' rest
         | Raise e => (q, Some e)
         end.
Proof.
  intros Hfl Hall Hblank.
  destruct (tokenize_row_body skiprows row fl ls Hfl Hall Hblank)
    as (st & init & l & Hrow & Hst & Hbody).
  destruct (tokenize_eol_end skiprows nl st fl ls init l rest Hst) as (q & Heol).
  exists q. cbn [render_line]. unfold text_line.
  rewrite string_app_assoc, tokenize_bytes_app, Hbody. by rewrite Hrow.
Qed.



Lemma end_line_first_row fl header (fields : list string) :
  end_line (mk_parser START_RECORD fl [header] fields "")
  = Ok (mk_parser START_RECORD (S fl) [header; pad_row (length header) fields] [] "").
Proof. done. Qed.

Lemma end_line_too_long fl ls x (fields : list string) :
  2 ≤ length ls → last ls = Some x → length x < length fields →
  end_line (mk_parser START_RECORD fl ls fields "")
  = Raise (ParserError_fields (length x) (S fl) (length fields)).
Proof.
  intros Hls Hx Hlen. unfold end_line. simpl. rewrite Hx. simpl.
  assert ((1 <? length ls) = true) as -> by (apply Nat.ltb_lt; lia).
  assert ((length x <? length fields) = true) as -> by (by apply Nat.ltb_lt).
  done.
Qed.

Lemma pad_row_full width (fields : list string) :
  width ≤ length fields → pad_row width fields = fields.
Proof.
  intros Hw. unfold pad_row.
  assert (width - length fields = 0) as -> by lia. apply app_nil_r.
Qed.




(** *** UTF-8 of the rendered files *)





Lemma meta_ok_inv skip meta :
  meta_ok skip meta = true →
  length meta = skip ∧ forallb (string_forall meta_char) meta = true
  ∧ utf8_valid (concat_lines (text_line NL_LF <$> meta)) = true
  ∧ utf8_valid (concat_lines (text_line NL_CRLF <$> meta)) = true.
Proof.
  unfold meta_ok. intros [Hlen Hall]%andb_true_iff.
  apply bool_decide_eq_true in Hlen. split; [done|]. split; [|split].
  - eapply forallb_impl; [|exact Hall]. by intros m [? _]%andb_true_iff.
  - apply utf8_valid_concat_lines. rewrite forallb_fmap.
    eapply forallb_impl; [|exact Hall]. intros m [_ Hm]%andb_true_iff.
    by apply utf8_valid_text_line.
  - apply utf8_valid_concat_lines. rewrite forallb_fmap.
    eapply forallb_impl; [|exact Hall]. intros m [_ Hm]%andb_true_iff.
    by apply utf8_valid_text_line.
Qed.


(** *** Rows of plain fields *)

Lemma values_plain (fields : list string) : field_value <$> (Plain <$> fields) = fields.
Proof. rewrite <-list_fmap_compose. apply list_fmap_id. Qed.

Lemma render_plain (fields : list string) : render_field <$> (Plain <$> fields) = fields.
Proof. rewrite <-list_fmap_compose. apply list_fmap_id. Qed.

Lemma render_plain_row nl (fields : list string) :
  render_line nl (Row (Plain <$> fields)) = csv_line nl fields.
Proof. cbn [render_line]. by rewrite render_plain. Qed.

Lemma shape_plain (fields : list string) :
  forallb field_shape (Plain <$> fields) = forallb (string_forall plain_char) fields.
Proof. by rewrite forallb_fmap. Qed.

Lemma blank_src_plain (fields : list string) :
  blank_src (Plain <$> fields) = blank_row fields.
Proof. by destruct fields as [|f [|g fields]]. Qed.

Lemma plain_fields_inv (fields : list string) :
  plain_fields fields = true →
  forallb (string_forall plain_char) fields = true
  ∧ forallb utf8_valid fields = true ∧ blank_row fields = false.
Proof.
  unfold plain_fields. intros [Hall Hb]%andb_true_iff. apply negb_true_iff in Hb.
  split; [|split; [|done]].
  - eapply forallb_impl; [|exact Hall]. by intros f [? _]%andb_true_iff.
  - eapply forallb_impl; [|exact Hall]. by intros f [_ ?]%andb_true_iff.
Qed.

Lemma plain_row_fields width (fields : list string) :
  plain_row width fields = true → plain_fields fields = true ∧ length fields = width.
Proof.
  unfold plain_row, plain_fields.
  intros [[Hlen Hall]%andb_true_iff Hb]%andb_true_iff.
  apply bool_decide_eq_true in Hlen. by rewrite Hall, Hb.
Qed.

Lemma tokenize_plain_row skiprows nl (fields : list string) fl ls (rest : string) :
  skiprows ≤ fl → plain_fields fields = true →
  ∃ q, tokenize_bytes skiprows (mk_parser START_RECORD fl ls [] "")
                      (csv_line nl fields +:+ rest)
       = match end_line (mk_parser START_RECORD fl ls fields "") with
         | Ok p' => tokenize_bytes skiprows p' rest
         | Raise e => (q, Some e)
         end.
Proof.
  intros Hfl (Hplain & _ & Hblank)%plain_fields_inv.
  destruct (tokenize_row skiprows nl (Plain <$> fields) fl ls rest) as (q & Heq).
  - done.
  - by rewrite shape_plain.
  - by rewrite blank_src_plain.
  - exists q. by rewrite render_plain_row, values_plain in Heq.
Qed.



Lemma fmap_pad_row_id w (data : list (list string)) :
  Forall (λ r, length r = w) data → pad_row w <$> data = data.
Proof.
  induction 1 as [|r data Hr _ IH]; [done|].
  rewrite fmap_cons, IH. f_equal. apply pad_row_full. lia.
Qed.


(** Rows that are all longer than the header. *)
Lemma tokenize_wide_rows skiprows nl meta header w (data : list (list string)) :
  meta_ok skiprows meta = true →
  plain_fields header = true →
  length header ≤ w →
  forallb (plain_row w) data = true →
  tokenize_bytes skiprows parser_init (render_file nl meta header data)
  = (mk_parser START_RECORD (skiprows + 1 + length data) (header :: data) [] "", None).
Proof.
  intros (Hlen & Hmc & _)%meta_ok_inv Hhdr Hw Hdata. unfold render_file, parser_init.
  rewrite tokenize_bytes_app, tokenize_meta_lines by (done || lia).
  destruct (tokenize_plain_row skiprows nl header (0 + length meta) []
              (concat_lines (csv_line nl <$> data))) as (q & ->); [lia|done|].
  rewrite (end_line_same_width START_RECORD) by (done || by left).
  destruct data as [|r data].
  { simpl. do 2 f_equal. lia. }
  cbn [forallb] in Hdata. apply andb_true_iff in Hdata as [Hr Hdata].
  apply plain_row_fields in Hr as [Hr Hrw].
  cbn [fmap list_fmap concat_lines app].
  destruct (tokenize_plain_row skiprows nl r (S (0 + length meta)) [header]
              (concat_lines (csv_line nl <$> data))) as (q' & ->); [lia|done|].
  rewrite end_line_first_row, pad_row_full by lia.
  rewrite (tokenize_csv_lines skiprows nl w data _ _ r); [|lia|done..].
  simpl. do 2 f_equal. lia.
Qed.








Lemma well_formed_meta_ok skip meta header data :
  well_formed skip meta header data = true → meta_ok skip meta = true.
Proof.
  unfold well_formed, meta_ok.
  by intros [[-> _]%andb_true_iff _]%andb_true_iff.
Qed.

Lemma tokenize_bytes_well_formed skip nl meta header data :
  well_formed skip meta header data = true →
  tokenize_bytes skip parser_init (render_file nl meta header data)
  = (mk_parser START_RECORD (skip + 1 + length data) (header :: data) [] "", None).
Proof.
  intros Hwf. pose proof Hwf as (_ & _ & _ & Hhdr & Hdata)%well_formed_inv.
  apply (tokenize_wide_rows skip nl meta header (length header) data);
    [by eapply well_formed_meta_ok|by apply plain_row_fields in Hhdr as [? _]|done..].
Qed.


(** *** More on the names of the columns *)

Lemma renamed_nonempty (old : string) (k : nat) : renamed old k ≠ "".
Proof. unfold renamed. by destruct old. Qed.

Lemma unnamed_nonempty (i : nat) : unnamed i ≠ "".
Proof. done. Qed.

Lemma mangle_loop_name fuel (h : list string) (old : string) : ∀ col cur counts,
  (mangle_loop fuel h old col cur counts).1.1 = col
  ∨ ∃ k, (mangle_loop fuel h old col cur counts).1.1 = renamed old k.
Proof.
  induction fuel as [|fuel IH]; intros col cur counts; simpl; [auto|].
  destruct (0 <? cur); [|auto]. right.
  destruct (IH (renamed old cur)
              (if bool_decide (renamed old cur ∈ h) then S cur
               else default 0 (<[old:=S cur]> counts !! renamed old cur))
              (<[old:=S cur]> counts)) as [-> | [k ->]]; eauto.
Qed.

Lemma mangle_step_elem (h : list string) counts i (x : string) :
  x ∈ (mangle_step (h, counts) i).1 → x ∈ h ∨ ∃ old k, x = renamed old k.
Proof.
  unfold mangle_step. destruct (h !! i) as [col|] eqn:Hcol; [|auto].
  pose proof (mangle_loop_name (S (length h)) h col col (default 0 (counts !! col)) counts)
    as Hname.
  destruct (mangle_loop _ _ _ _ _ _) as [[col' c] counts']. simpl in *.
  intros (j & Hj)%list_elem_of_lookup.
  apply list_lookup_insert_Some in Hj as [(-> & <- & _)|[_ Hj]].
  - destruct Hname as [-> | [k ->]]; [left|right; eauto].
    by eapply list_elem_of_lookup_2.
  - left. by eapply list_elem_of_lookup_2.
Qed.

Lemma mangle_fold_elem (L : list nat) : ∀ (h : list string) counts (x : string),
  x ∈ (foldl mangle_step (h, counts) L).1 → x ∈ h ∨ ∃ old k, x = renamed old k.
Proof.
  induction L as [|i L IH]; intros h counts x Hx; [auto|].
  cbn [foldl] in Hx.
  destruct (mangle_step (h, counts) i) as [h' counts'] eqn:Hstep.
  apply IH in Hx as [Hx|Hx]; [|auto].
  apply (mangle_step_elem h counts i). by rewrite Hstep.
Qed.

Lemma column_names_nonempty (names : list string) : "" ∉ column_names names.
Proof.
  unfold column_names. intros [Hin|(old & k & Hk)]%mangle_fold_elem.
  - apply list_elem_of_lookup in Hin as (i & Hi).
    apply list_lookup_imap_Some in Hi as (name & _ & Hi).
    case_decide; [by destruct (unnamed_nonempty i)|done].
  - by destruct (renamed_nonempty old k).
Qed.

Lemma unnamed_col_indices_nil (names : list string) :
  "" ∉ names → unnamed_col_indices names = [].
Proof.
  intros Hne. unfold unnamed_col_indices.
  induction (seq 0 (length names)) as [|i l IH]; [done|].
  rewrite filter_cons_False; [done|].
  intros Hi. apply Hne. by eapply list_elem_of_lookup_2.
Qed.

Lemma this_header_id (names : list string) :
  "" ∉ names →
  imap (λ i name, if decide (name = "") then unnamed i else name) names = names.
Proof.
  intros Hne. rewrite <-(list_fmap_id names) at 2. rewrite <-imap_const.
  apply imap_ext. intros i x Hx. simpl. case_decide; [|done]. subst.
  exfalso. apply Hne. by eapply list_elem_of_lookup_2.
Qed.

(** A name that stands at one position only stays there. *)
Lemma mangle_step_keeps n P (h : list string) counts j i (name : string) :
  mangle_inv n P h counts → j ∉ P → j < n →
  h !! i = Some name → (∀ k, h !! k = Some name → k = i) →
  (mangle_step (h, counts) j).1 !! i = Some name
  ∧ ∀ k, (mangle_step (h, counts) j).1 !! k = Some name → k = i.
Proof.
  intros [Hlen Hkeys Hpos Hnamed Hdist] HjP Hj Hi Huniq.
  destruct (lookup_lt_is_Some_2 h j) as [col Hcol]; [lia|].
  unfold mangle_step. rewrite Hcol.
  destruct (counts !! col) as [c|] eqn:Hc.
  - change (default 0 (Some c)) with c.
    destruct (mangle_loop_spec (S (length h)) h col col c counts)
      as (col' & m & Heq & Hnot & Hm).
    + intros x (k & _ & Hk)%Hkeys. by eapply list_elem_of_lookup_2.
    + eauto.
    + by eapply Hpos.
    + intros K HK HKin. apply Nat.lt_succ_r, (candidates_bounded h col); [done|].
      intros k Hk. by apply HKin.
    + rewrite Heq. simpl.
      assert (col' ≠ name) as Hne.
      { intros ->. apply Hnot. by eapply list_elem_of_lookup_2. }
      assert (j ≠ i) as Hji.
      { intros ->. destruct (Hkeys col) as (k & Hk & Hkn); [eauto|].
        assert (col = name) as -> by congruence.
        apply Huniq in Hkn as ->. done. }
      split; [by rewrite list_lookup_insert_ne|].
      intros k Hk. apply list_lookup_insert_Some in Hk as [(_ & ? & _)|[_ Hk]]; [done|auto].
  - simpl. by rewrite list_insert_id.
Qed.

Lemma mangle_fold_keeps n L i (name : string) : ∀ P (h : list string) counts,
  mangle_inv n P h counts → NoDup L → (∀ j, j ∈ L → j < n ∧ j ∉ P) →
  h !! i = Some name → (∀ k, h !! k = Some name → k = i) →
  (foldl mangle_step (h, counts) L).1 !! i = Some name.
Proof.
  induction L as [|j L IH]; intros P h counts Hinv HL Hin Hi Huniq; [done|].
  apply NoDup_cons in HL as [HjL HL]. cbn [foldl].
  destruct (Hin j) as [Hjn HjP]; [left|].
  pose proof (mangle_step_inv n P h counts j Hinv HjP Hjn) as Hs.
  pose proof (mangle_step_keeps n P h counts j i name Hinv HjP Hjn Hi Huniq) as [Hi' Hu'].
  destruct (mangle_step (h, counts) j) as [h' counts'] eqn:Hstep. simpl in *.
  apply (IH (j :: P)); [done|done| |done|done].
  intros k Hk. split; [apply Hin; by right|].
  intros [->|HkP]%elem_of_cons; [done|].
  destruct (Hin k); [by right|done].
Qed.

(** *** The labels of the rows *)

Lemma read_csv_bytes_labels skiprows data df :
  read_csv_bytes skiprows data = Ok df →
  (∀ i r, rows df !! i = Some r → r_label r = Pos i)
  ∨ (∀ r, r ∈ rows df → ∃ k, r_label r = Key k).
Proof.
  intros (p & header & data_lines & _ & _ & ->)%read_csv_bytes_Ok. simpl.
  set (leading := _ - _). destruct (decide (leading = 0)) as [H0|Hne].
  - left. intros i r (cells & _ & ->)%list_lookup_imap_Some.
    unfold make_row. by rewrite decide_True.
  - right. intros r (i & Hr)%list_elem_of_lookup.
    apply list_lookup_imap_Some in Hr as (cells & _ & ->).
    unfold make_row. rewrite decide_False by done. eauto.
Qed.

(** *** A double quote at the start of a skipped line *)

Lemma tokenize_quoted_skip skiprows (s : string) : ∀ p,
  state p = IN_QUOTED_FIELD_IN_SKIP_LINE →
  string_forall (λ c, negb (IS_QUOTE c)) s = true →
  tokenize_bytes skiprows p s = (p, None).
Proof.
  induction s as [|c s IH]; intros p Hst Hs; [done|].
  simpl in Hs. apply andb_true_iff in Hs as [Hc Hs]. apply negb_true_iff in Hc.
  cbn [tokenize_bytes]. unfold tokenize_byte. rewrite Hst, Hc. by apply IH.
Qed.

(** *** The rows of a table and the lines of its file *)

Lemma end_line_Ok p p' :
  end_line p = Ok p' →
  file_lines p' = S (file_lines p) ∧ state p' = state p
  ∧ length (lines p') = (if in_skip_line (state p) then 0 else 1) + length (lines p).
Proof.
  unfold end_line. destruct (in_skip_line (state p)).
  - intros [= <-]. done.
  - destruct (_ && _); [done|]. intros [= <-]. simpl. rewrite length_app. simpl.
    repeat split; lia.
Qed.

Lemma END_LINE_Ok p p' :
  END_LINE p = Ok p' →
  file_lines p' = S (file_lines p) ∧ state p' = START_RECORD
  ∧ length (lines p') = (if in_skip_line (state p) then 0 else 1) + length (lines p).
Proof.
  unfold END_LINE. destruct (end_line p) as [q|] eqn:E; [|done].
  intros [= <-]. apply end_line_Ok in E as (? & ? & ?). done.
Qed.

Lemma pending_cons_cons c c2 s : pending (String c (String c2 s)) = pending (String c2 s).
Proof. done. Qed.

Lemma pending_single c :
  pending (String c "") = if ch_eqb c LF || ch_eqb c CR then 0 else 1.
Proof. unfold pending. simpl. by destruct (_ || _). Qed.

Lemma lines_ahead_LF st rest :
  lines_ahead st (String LF rest)
  = owed st + (if cr_seen st then 0 else 1) + line_ends false rest + tail_at 0 rest.
Proof.
  unfold lines_ahead. rewrite line_ends_LF. unfold tail_at at 1.
  destruct rest as [|c2 rest]; [rewrite pending_single|rewrite pending_cons_cons];
    [|simpl; lia].
  change (ch_eqb LF LF || ch_eqb LF CR) with true. simpl. lia.
Qed.

Lemma lines_ahead_CR st rest :
  lines_ahead st (String CR rest)
  = owed st + 1 + line_ends true rest + tail_at 0 rest.
Proof.
  unfold lines_ahead. rewrite line_ends_CR. unfold tail_at at 1.
  destruct rest as [|c2 rest]; [rewrite pending_single|rewrite pending_cons_cons];
    [|simpl; lia].
  change (ch_eqb CR LF || ch_eqb CR CR) with true. simpl. lia.
Qed.

Lemma lines_ahead_other st c rest :
  c ≠ LF → c ≠ CR →
  lines_ahead st (String c rest) = owed st + line_ends false rest + tail_at 1 rest.
Proof.
  intros H1 H2. unfold lines_ahead. rewrite line_ends_other by done. unfold tail_at at 1.
  destruct rest as [|c2 rest]; [|by rewrite pending_cons_cons].
  rewrite pending_single, (ch_eqb_false c LF), (ch_eqb_false c CR) by done. done.
Qed.

Lemma rest_cases (rest : string) :
  rest = "" ∨ ∀ x, tail_at x rest = pending rest.
Proof. destruct rest; [by left|by right]. Qed.

Ltac eval_chars :=
  repeat match goal with
  | H : context [ch_eqb ?a ?b] |- _ =>
      let v := eval vm_compute in (ch_eqb a b) in
      match v with
      | true => change (ch_eqb a b) with true in H
      | false => change (ch_eqb a b) with false in H
      end
  end.

Ltac char_class c :=
  destruct (decide (c = LF)) as [->|?];
  [rewrite lines_ahead_LF
  |destruct (decide (c = CR)) as [->|?];
    [rewrite lines_ahead_CR
    |rewrite (lines_ahead_other _ c) by done;
     destruct (decide (c = QUOTE)) as [->|?];
      [|destruct (decide (c = COMMA)) as [->|?];
        [|assert (Hnt : IS_TERMINATOR c = false) by (by apply ch_eqb_false);
          assert (Hnc : IS_CARRIAGE c = false) by (by apply ch_eqb_false);
          assert (Hnq : IS_QUOTE c = false) by (by apply ch_eqb_false);
          assert (Hnd : IS_DELIMITER c = false) by (by apply ch_eqb_false)]]]].

Ltac ahead_end rest :=
  unfold lines_ahead; simpl;
  repeat match goal with H : state _ = _ |- _ => rewrite H end;
  repeat match goal with H : file_lines _ = _ |- _ => rewrite H end;
  let Ht := fresh "Ht" in
  destruct (rest_cases rest) as [-> | Ht]; [simpl; lia|rewrite !Ht; simpl; lia].

Ltac ahead_step H rest :=
  unfold IS_TERMINATOR, IS_CARRIAGE, IS_QUOTE, IS_DELIMITER, isblank in H;
  eval_chars; cbv iota in H; simpl orb in H; cbv iota in H;
  first
    [ apply END_LINE_Ok in H as (? & ? & _); ahead_end rest
    | injection H as <-; ahead_end rest ].

(** One character does not take the reader further in the count of
    lines than the text read. *)
Lemma start_field_byte_ahead c rest p p' :
  state p = START_FIELD →
  start_field_byte c p = Ok p' →
  file_lines p' + lines_ahead (state p') rest
  ≤ file_lines p + lines_ahead START_FIELD (String c rest).
Proof.
  intros Hst H. unfold start_field_byte in H.
  pose proof (line_ends_flag rest) as [Hle1 Hle2].
  char_class c; [ahead_step H rest..|].
  rewrite Hnt, Hnc, Hnq, Hnd in H. ahead_step H rest.
Qed.

Lemma in_field_byte_ahead c rest p p' :
  state p = IN_FIELD →
  in_field_byte c p = Ok p' →
  file_lines p' + lines_ahead (state p') rest
  ≤ file_lines p + lines_ahead IN_FIELD (String c rest).
Proof.
  intros Hst H. unfold in_field_byte in H.
  pose proof (line_ends_flag rest) as [Hle1 Hle2].
  char_class c; [ahead_step H rest..|].
  rewrite Hnt, Hnc, Hnd in H. ahead_step H rest.
Qed.

Lemma start_record_byte_ahead skiprows c rest p p' :
  state p = START_RECORD →
  start_record_byte skiprows c p = Ok p' →
  file_lines p' + lines_ahead (state p') rest
  ≤ file_lines p + lines_ahead START_RECORD (String c rest).
Proof.
  intros Hst H. unfold start_record_byte in H.
  pose proof (line_ends_flag rest) as [Hle1 Hle2].
  destruct (skip_this skiprows (file_lines p)).
  - char_class c; [ahead_step H rest..|].
    rewrite Hnt, Hnq in H. ahead_step H rest.
  - destruct (decide (c = LF)) as [->|?]; [rewrite lines_ahead_LF; ahead_step H rest|].
    destruct (decide (c = CR)) as [->|?]; [rewrite lines_ahead_CR; ahead_step H rest|].
    assert (Hnt : IS_TERMINATOR c = false) by (by apply ch_eqb_false).
    assert (Hnc : IS_CARRIAGE c = false) by (by apply ch_eqb_false).
    rewrite Hnt, Hnc in H.
    destruct (isblank c).
    + rewrite (lines_ahead_other _ c) by done. ahead_step H rest.
    + apply (start_field_byte_ahead c rest) in H; [|done].
      etrans; [exact H|]. simpl. rewrite !(lines_ahead_other _ c) by done. simpl. lia.
Qed.

Lemma lines_ahead_same_tail st st' c rest :
  owed st = owed st' → (c ≠ LF ∨ cr_seen st = cr_seen st') →
  lines_ahead st (String c rest) = lines_ahead st' (String c rest).
Proof.
  intros Ho Hc. unfold lines_ahead, tail_at. rewrite Ho. f_equal. f_equal.
  destruct Hc as [Hc | ->]; [|done].
  by rewrite (line_ends_not_LF c rest (cr_seen st)), (line_ends_not_LF c rest (cr_seen st')).
Qed.

Lemma tokenize_byte_ahead skiprows c rest p p' :
  tokenize_byte skiprows p c = Ok p' →
  file_lines p' + lines_ahead (state p') rest
  ≤ file_lines p + lines_ahead (state p) (String c rest).
Proof.
  intros H. unfold tokenize_byte in H.
  pose proof (line_ends_flag rest) as [Hle1 Hle2].
  destruct (state p) eqn:Hst.
  - (* START_RECORD *) by apply (start_record_byte_ahead skiprows).
  - (* START_FIELD *) by apply start_field_byte_ahead.
  - (* IN_FIELD *) by apply in_field_byte_ahead.
  - (* IN_QUOTED_FIELD *)
    char_class c; [ahead_step H rest..|]. rewrite Hnq in H. ahead_step H rest.
  - (* QUOTE_IN_QUOTED_FIELD *)
    char_class c; [ahead_step H rest..|]. rewrite Hnt, Hnc, Hnq, Hnd in H. ahead_step H rest.
  - (* EAT_CRNL *)
    destruct (decide (c = LF)) as [->|Hc]; [rewrite lines_ahead_LF; ahead_step H rest|].
    assert (Hnt : IS_TERMINATOR c = false) by (by apply ch_eqb_false).
    rewrite Hnt in H.
    destruct (decide (c = COMMA)) as [->|Hc2].
    + rewrite lines_ahead_other by done.
      change (IS_DELIMITER COMMA) with true in H. cbv iota in H.
      destruct (end_line p) as [q|] eqn:E; [|done].
      apply end_line_Ok in E as (Hfl & Hs & _). injection H as <-. ahead_end rest.
    + assert (Hnd : IS_DELIMITER c = false) by (by apply ch_eqb_false).
      rewrite Hnd in H.
      destruct (END_LINE p) as [q|] eqn:E; [|done].
      apply END_LINE_Ok in E as (Hfl & Hs & _). simpl in H.
      apply (start_record_byte_ahead skiprows c rest) in H; [|done].
      etrans; [exact H|]. rewrite Hfl.
      unfold lines_ahead. cbn [owed cr_seen line_open tail_at].
      rewrite (line_ends_not_LF c rest true) by done. lia.
  - (* EAT_CRNL_NOP *)
    destruct (decide (c = LF)) as [->|Hc]; [rewrite lines_ahead_LF; ahead_step H rest|].
    destruct (decide (c = COMMA)) as [->|Hc2].
    { rewrite lines_ahead_other by done. ahead_step H rest. }
    assert (Hnt : IS_TERMINATOR c = false) by (by apply ch_eqb_false).
    assert (Hnd : IS_DELIMITER c = false) by (by apply ch_eqb_false).
    rewrite Hnt, Hnd in H. simpl in H.
    apply (start_record_byte_ahead skiprows c rest) in H; [|done].
    etrans; [exact H|]. cbn [file_lines set_state].
    rewrite (lines_ahead_same_tail EAT_CRNL_NOP START_RECORD c rest); [done|done|by left].
  - (* WHITESPACE_LINE *)
    destruct (decide (c = LF)) as [->|?]; [rewrite lines_ahead_LF; ahead_step H rest|].
    destruct (decide (c = CR)) as [->|?]; [rewrite lines_ahead_CR; ahead_step H rest|].
    assert (Hnt : IS_TERMINATOR c = false) by (by apply ch_eqb_false).
    assert (Hnc : IS_CARRIAGE c = false) by (by apply ch_eqb_false).
    rewrite Hnt, Hnc in H.
    destruct (isblank c).
    + rewrite (lines_ahead_other _ c) by done. ahead_step H rest.
    + apply (in_field_byte_ahead c rest) in H; [|done].
      etrans; [exact H|]. cbn [file_lines set_state].
      rewrite (lines_ahead_same_tail IN_FIELD WHITESPACE_LINE c rest); [done|done|by right].
  - (* START_FIELD_IN_SKIP_LINE *)
    char_class c; [ahead_step H rest..|]. rewrite Hnt, Hnc, Hnq, Hnd in H. ahead_step H rest.
  - (* IN_FIELD_IN_SKIP_LINE *)
    char_class c; [ahead_step H rest..|]. rewrite Hnt, Hnc, Hnd in H. ahead_step H rest.
  - (* IN_QUOTED_FIELD_IN_SKIP_LINE *)
    char_class c; [ahead_step H rest..|]. rewrite Hnq in H. ahead_step H rest.
  - (* QUOTE_IN_QUOTED_FIELD_IN_SKIP_LINE *)
    char_class c; [ahead_step H rest..|]. rewrite Hnt, Hnc, Hnq, Hnd in H. ahead_step H rest.
Qed.

Ltac counted_facts :=
  repeat match goal with
  | H : skip_this _ _ = false |- _ => apply Nat.ltb_ge in H
  | H : skip_this _ _ = true |- _ => apply Nat.ltb_lt in H
  | H : END_LINE _ = Ok _ |- _ => apply END_LINE_Ok in H as (? & ? & ?)
  | H : end_line _ = Ok _ |- _ => apply end_line_Ok in H as (? & ? & ?)
  | H : Ok _ = Ok _ |- _ => injection H as <-
  | H : Raise _ = Ok _ |- _ => discriminate H
  end.

Ltac counted_done :=
  counted_facts; unfold counted in *; simpl in *;
  repeat match goal with H : state _ = _ |- _ => rewrite H in * end;
  simpl in *;
  repeat match goal with H : true = true → _ |- _ => specialize (H eq_refl) end;
  split; [lia|intros; first [lia|done]].

Lemma start_field_byte_counted skiprows c p p' :
  state p = START_FIELD → counted skiprows p →
  start_field_byte c p = Ok p' → counted skiprows p'.
Proof.
  intros Hst Hc H. unfold start_field_byte in H.
  repeat match type of H with (if ?b then _ else _) = _ => destruct b end; counted_done.
Qed.

Lemma in_field_byte_counted skiprows c p p' :
  state p = IN_FIELD → counted skiprows p →
  in_field_byte c p = Ok p' → counted skiprows p'.
Proof.
  intros Hst Hc H. unfold in_field_byte in H.
  repeat match type of H with (if ?b then _ else _) = _ => destruct b end; counted_done.
Qed.

Lemma start_record_byte_counted skiprows c p p' :
  state p = START_RECORD → counted skiprows p →
  start_record_byte skiprows c p = Ok p' → counted skiprows p'.
Proof.
  intros Hst Hc H. unfold start_record_byte in H.
  destruct (skip_this skiprows (file_lines p)) eqn:Hskip.
  - repeat match type of H with (if ?b then _ else _) = _ => destruct b end; counted_done.
  - destruct (IS_TERMINATOR c); [counted_done|].
    destruct (IS_CARRIAGE c); [counted_done|].
    destruct (isblank c); [counted_done|].
    apply (start_field_byte_counted skiprows) in H; [done|done|].
    counted_done.
Qed.

Lemma tokenize_byte_counted skiprows c p p' :
  tokenize_byte skiprows p c = Ok p' → counted skiprows p → counted skiprows p'.
Proof.
  intros H Hc. unfold tokenize_byte in H.
  destruct (state p) eqn:Hst.
  - by apply (start_record_byte_counted skiprows c p).
  - by apply (start_field_byte_counted skiprows c p).
  - by apply (in_field_byte_counted skiprows c p).
  - repeat match type of H with (if ?b then _ else _) = _ => destruct b end; counted_done.
  - repeat match type of H with (if ?b then _ else _) = _ => destruct b end; counted_done.
  - (* EAT_CRNL *)
    destruct (IS_TERMINATOR c); [counted_done|].
    destruct (IS_DELIMITER c).
    + destruct (end_line p) as [q|] eqn:E; [|done]. simpl in H. counted_done.
    + destruct (END_LINE p) as [q|] eqn:E; [|done]. simpl in H.
      apply (start_record_byte_counted skiprows) in H; [done| |].
      * by apply END_LINE_Ok in E as (_ & ? & _).
      * clear H. counted_done.
  - (* EAT_CRNL_NOP *)
    destruct (_ || _); [counted_done|].
    apply (start_record_byte_counted skiprows) in H; [done|done|]. counted_done.
  - (* WHITESPACE_LINE *)
    destruct (IS_TERMINATOR c); [counted_done|].
    destruct (IS_CARRIAGE c); [counted_done|].
    destruct (isblank c); [counted_done|].
    apply (in_field_byte_counted skiprows) in H; [done|done|]. counted_done.
  - repeat match type of H with (if ?b then _ else _) = _ => destruct b end; counted_done.
  - repeat match type of H with (if ?b then _ else _) = _ => destruct b end; counted_done.
  - repeat match type of H with (if ?b then _ else _) = _ => destruct b end; counted_done.
  - repeat match type of H with (if ?b then _ else _) = _ => destruct b end; counted_done.
Qed.

Lemma tokenize_bytes_row_bound skiprows data : ∀ p p',
  tokenize_bytes skiprows p data = (p', None) →
  counted skiprows p →
  counted skiprows p'
  ∧ file_lines p' + lines_ahead (state p') "" ≤ file_lines p + lines_ahead (state p) data.
Proof.
  induction data as [|c data IH]; intros p p' H Hc.
  { simpl in H. by simplify_eq. }
  cbn [tokenize_bytes] in H.
  destruct (tokenize_byte skiprows p c) as [q|e] eqn:Hstep; [|done].
  destruct (IH q p' H) as [Hc' Hle]; [by eapply tokenize_byte_counted|].
  split; [done|]. etrans; [exact Hle|]. by eapply tokenize_byte_ahead.
Qed.

Lemma tokenize_all_rows_row_bound skiprows data p :
  tokenize_all_rows skiprows data = (p, None) →
  lines p ≠ [] →
  skiprows + length (lines p) ≤ line_count data.
Proof.
  unfold tokenize_all_rows.
  destruct (tokenize_bytes skiprows parser_init data) as [q [e|]] eqn:Hrun; [done|].
  apply tokenize_bytes_row_bound in Hrun as [[Hc1 Hc2] Hle].
  2:{ split; [by left|done]. }
  assert (lines_ahead START_RECORD data = line_count data) as Hinit.
  { unfold lines_ahead, line_count, tail_at. simpl. by destruct data. }
  cbn [state file_lines parser_init] in Hle. rewrite Hinit in Hle.
  unfold lines_ahead in Hle. simpl in Hle.
  unfold parser_handle_eof.
  destruct (state q) eqn:Hst; simpl in *;
    try (intros [= <-] Hne; destruct Hc1 as [H0|H1]; [by destruct (lines q)|lia]);
    try done.
  all: try (destruct (end_line _) as [q'|] eqn:E; [|done];
            apply end_line_Ok in E as (Hfl & Hs & Hlen); simpl in *;
            intros [= <-] Hne; rewrite ?Hst in Hlen; simpl in Hlen;
            destruct Hc1 as [H0|H1]; [|lia]).
  all: try (specialize (Hc2 eq_refl); lia).
  all: exfalso; apply Hne; destruct (lines q'); [done|simpl in *; lia].
Qed.

(** *** Paths *)

Lemma slash_free_cons c (name : string) :
  slash_free (String c name) = true → ch_eqb c SLASH = false ∧ slash_free name = true.
Proof.
  unfold slash_free. simpl. intros [Hc Hn]%andb_true_iff.
  by apply negb_true_iff in Hc.
Qed.

Lemma rsplit_slash_free (name : string) :
  slash_free name = true → rsplit_slash name = ("", name).
Proof.
  induction name as [|c name IH]; [done|].
  intros [Hc Hn]%slash_free_cons. simpl. rewrite IH by done. simpl. by rewrite Hc.
Qed.

Lemma rsplit_slash_app (a name : string) :
  ends_with_slash a = true → slash_free name = true →
  rsplit_slash (a +:+ name) = (a, name).
Proof.
  intros Ha Hn. induction a as [|c a IH]; [done|].
  rewrite string_app_cons. cbn [rsplit_slash].
  destruct a as [|c2 a].
  - simpl in Ha. change ("" +:+ name) with name. rewrite rsplit_slash_free by done.
    simpl. by rewrite Ha.
  - rewrite IH by done. by rewrite decide_False.
Qed.

Lemma ends_with_slash_snoc (a : string) : ends_with_slash (a +:+ "/") = true.
Proof.
  induction a as [|c a IH]; [done|]. rewrite string_app_cons.
  cbn [ends_with_slash]. destruct (a +:+ "/") eqn:E; [by destruct a|done].
Qed.

Lemma rstrip_slash_snoc (a : string) : rstrip_slash (a +:+ "/") = rstrip_slash a.
Proof.
  induction a as [|c a IH]; [done|]. rewrite string_app_cons.
  cbn [rstrip_slash]. by rewrite IH.
Qed.

Lemma all_slashes_ends (a : string) :
  all_slashes a = true → a = "" ∨ ends_with_slash a = true.
Proof.
  induction a as [|c a IH]; [by left|]. simpl. intros [Hc Ha]%andb_true_iff. right.
  destruct a as [|c2 a]; [done|]. by destruct (IH Ha).
Qed.

Lemma all_slashes_snoc (a : string) : all_slashes (a +:+ "/") = all_slashes a.
Proof.
  induction a as [|c a IH]; [done|]. rewrite string_app_cons. simpl. by rewrite IH.
Qed.

Lemma os_path_join_slash_free (d name : string) :
  slash_free name = true →
  os_path_join d name
  = if decide (d = "") then name
    else if ends_with_slash d then d +:+ name else d +:+ "/" +:+ name.
Proof.
  intros Hn. unfold os_path_join. destruct name as [|c name]; [done|].
  apply slash_free_cons in Hn as [-> _]. done.
Qed.

Lemma os_path_split_join_eq (d name : string) :
  slash_free name = true →
  os_path_split (os_path_join d name)
  = (if all_slashes d then d else rstrip_slash d, name).
Proof.
  intros Hn. rewrite os_path_join_slash_free by done. unfold os_path_split.
  destruct (decide (d = "")) as [->|Hd].
  { by rewrite rsplit_slash_free. }
  destruct (ends_with_slash d) eqn:He.
  - rewrite rsplit_slash_app by done.
    rewrite bool_decide_eq_false_2 by done. simpl. by destruct (all_slashes d).
  - rewrite <-string_app_assoc.
    rewrite rsplit_slash_app by (done || apply ends_with_slash_snoc).
    rewrite bool_decide_eq_false_2 by (by destruct d).
    rewrite all_slashes_snoc, rstrip_slash_snoc.
    destruct (all_slashes d) eqn:Ha; [|done].
    apply all_slashes_ends in Ha as [?|Ha]; [done|congruence].
Qed.

Lemma find_entry_Some (name : string) (entries : list dirent) :
  name ∈ entries.*1 ↔ is_Some (find_entry name entries).
Proof.
  induction entries as [|[n i] entries IH]; simpl.
  - split; [by intros ?%elem_of_nil|by intros [? ?]].
  - rewrite elem_of_cons. case_decide as Hn; [subst; split; eauto|].
    rewrite <-IH. split; [by intros [?|?]|auto].
Qed.

(** The entry of the data folder a path names, if it names one. *)
Lemma read_bytes_entry (fs : filesystem) (name : string) :
  slash_free name = true →
  read_bytes fs ("./data/raw_data/" +:+ name)
  = match fs !! "./data/raw_data" with
    | None => Raise (FileNotFoundError ("./data/raw_data/" +:+ name))
    | Some entries =>
        match find_entry name entries with
        | Some i => open_entry ("./data/raw_data/" +:+ name) i
        | None => Raise (FileNotFoundError ("./data/raw_data/" +:+ name))
        end
    end.
Proof.
  intros Hn. unfold read_bytes.
  assert (os_path_split ("./data/raw_data/" +:+ name) = ("./data/raw_data", name)) as ->; [|done].
  pose proof (os_path_split_join_eq "./data/raw_data" name Hn) as H.
  by rewrite os_path_join_slash_free in H.
Qed.

Lemma elem_of_csv_files (fs : filesystem) (path : string) :
  path ∈ csv_files fs ↔
  ∃ name, path = os_path_join "./data/raw_data" name
          ∧ is_csv_name name = true ∧ name ∈ iterdir fs "./data/raw_data".
Proof.
  rewrite csv_files_eq, list_elem_of_fmap. split.
  - intros (name & -> & [? ?]%list_elem_of_filter). eauto.
  - intros (name & -> & ? & ?). exists name. split; [done|].
    by apply list_elem_of_filter.
Qed.

Lemma elem_of_iterdir (fs : filesystem) (name : string) :
  name ∈ iterdir fs "./data/raw_data" ↔
  ∃ entries, fs !! "./data/raw_data" = Some entries ∧ is_Some (find_entry name entries).
Proof.
  unfold iterdir. destruct (fs !! "./data/raw_data") as [entries|].
  - rewrite find_entry_Some. split; [eauto|]. by intros (? & [= <-] & ?).
  - split; [by intros ?%elem_of_nil|]. by intros (? & ? & _).
Qed.

Lemma data_folder_join_inj : Inj (=) (=) (os_path_join "./data/raw_data").
Proof.
  intros b1 b2 H. unfold os_path_join in H.
  change (ends_with_slash "./data/raw_data") with false in H.
  destruct b1 as [|c1 b1], b2 as [|c2 b2]; simpl in H;
    repeat match type of H with
    | context [ch_eqb ?c SLASH] =>
        let E := fresh "E" in destruct (ch_eqb c SLASH) eqn:E;
        [apply ch_eqb_true in E; subst c|]
    end; by simplify_eq.
Qed.

Lemma sum_list_elem (x : nat) (l : list nat) : x ∈ l → x ≤ sum_list l.
Proof.
  induction l as [|y l IH]; [by intros ?%elem_of_nil|].
  intros [->|Hx]%elem_of_cons; simpl; [lia|]. specialize (IH Hx). lia.
Qed.

(** A file of [csv_files] that the reader reads has its rows in [full_df]. *)
Lemma build_holds_file (fs : filesystem) (path : string) (df0 : DataFrame) :
  path ∈ csv_files fs → pd_read_csv fs path 8 = Ok df0 →
  ∃ ds, (build fs).1 = Ok ds ∧ nrows df0 ≤ nrows ds.
Proof.
  intros Hin Hread.
  assert (Hp : (path, setitem df0 "file_name" (Text path)) ∈ parsed fs (csv_files fs)).
  { apply elem_of_parsed. split; [done|]. apply add_file_name_Ok. eauto. }
  destruct (build_is_ok fs) as [ds Hds].
  { intros Hnil. rewrite Hnil in Hp. by apply elem_of_nil in Hp. }
  exists ds. split; [done|].
  rewrite build_unfold in Hds. simpl in Hds.
  rewrite (pd_concat_nrows _ _ Hds), <-(setitem_nrows df0 "file_name" (Text path)).
  apply sum_list_elem, list_elem_of_fmap. eexists. split; [done|].
  apply list_elem_of_fmap. by exists (path, setitem df0 "file_name" (Text path)).
Qed.

(** *** The columns and the rows of the concatenation *)

Lemma union_fold_prefix (objs : list DataFrame) : ∀ acc,
  acc `prefix_of`
    foldl (λ acc df, acc ++ filter (λ c, c ∉ acc) (columns df)) acc objs.
Proof.
  induction objs as [|d objs IH]; intros acc; [done|]. simpl.
  etrans; [|apply IH]. by apply prefix_app_r.
Qed.

Lemma union_fold_NoDup (objs : list DataFrame) : ∀ acc,
  NoDup acc → Forall (λ df, NoDup (columns df)) objs →
  NoDup (foldl (λ acc df, acc ++ filter (λ c, c ∉ acc) (columns df)) acc objs).
Proof.
  induction objs as [|d objs IH]; intros acc Hacc Hall; [done|].
  apply Forall_cons in Hall as [Hd Hall]. simpl. apply IH; [|done].
  apply NoDup_app. split; [done|]. split; [|by apply NoDup_filter].
  by intros c Hc [? _]%list_elem_of_filter.
Qed.

Lemma union_fold_elem (objs : list DataFrame) (c : string) : ∀ acc,
  c ∈ foldl (λ acc df, acc ++ filter (λ c, c ∉ acc) (columns df)) acc objs →
  c ∈ acc ∨ ∃ df, df ∈ objs ∧ c ∈ columns df.
Proof.
  induction objs as [|d objs IH]; intros acc Hc; [by left|]. simpl in Hc.
  apply IH in Hc as [Hc|(df & Hdf & Hc)].
  - apply elem_of_app in Hc as [Hc|[_ Hc]%list_elem_of_filter]; [by left|right].
    exists d. split; [left|done].
  - right. exists df. split; [by right|done].
Qed.

Lemma filter_not_in_nil (l : list string) : filter (λ c, c ∉ []) l = l.
Proof.
  induction l as [|x l IH]; [done|].
  rewrite filter_cons_True by (by intros ?%elem_of_nil). by rewrite IH.
Qed.

Lemma same_columns_all (first : DataFrame) (objs : list DataFrame) df :
  same_columns (first :: objs) = true → df ∈ first :: objs → columns df = columns first.
Proof.
  unfold same_columns. intros Hall%forallb_Forall Hdf.
  rewrite Forall_forall in Hall. specialize (Hall df Hdf).
  by apply bool_decide_eq_true in Hall.
Qed.

Lemma pd_concat_columns_spec (objs : list DataFrame) ds :
  pd_concat objs = Ok ds →
  Forall (λ df, NoDup (columns df)) objs →
  NoDup (columns ds)
  ∧ (∀ c, c ∈ columns ds ↔ ∃ df, df ∈ objs ∧ c ∈ columns df)
  ∧ (∀ first rest, objs = first :: rest → columns first `prefix_of` columns ds).
Proof.
  intros Hds Hall. split; [|split].
  - unfold pd_concat in Hds. destruct objs as [|first objs]; [done|].
    destruct (same_columns _).
    + simplify_eq/=. by apply Forall_cons in Hall as [? _].
    + destruct (forallb _ _); [|done]. simplify_eq/=.
      apply (union_fold_NoDup (first :: objs) []); [constructor|done].
  - intros c. split; [|intros (df & Hdf & Hc); by eapply pd_concat_columns].
    unfold pd_concat in Hds. destruct objs as [|first objs]; [done|].
    destruct (same_columns _).
    + simplify_eq/=. intros Hc. exists first. split; [left|done].
    + destruct (forallb _ _); [|done]. simplify_eq/=.
      intros [?%elem_of_nil|?]%(union_fold_elem (first :: objs) c []); done.
  - intros first rest ->. unfold pd_concat in Hds.
    destruct (same_columns _).
    + by simplify_eq/=.
    + destruct (forallb _ _); [|done]. simplify_eq/=.
      unfold union_columns. simpl. rewrite filter_not_in_nil. apply union_fold_prefix.
Qed.

Lemma length_reindex_cells target cols cells :
  length (reindex_cells target cols cells) = length target.
Proof. unfold reindex_cells. apply length_fmap. Qed.

Lemma align_fit cols df :
  rows_fit df → Forall (λ cells, length cells = length cols) (align cols df).
Proof.
  intros Hfit. unfold align. case_decide as Heq.
  - subst cols. apply Forall_fmap. eapply Forall_impl; [exact Hfit|]. done.
  - apply Forall_fmap, Forall_forall. intros r _. apply length_reindex_cells.
Qed.

Lemma pd_concat_rows_fit (objs : list DataFrame) ds :
  pd_concat objs = Ok ds → Forall rows_fit objs → rows_fit ds.
Proof.
  intros Hds Hall. unfold rows_fit. rewrite (pd_concat_rows _ _ Hds).
  unfold renumber. apply Forall_forall. intros r (i & Hr)%list_elem_of_lookup.
  apply list_lookup_imap_Some in Hr as (cells & Hc & ->). simpl.
  apply list_elem_of_lookup_2, list_elem_of_bind in Hc as (df & Hcells & Hdf).
  rewrite Forall_forall in Hall. specialize (Hall df Hdf).
  pose proof (align_fit (columns ds) df Hall) as Hfit.
  rewrite Forall_forall in Hfit. by apply Hfit.
Qed.

Lemma parsed_rows_fit fs files : Forall rows_fit (parsed fs files).*2.
Proof.
  apply Forall_forall. intros df ([file df'] & -> & Hin)%list_elem_of_fmap.
  apply elem_of_parsed in Hin as [_ Hadd]. by apply add_file_name_sound in Hadd as (_ & ? & _).
Qed.

Lemma get_named_None key cols cells : key ∉ cols → get_named key cols cells = None.
Proof.
  revert cells. induction cols as [|c cols IH]; intros cells Hk; [done|].
  destruct cells as [|x cells]; [done|]. simpl.
  rewrite decide_False by (intros ->; apply Hk; left).
  apply IH. intros ?. apply Hk. by right.
Qed.

(** Every value of a row is found under its name once the row is
    brought to the columns of the result. *)
Lemma align_lookup cols df i r :
  rows df !! i = Some r →
  ∃ cells, align cols df !! i = Some cells
    ∧ (rows_fit df → ∀ key, key ∈ cols → key ∈ columns df →
         get_named key cols cells = get_named key (columns df) (r_cells r))
    ∧ (∀ key, key ∈ cols → key ∉ columns df → get_named key cols cells = Some NaN).
Proof.
  intros Hr. unfold align. case_decide as Heq.
  - exists (r_cells r). rewrite list_lookup_fmap, Hr. split; [done|]. subst cols.
    split; [done|]. by intros key ? ?.
  - exists (reindex_cells cols (columns df) (r_cells r)).
    rewrite list_lookup_fmap, Hr. split; [done|]. split.
    + intros Hfit key Hk Hkd. rewrite get_named_reindex by done.
      eapply Forall_lookup_1 in Hfit; [|done].
      by destruct (get_named_is_Some key (columns df) (r_cells r) Hkd Hfit) as [x ->].
    + intros key Hk Hkd. rewrite get_named_reindex by done.
      by rewrite get_named_None.
Qed.


Lemma setitem_lookup df key v i r0 :
  rows_fit df → rows df !! i = Some r0 →
  ∃ r1, rows (setitem df key v) !! i = Some r1
    ∧ r_label r1 = r_label r0
    ∧ get_named key (columns (setitem df key v)) (r_cells r1) = Some v
    ∧ ∀ c, c ∈ columns df → c ≠ key →
        get_named c (columns (setitem df key v)) (r_cells r1)
        = get_named c (columns df) (r_cells r0).
Proof.
  intros Hfit Hr. eapply Forall_lookup_1 in Hfit; [|done].
  unfold setitem. case_bool_decide as Hin; simpl; rewrite list_lookup_fmap, Hr; simpl;
    eexists; (split; [done|]); simpl; (split; [done|]).
  - split; [by apply get_named_set_named|].
    intros c _ Hc. by apply get_named_set_named_ne.
  - split; [by apply get_named_snoc_new|].
    intros c Hc _. by apply get_named_snoc_old.
Qed.



Lemma setitem_columns_incl df key v c : c ∈ columns df → c ∈ columns (setitem df key v).
Proof.
  unfold setitem. case_bool_decide; simpl; [done|]. intros ?. apply elem_of_app. by left.
Qed.

(** *** Strings *)

Lemma string_length_app (s t : string) :
  String.length (s +:+ t) = String.length s + String.length t.
Proof. induction s as [|c s IH]; [done|]. rewrite string_app_cons. simpl. by rewrite IH. Qed.

Lemma string_app_inj_r (s1 s2 t : string) : s1 +:+ t = s2 +:+ t → s1 = s2.
Proof.
  intros H. assert (Hlen : String.length s1 = String.length s2).
  { apply (f_equal String.length) in H. rewrite !string_length_app in H. lia. }
  revert s2 H Hlen. induction s1 as [|c1 s1 IH]; intros [|c2 s2] H Hlen; try done.
  rewrite !string_app_cons in H. injection H as -> H. f_equal. apply IH; [done|].
  simpl in Hlen. lia.
Qed.

Lemma found_line_zero (files : list string) :
  found_line files = "Found 0 CSV files" ↔ files = [].
Proof.
  split; [|by intros ->]. unfold found_line. intros H.
  change "Found 0 CSV files" with ("Found " +:+ (pretty 0 +:+ " CSV files")) in H.
  apply (inj (String.app "Found ")) in H. apply string_app_inj_r in H.
  apply (inj pretty) in H. by destruct files.
Qed.


(** *** The loop over a list of files in two parts *)

Lemma parsed_app fs (l1 l2 : list string) :
  parsed fs (l1 ++ l2) = parsed fs l1 ++ parsed fs l2.
Proof. apply omap_app. Qed.

Lemma failed_app fs (l1 l2 : list string) :
  failed fs (l1 ++ l2) = failed fs l1 ++ failed fs l2.
Proof. apply omap_app. Qed.

(** *** The skipped lines and what follows them *)



Lemma tokenize_in_quoted skiprows (s : string) : ∀ fl ls ws sm,
  string_forall (λ c, negb (IS_QUOTE c)) s = true →
  tokenize_bytes skiprows (mk_parser IN_QUOTED_FIELD fl ls ws sm) s
  = (mk_parser IN_QUOTED_FIELD fl ls ws (sm +:+ s), None).
Proof.
  induction s as [|c s IH]; intros fl ls ws sm Hs.
  { by rewrite string_app_nil_r. }
  simpl in Hs. apply andb_true_iff in Hs as [Hc Hs]. apply negb_true_iff in Hc.
  cbn [tokenize_bytes]. unfold tokenize_byte. simpl. rewrite Hc. psimpl.
  rewrite IH by done. by rewrite string_app_snoc.
Qed.


(** * The properties of the specification *)

Lemma parsed_row_counts fs files :
  nrows <$> (parsed fs files).*2 = omap (parse_row_count fs) files.
Proof.
  induction files as [|file files IH]; [done|].
  rewrite parsed_cons, !fmap_app, IH. cbn [omap list_omap].
  unfold parsed at 1, parse_row_count at 2, add_file_name. simpl.
  destruct (pd_read_csv fs file 8) as [df0|e]; simpl; [|done].
  by rewrite setitem_nrows.
Qed.

(** C1. Whenever the run yields the table [full_df], its number of rows
    is the sum of the numbers of rows that [pd.read_csv] made of the
    files of [csv_files] that it read without raising; the run only
    fails to yield the table when not a single file could be read. *)
Theorem build_row_count (fs : filesystem) :
  match (build fs).1 with
  | Ok ds => nrows ds = sum_list (omap (parse_row_count fs) (csv_files fs))
  | Raise _ => omap (parse_row_count fs) (csv_files fs) = []
  end.
Proof.
  destruct (build fs).1 as [ds|e] eqn:Hb.
  - rewrite build_unfold in Hb. simpl in Hb.
    by rewrite (pd_concat_nrows _ _ Hb), parsed_row_counts.
  - apply build_raises in Hb as [Hnil _].
    by rewrite <-parsed_row_counts, Hnil.
Qed.

Lemma build_two_files fs A B dfA e :
  csv_files fs ≡ₚ [A; B] →
  add_file_name fs A = Ok dfA → add_file_name fs B = Raise e →
  build fs = (pd_concat [dfA], [Failed_to_read B e]).
Proof.
  intros Hperm HA HB. rewrite build_unfold.
  assert (csv_files fs = [A; B] ∨ csv_files fs = [B; A]) as [-> | ->].
  { destruct (csv_files fs) as [|x [|y [|z l]]];
      try (by apply Permutation_length in Hperm).
    apply Permutation_length_2 in Hperm as [[-> ->]|[-> ->]]; auto. }
  - unfold parsed, failed. simpl. by rewrite HA, HB.
  - unfold parsed, failed. simpl. by rewrite HA, HB.
Qed.

(** C2, as the claim states it, fails twice.  In a folder where no
    file can be read the line about the file is printed, but the run
    then stops with the [ValueError] of [pd.concat] and yields no
    table.  And beside the file of 24 rows, a file that does not have
    the layout of the data files (three columns on its ninth line) is
    read without an exception: the table has its 2 rows too, 26 in all,
    and no line is printed. *)
Lemma build_all_failed_raises :
  (csv_files fs_only_B = [path_B]
   ∧ build fs_only_B
     = (Raise (ValueError "No objects to concatenate"),
        [Failed_to_read path_B EmptyDataError]))
  ∧ (csv_files fs_A_three_columns = [path_A; path_B]
     ∧ nrows <$> add_file_name fs_A_three_columns path_A = Ok 24
     ∧ columns_of_line 9 file_three_columns = Some 3
     ∧ nrows <$> (build fs_A_three_columns).1 = Ok 26
     ∧ (build fs_A_three_columns).2 = []).
Proof. by vm_compute. Qed.

(** C2, amended.  The loop catches the exception of every file at the
    file, goes on with the files that remain and prints one line, with
    the file and the exception, for every file whose read raised: each
    file of [csv_files] is either in the table or in the printed lines.
    The table is yielded along with these lines when at least one file
    was read.  With a file [A] of 24 rows and a file [B] whose read
    raises, the run yields a table of 24 rows and the single line about
    [B]. *)
Theorem build_diagnostics (fs : filesystem) :
  (build fs).2 = (λ fe, Failed_to_read fe.1 fe.2) <$> failed fs (csv_files fs)
  ∧ (∀ file e, (file, e) ∈ failed fs (csv_files fs)
       ↔ file ∈ csv_files fs ∧ add_file_name fs file = Raise e)
  ∧ length (parsed fs (csv_files fs)) + length (build fs).2 = length (csv_files fs)
  ∧ (parsed fs (csv_files fs) ≠ [] → ∃ ds, (build fs).1 = Ok ds)
  ∧ (∀ A B dfA e,
       csv_files fs ≡ₚ [A; B] →
       add_file_name fs A = Ok dfA → nrows dfA = 24 →
       add_file_name fs B = Raise e →
       ∃ ds, build fs = (Ok ds, [Failed_to_read B e]) ∧ nrows ds = 24).
Proof.
  split; [by rewrite build_unfold|].
  split; [intros file e; apply elem_of_failed|].
  split.
  { rewrite build_unfold. simpl. rewrite length_fmap. apply parsed_failed_length. }
  split; [apply build_is_ok|].
  intros A B dfA e Hperm HA Hrows HB.
  rewrite (build_two_files fs A B dfA e Hperm HA HB).
  destruct (pd_concat_is_ok [dfA]) as [ds Hds]; [done| |].
  { apply Forall_singleton. by apply add_file_name_sound in HA as [? _]. }
  exists ds. rewrite Hds. split; [done|].
  rewrite (pd_concat_nrows _ _ Hds). simpl. lia.
Qed.

Lemma build_diagnostics_witness :
  ∃ ds, build fs_AB = (Ok ds, [Failed_to_read path_B EmptyDataError]) ∧ nrows ds = 24.
Proof.
  eapply (proj2 (proj2 (proj2 (proj2 (build_diagnostics fs_AB)))) path_A path_B).
  - vm_compute. reflexivity.
  - vm_compute. reflexivity.
  - vm_compute. reflexivity.
  - vm_compute. reflexivity.
Defined.

(** C3, as the claim states it, fails: a file whose ninth line has
    three columns is read without an exception. *)
Lemma parse_accepts_three_columns :
  columns_of_line 9 file_three_columns = Some 3
  ∧ read_bytes fs_three_columns path_A = Ok file_three_columns
  ∧ is_ok (add_file_name fs_three_columns path_A) = true.
Proof. by vm_compute. Qed.

(** C3, amended.  [add_file_name] raises for every file of at most 8
    lines, and the exception is pandas' [EmptyDataError], as it is, when
    the bytes of the file are text; it does not raise for a file of 8
    metadata lines, a header row and data rows that have as many fields
    as the header, whatever that number is: the number of columns of
    the ninth line is not checked. *)
Theorem parse_failure_cases (fs : filesystem) (path data : string) :
  read_bytes fs path = Ok data →
  (line_count data ≤ 8 →
     ∃ e, add_file_name fs path = Raise e
          ∧ (utf8_valid data = true → e = EmptyDataError))
  ∧ (∀ nl meta header rows,
       well_formed 8 meta header rows = true → data = render_file nl meta header rows →
       is_ok (add_file_name fs path) = true).
Proof.
  intros Hread. split.
  - intros Hlc. eexists. split.
    + apply add_file_name_Raise. unfold pd_read_csv. rewrite Hread.
      by apply read_csv_few_lines.
    + by intros ->.
  - intros nl meta header rows Hwf ->. unfold add_file_name, pd_read_csv.
    rewrite Hread. simpl. by rewrite read_csv_well_formed.
Qed.

Lemma parse_failure_cases_witness :
  (∃ e, add_file_name fs_AB path_B = Raise e
        ∧ (utf8_valid file_B = true → e = EmptyDataError))
  ∧ is_ok (add_file_name fs_AB path_A) = true.
Proof.
  split.
  - apply (proj1 (parse_failure_cases fs_AB path_B file_B eq_refl)).
    vm_compute. lia.
  - apply (proj2 (parse_failure_cases fs_AB path_A file_A eq_refl)
             NL_CRLF META HEADER (hour_row <$> seq 1 24)); reflexivity.
Defined.







(** C6, as the claim states it, fails: with no file in the folder the
    run stops with the [ValueError] of [pd.concat]. *)
Lemma build_empty_folder_raises :
  discover fs_empty_folder = Ok []
  ∧ build fs_empty_folder = (Raise (ValueError "No objects to concatenate"), []).
Proof. by vm_compute. Qed.

(** C6, amended.  The run yields the table exactly when at least one
    file was read; when none was, and so when no file was found, it
    stops with [ValueError: No objects to concatenate]. *)
Theorem build_succeeds_iff (fs : filesystem) :
  (is_ok (build fs).1 = true ↔ parsed fs (csv_files fs) ≠ [])
  ∧ ((build fs).1 = Raise (ValueError "No objects to concatenate")
       ↔ parsed fs (csv_files fs) = [])
  ∧ (csv_files fs = [] →
       build fs = (Raise (ValueError "No objects to concatenate"), [])).
Proof.
  split; [|split].
  - split.
    + intros Hok Hnil. rewrite build_unfold, Hnil in Hok. done.
    + intros [ds ->]%build_is_ok. done.
  - split.
    + by intros [? _]%build_raises.
    + intros Hnil. rewrite build_unfold, Hnil. done.
  - intros Hnil. rewrite build_unfold, Hnil. done.
Qed.

Lemma build_succeeds_iff_witness :
  is_ok (build fs_AB).1 = true
  ∧ build fs_empty_folder = (Raise (ValueError "No objects to concatenate"), []).
Proof.
  split.
  - apply (proj1 (build_succeeds_iff fs_AB)). by vm_compute.
  - apply (proj2 (proj2 (build_succeeds_iff fs_empty_folder))). reflexivity.
Defined.

(** C7, as the claim states it, fails: when the folder does not exist
    the listing is empty and nothing is raised. *)
Lemma discover_missing_folder :
  (∅ : filesystem) !! "./data/raw_data" = None ∧ discover ∅ = Ok [].
Proof. by vm_compute. Qed.

(** C7, amended.  [discover] never raises.  It yields, in the order of
    the listing of the folder and each joined to the folder's path, the
    names of the entries of the folder itself (files or directories)
    that end in [.csv] and do not begin with a dot; it yields nothing
    when no name is such, and nothing when the folder does not exist. *)
Theorem discover_spec (fs : filesystem) :
  discover fs
    = Ok (os_path_join "./data/raw_data" <$>
            filter (λ name, is_csv_name name = true) (iterdir fs "./data/raw_data"))
  ∧ (∀ name, is_csv_name name = true
       ↔ ishidden name = false ∧ ∃ stem, name = stem +:+ ".csv")
  ∧ (fs !! "./data/raw_data" = None → discover fs = Ok [])
  ∧ (∀ entries, fs !! "./data/raw_data" = Some entries →
       Forall (λ name, is_csv_name name = false) entries.*1 → discover fs = Ok []).
Proof.
  assert (Heq := csv_files_eq fs). unfold discover. rewrite Heq.
  split; [done|]. split; [|split].
  - intros name. unfold is_csv_name.
    by rewrite andb_true_iff, negb_true_iff, has_suffix_spec.
  - intros Hnone. unfold iterdir. by rewrite Hnone.
  - intros entries Hsome Hall. unfold iterdir. rewrite Hsome.
    do 2 f_equal. induction Hall as [|name names Hname _ IH]; [done|].
    rewrite filter_cons_False; [done|]. by rewrite Hname.
Qed.

Lemma discover_spec_witness :
  discover fs_five_files
  = Ok ["./data/raw_data/d1.csv"; "./data/raw_data/d2.csv"; "./data/raw_data/d3.csv"]
  ∧ discover ∅ = Ok [].
Proof.
  split.
  - rewrite (proj1 (discover_spec fs_five_files)). reflexivity.
  - apply (proj1 (proj2 (proj2 (discover_spec ∅)))). reflexivity.
Defined.



(** C9. [normalize] applied twice gives what it gives applied once. *)
Theorem normalize_idempotent (d : DataFrame) : normalize (normalize d) = normalize d.
Proof. apply normalize_idemp. Qed.

(** C10.  The code breaks the claim, and with it the comment of
    [add_file_name] (it "adds a coulumn with the file name"): for a
    file that has a column called [file_name] no column is added, and
    the values read under that column are lost, replaced by the
    path. *)
Lemma add_file_name_overwrites_column :
  pd_read_csv fs_with_file_name path_A 8
    = Ok {| columns := ["Hora"; "file_name"];
            rows := [mk_row (Pos 0) [Text "1"; Text "enero.csv"]] |}
  ∧ add_file_name fs_with_file_name path_A
    = Ok {| columns := ["Hora"; "file_name"];
            rows := [mk_row (Pos 0) [Text "1"; Text path_A]] |}.
Proof. by vm_compute. Qed.

(** * Further properties of the code *)

(** ** The reader, [pd.read_csv(path, skiprows=8)]

    The model tokenizes the text of a file in one pass.  pandas reads
    the rows in chunks of [buffer_lines] rows (the largest power of 2
    below [2^20 / width], 65536 rows for a table of 8 columns) and
    forgets the rows of a chunk before it reads the next one; the
    statements below on rows that are shorter or longer than the
    header row are stated for a file with fewer rows than one chunk
    ([one_chunk]), as the files of 24 hours are. *)

(** X1. Every table that the reader yields is well shaped: its columns
    have names that are not empty and differ from each other, every row
    has one value for each column, and the rows are either numbered from
    0 in their order or all labelled by their leading fields. *)
Theorem pd_read_csv_table_shape (fs : filesystem) (path : string) (df : DataFrame) :
  pd_read_csv fs path 8 = Ok df →
  NoDup (columns df)
  ∧ ("" ∉ columns df)
  ∧ rows_fit df
  ∧ ((∀ i r, rows df !! i = Some r → r_label r = Pos i)
     ∨ (∀ r, r ∈ rows df → ∃ k, r_label r = Key k)).
Proof.
  intros (data & _ & Hread)%pd_read_csv_Ok.
  split; [by eapply read_csv_bytes_columns_NoDup|].
  split; [|split; [by eapply read_csv_bytes_rows_fit|by eapply read_csv_bytes_labels]].
  apply read_csv_bytes_Ok in Hread as (p & header & data_lines & _ & _ & ->).
  apply column_names_nonempty.
Qed.

Lemma pd_read_csv_table_shape_witness :
  ∃ df, pd_read_csv fs_AB path_A 8 = Ok df
    ∧ NoDup (columns df) ∧ ("" ∉ columns df) ∧ rows_fit df.
Proof.
  assert (∃ df, pd_read_csv fs_AB path_A 8 = Ok df) as [df Hdf].
  { eexists. vm_compute. reflexivity. }
  exists df. split; [exact Hdf|].
  destruct (pd_read_csv_table_shape fs_AB path_A df Hdf) as (H1 & H2 & H3 & _).
  auto.
Defined.





(** X4. A row with more fields than the rows before it stops the read:
    when a file of the expected layout with at least one data row, and
    with fewer data rows than one chunk of the reader, is followed by a
    row that is longer than the header, the reader raises
    [ParserError], "Expected .. fields in line .., saw ..", with the
    width of the header, the number of the line in the file and the
    number of fields of the row, whatever follows that row. *)
Theorem read_csv_long_row (nl : newline) (meta header : list string)
    (data : list (list string)) (long : list string) (rest : string) :
  well_formed 8 meta header data = true →
  data ≠ [] →
  one_chunk (length header) (S (length data)) →
  plain_fields long = true →
  length header < length long →
  utf8_valid rest = true →
  read_csv_bytes 8 (render_file nl meta header data +:+ (csv_line nl long +:+ rest))
  = Raise (ParserError_fields (length header) (10 + length data) (length long)).
Proof.
  intros Hwf Hne _ Hlong Hlen Hrest. unfold read_csv_bytes.
  rewrite read_text_valid.
  2:{ apply utf8_valid_app; [by eapply utf8_valid_render_file|].
      apply utf8_valid_app; [|done].
      apply plain_fields_inv in Hlong as (_ & Hv & _).
      by apply utf8_valid_text_line, utf8_valid_str_join. }
  cbn [mbind result_bind]. unfold tokenize_all_rows.
  rewrite tokenize_bytes_app, tokenize_bytes_well_formed by done.
  destruct (tokenize_plain_row 8 nl long (8 + 1 + length data) (header :: data) rest)
    as (q & ->); [lia|done|].
  destruct (exists_last Hne) as (init & x & ->).
  apply well_formed_inv in Hwf as (_ & _ & _ & _ & Hdata).
  rewrite forallb_app in Hdata. cbn [forallb] in Hdata.
  apply andb_true_iff in Hdata as [_ [(Hx & _)%plain_row_inv _]%andb_true_iff].
  rewrite (end_line_too_long _ _ x).
  - rewrite Hx. do 2 f_equal.
  - simpl. rewrite length_app. simpl. lia.
  - by rewrite app_comm_cons, last_snoc.
  - lia.
Qed.

Lemma read_csv_long_row_witness :
  read_csv_bytes 8 file_long_row = Raise (ParserError_fields 3 11 4).
Proof.
  refine (eq_trans _ (read_csv_long_row NL_LF META ["a"; "b"; "c"] [["1"; "2"; "3"]]
            ["4"; "5"; "6"; "7"] "" _ _ _ _ _ _)).
  - vm_compute. reflexivity.
  - reflexivity.
  - discriminate.
  - reflexivity.
  - reflexivity.
  - simpl. lia.
  - reflexivity.
Defined.





(** X7. A double quote at the start of one of the 8 skipped lines
    opens a quoted field of that line: when no other double quote
    follows, all the rest of the file belongs to the skipped line and
    the read raises [EmptyDataError], however many lines follow. *)
Theorem read_csv_quote_in_skipped_line (nl : newline) (meta : list string) (rest : string) :
  length meta < 8 →
  forallb (string_forall meta_char) meta = true →
  string_forall (λ c, negb (IS_QUOTE c)) rest = true →
  utf8_valid (concat_lines (text_line nl <$> meta) +:+ String QUOTE rest) = true →
  read_csv_bytes 8 (concat_lines (text_line nl <$> meta) +:+ String QUOTE rest)
  = Raise EmptyDataError.
Proof.
  intros Hlen Hmeta Hrest Hutf. unfold read_csv_bytes.
  rewrite read_text_valid by done. cbn [mbind result_bind].
  unfold tokenize_all_rows, parser_init.
  rewrite tokenize_bytes_app, tokenize_meta_lines by (done || lia).
  cbn [tokenize_bytes]. unfold tokenize_byte, start_record_byte. cbn [state file_lines].
  assert (skip_this 8 (0 + length meta) = true) as -> by (apply Nat.ltb_lt; lia).
  change (IS_QUOTE QUOTE) with true. cbv iota.
  rewrite tokenize_quoted_skip by done. done.
Qed.

Lemma read_csv_quote_in_skipped_line_witness :
  read_csv_bytes 8 (String QUOTE file_A) = Raise EmptyDataError.
Proof.
  apply (read_csv_quote_in_skipped_line NL_LF [] file_A).
  - simpl. lia.
  - reflexivity.
  - vm_compute. reflexivity.
  - vm_compute. reflexivity.
Defined.

(** X8. A double quote that opens a field after the rows of a file
    and is never closed stops the read: the reader raises
    [ParserError], "EOF inside string starting at row ..", with the
    number of the lines read before the field. *)
Theorem read_csv_open_quote_in_data (nl : newline) (meta header : list string)
    (data : list (list string)) (rest : string) :
  well_formed 8 meta header data = true →
  string_forall (λ c, negb (IS_QUOTE c)) rest = true →
  utf8_valid rest = true →
  read_csv_bytes 8 (render_file nl meta header data +:+ String QUOTE rest)
  = Raise (ParserError_eof (9 + length data)).
Proof.
  intros Hwf Hrest Hutf. unfold read_csv_bytes.
  rewrite read_text_valid.
  2:{ apply utf8_valid_app; [by eapply utf8_valid_render_file|].
      change (String QUOTE rest) with (String QUOTE "" +:+ rest).
      by apply utf8_valid_app. }
  cbn [mbind result_bind]. unfold tokenize_all_rows.
  rewrite tokenize_bytes_app, tokenize_bytes_well_formed by done.
  cbn [tokenize_bytes]. unfold tokenize_byte, start_record_byte. cbn [state file_lines].
  assert (skip_this 8 (8 + 1 + length data) = false) as -> by (apply Nat.ltb_ge; lia).
  change (IS_TERMINATOR QUOTE) with false. change (IS_CARRIAGE QUOTE) with false.
  change (isblank QUOTE) with false. cbv iota.
  unfold start_field_byte.
  change (IS_TERMINATOR QUOTE) with false. change (IS_CARRIAGE QUOTE) with false.
  change (IS_QUOTE QUOTE) with true. cbv iota. psimpl.
  rewrite tokenize_in_quoted by done. done.
Qed.

Lemma read_csv_open_quote_in_data_witness :
  read_csv_bytes 8 (file_one_row +:+ String QUOTE "BCA,BCA,2")
  = Raise (ParserError_eof 10).
Proof.
  apply (read_csv_open_quote_in_data NL_LF META HEADER [hour_row 1] "BCA,BCA,2");
    reflexivity.
Defined.



(** X10. The reader never makes more rows than the file has lines after
    the 8 skipped lines and the header row: whatever the bytes of a
    file in which no line is ended by a CR alone, a table that is read
    of it has at most [line_count - 9] rows.  (After a line ended by a
    CR alone the C code can read a line twice, and the model is not the
    reader there.) *)
Theorem pd_read_csv_row_bound (fs : filesystem) (path data : string) (df : DataFrame) :
  read_bytes fs path = Ok data →
  no_lone_cr data = true →
  pd_read_csv fs path 8 = Ok df →
  nrows df + 9 ≤ line_count data.
Proof.
  intros Hdata _ (data' & Hbytes & Hread)%pd_read_csv_Ok.
  rewrite Hdata in Hbytes. injection Hbytes as <-.
  pose proof Hread as (text & Htext & _)%bind_Ok.
  unfold read_text in Htext. destruct (utf8_valid data); [|done]. simplify_eq.
  apply read_csv_bytes_Ok in Hread as (p & header & data_lines & Htok & Hlines & ->).
  apply tokenize_all_rows_row_bound in Htok; [|by rewrite Hlines].
  rewrite Hlines in Htok. unfold nrows. simpl in *. rewrite length_imap, length_fmap. lia.
Qed.

Lemma pd_read_csv_row_bound_witness :
  ∃ df, pd_read_csv fs_AB path_A 8 = Ok df ∧ nrows df + 9 ≤ line_count file_A.
Proof.
  assert (∃ df, pd_read_csv fs_AB path_A 8 = Ok df) as [df Hdf].
  { eexists. vm_compute. reflexivity. }
  exists df. split; [exact Hdf|].
  apply (pd_read_csv_row_bound fs_AB path_A file_A df); [reflexivity|reflexivity|exact Hdf].
Defined.

(** X11. Renaming repeated names leaves the other columns alone: in a
    header row without empty names, a name that occurs once is the name
    of its column, whatever names are repeated beside it. *)
Theorem column_names_unique_kept (names : list string) (i : nat) (name : string) :
  "" ∉ names →
  names !! i = Some name →
  (∀ k, names !! k = Some name → k = i) →
  column_names names !! i = Some name.
Proof.
  intros Hne Hi Huniq. unfold column_names.
  rewrite unnamed_col_indices_nil, this_header_id, app_nil_r by done.
  apply (mangle_fold_keeps (length names) _ i name [] names ∅ (mangle_inv_init names));
    [| |done|done].
  - apply NoDup_filter, NoDup_seq.
  - intros j [_ Hj]%list_elem_of_filter. apply elem_of_seq in Hj.
    split; [lia|by intros ?%elem_of_nil].
Qed.

Lemma column_names_unique_kept_witness :
  column_names ["a"; "Hora"; "a"; "a.1"] !! 1 = Some "Hora".
Proof.
  apply column_names_unique_kept.
  - intros H. by repeat (apply elem_of_cons in H as [H|H]; [done|]); apply elem_of_nil in H.
  - reflexivity.
  - intros [|[|[|[|k]]]] H; simpl in H; by simplify_eq.
Defined.

(** ** Paths and the listing of the folder *)

(** X12. Splitting undoes joining: for a name without a slash,
    [os.path.split(os.path.join(d, name))] gives back the name, and the
    directory [d] without its trailing slashes (or [d] itself when it is
    empty or made of slashes only). *)
Theorem os_path_split_join (d name : string) :
  slash_free name = true →
  os_path_split (os_path_join d name)
  = (if all_slashes d then d else rstrip_slash d, name).
Proof. apply os_path_split_join_eq. Qed.

Lemma os_path_split_join_witness :
  os_path_split (os_path_join DATA_FOLDER "*.csv") = ("./data/raw_data", "*.csv").
Proof. apply (os_path_split_join DATA_FOLDER "*.csv"). reflexivity. Defined.

(** X13. The paths of [csv_files] are the entries of the data folder
    whose names end in [.csv] and do not begin with a dot, each under
    the folder's path, whatever the entry is: a path is listed exactly
    when it is such a name under the folder, and opening a listed path
    finds the entry it was listed for.  So [add_file_name] on a listed
    path reads the bytes of a regular file, and raises
    [IsADirectoryError] for a directory, [FileNotFoundError] for a link
    whose target does not exist and [PermissionError] for a file that
    may not be read: the listing does not keep such entries from the
    loop. *)
Theorem csv_files_spec (fs : filesystem) (path : string) :
  (∀ entries, fs !! "./data/raw_data" = Some entries →
     Forall (λ e, slash_free e.1 = true) entries) →
  path ∈ csv_files fs ↔
  ∃ name entries i, path = "./data/raw_data/" +:+ name
    ∧ slash_free name = true ∧ is_csv_name name = true
    ∧ fs !! "./data/raw_data" = Some entries
    ∧ find_entry name entries = Some i
    ∧ read_bytes fs path = open_entry path i.
Proof.
  intros Hnames. rewrite elem_of_csv_files. split.
  - intros (name & -> & Hcsv & Hin).
    pose proof Hin as (entries & Hfs & [i Hfind])%elem_of_iterdir.
    exists name, entries, i.
    assert (Hfree : slash_free name = true).
    { assert (name ∈ entries.*1) as Hn by (apply find_entry_Some; eauto).
      apply list_elem_of_fmap in Hn as (e & -> & He).
      specialize (Hnames _ Hfs). by eapply Forall_forall in Hnames. }
    rewrite os_path_join_slash_free by done. simpl.
    change ("./data/raw_data" +:+ "/" +:+ name) with ("./data/raw_data/" +:+ name).
    rewrite read_bytes_entry, Hfs, Hfind by done. done.
  - intros (name & entries & i & -> & Hfree & Hcsv & Hfs & Hfind & _). exists name.
    rewrite os_path_join_slash_free by done. split; [done|]. split; [done|].
    apply elem_of_iterdir. eauto.
Qed.

Lemma csv_files_spec_witness :
  "./data/raw_data/old.csv" ∈ csv_files fs_sample
  ∧ "./data/raw_data/gone.csv" ∈ csv_files fs_sample
  ∧ add_file_name fs_sample "./data/raw_data/old.csv"
    = Raise (IsADirectoryError "./data/raw_data/old.csv")
  ∧ add_file_name fs_sample "./data/raw_data/gone.csv"
    = Raise (FileNotFoundError "./data/raw_data/gone.csv").
Proof.
  assert (Hnames : ∀ entries, fs_sample !! "./data/raw_data" = Some entries →
            Forall (λ e, slash_free e.1 = true) entries).
  { intros entries H. vm_compute in H. injection H as <-. repeat constructor. }
  split; [|split; [|split; reflexivity]].
  - apply (csv_files_spec fs_sample "./data/raw_data/old.csv" Hnames).
    eexists "old.csv", _, Directory. repeat split; reflexivity.
  - apply (csv_files_spec fs_sample "./data/raw_data/gone.csv" Hnames).
    eexists "gone.csv", _, BrokenLink. repeat split; reflexivity.
Defined.

(** X14. A file of the data folder that the reader reads on its own, as
    cell 4 reads its sample file, is one of [csv_files] when its name
    ends in [.csv] and does not begin with a dot; the run then yields
    [full_df], which has at least the rows of that file. *)
Theorem readable_file_in_full_df (fs : filesystem) (name : string) (df0 : DataFrame) :
  slash_free name = true →
  is_csv_name name = true →
  pd_read_csv fs ("./data/raw_data/" +:+ name) 8 = Ok df0 →
  ("./data/raw_data/" +:+ name) ∈ csv_files fs
  ∧ ∃ ds, (build fs).1 = Ok ds ∧ nrows df0 ≤ nrows ds.
Proof.
  intros Hfree Hcsv Hread.
  assert (Hin : ("./data/raw_data/" +:+ name) ∈ csv_files fs).
  { apply elem_of_csv_files. exists name.
    rewrite os_path_join_slash_free by done. split; [done|]. split; [done|].
    apply elem_of_iterdir.
    apply pd_read_csv_Ok in Hread as (data & Hbytes & _).
    rewrite read_bytes_entry in Hbytes by done.
    destruct (fs !! "./data/raw_data") as [entries|]; [|done].
    exists entries. split; [done|]. by destruct (find_entry name entries). }
  split; [done|]. by eapply build_holds_file.
Qed.

Lemma readable_file_in_full_df_witness :
  ∃ df_sample, cell_4 fs_sample = Ok (df_sample, DataFrame_head df_sample 5)
    ∧ SAMPLE_FILE ∈ csv_files fs_sample
    ∧ ∃ ds, (build fs_sample).1 = Ok ds ∧ nrows df_sample ≤ nrows ds.
Proof.
  assert (∃ df, pd_read_csv fs_sample SAMPLE_FILE 8 = Ok df) as [df Hdf].
  { eexists. vm_compute. reflexivity. }
  exists df. split; [unfold cell_4; by rewrite Hdf|].
  apply (readable_file_in_full_df fs_sample SAMPLE_NAME df); [reflexivity|reflexivity|exact Hdf].
Defined.

(** X15. No file is listed twice: when the names of the entries of the
    data folder differ from each other, as they do in a directory, so
    do the paths of [csv_files]. *)
Theorem csv_files_NoDup (fs : filesystem) :
  (∀ entries, fs !! "./data/raw_data" = Some entries → NoDup entries.*1) →
  NoDup (csv_files fs).
Proof.
  intros Hnd. rewrite csv_files_eq.
  apply NoDup_fmap_2; [apply data_folder_join_inj|]. apply NoDup_filter.
  unfold iterdir. destruct (fs !! "./data/raw_data") as [entries|] eqn:E.
  - by apply Hnd.
  - constructor.
Qed.

Lemma csv_files_NoDup_witness : NoDup (csv_files fs_five_files).
Proof.
  apply csv_files_NoDup. intros entries H. vm_compute in H. injection H as <-.
  apply (bool_decide_unpack _). vm_compute. exact I.
Defined.

(** ** The table of the run, [full_df] *)

(** X16. The columns of [full_df] are the columns of the tables read,
    each once: the columns of the first table come first, in their
    order, and the others follow; [file_name] is one of them, no name
    is repeated, and every row has one value for each column. *)
Theorem full_df_columns (fs : filesystem) (ds : DataFrame) :
  (build fs).1 = Ok ds →
  NoDup (columns ds)
  ∧ rows_fit ds
  ∧ "file_name" ∈ columns ds
  ∧ (∀ c, c ∈ columns ds ↔
       ∃ file df, (file, df) ∈ parsed fs (csv_files fs) ∧ c ∈ columns df)
  ∧ (∀ file df rest, parsed fs (csv_files fs) = (file, df) :: rest →
       columns df `prefix_of` columns ds).
Proof.
  intros Hb. rewrite build_unfold in Hb. simpl in Hb.
  destruct (pd_concat_columns_spec _ _ Hb (parsed_columns_NoDup fs (csv_files fs)))
    as (Hnd & Hiff & Hprefix).
  assert (Helem : ∀ c, c ∈ columns ds ↔
            ∃ file df, (file, df) ∈ parsed fs (csv_files fs) ∧ c ∈ columns df).
  { intros c. rewrite Hiff. split.
    - intros (df & ([file df'] & -> & Hin)%list_elem_of_fmap & Hc). eauto.
    - intros (file & df & Hin & Hc). exists df. split; [|done].
      apply list_elem_of_fmap. by exists (file, df). }
  split; [done|]. split; [|split; [|split; [done|]]].
  - eapply pd_concat_rows_fit; [done|]. apply parsed_rows_fit.
  - destruct (parsed fs (csv_files fs)) as [|[file df] rest] eqn:Hp; [done|].
    apply Helem. exists file, df. split; [left|].
    assert ((file, df) ∈ parsed fs (csv_files fs)) as Hin by (rewrite Hp; left).
    apply elem_of_parsed in Hin as [_ Hadd].
    by apply add_file_name_sound in Hadd as (_ & _ & ? & _).
  - intros file df rest Hp. apply (Hprefix df rest.*2). by rewrite Hp.
Qed.

Lemma full_df_columns_witness :
  ∃ ds, (build fs_mixed_columns).1 = Ok ds
    ∧ columns ds = ["a"; "b"; "c"; "file_name"; "d"]
    ∧ NoDup (columns ds) ∧ rows_fit ds.
Proof.
  assert (∃ ds, (build fs_mixed_columns).1 = Ok ds
                ∧ columns ds = ["a"; "b"; "c"; "file_name"; "d"]) as (ds & Hds & Hcols).
  { eexists. split; vm_compute; reflexivity. }
  exists ds. split; [exact Hds|]. split; [exact Hcols|].
  destruct (full_df_columns fs_mixed_columns ds Hds) as (H1 & H2 & _). auto.
Defined.



(** X18. A table that lacks a column of [full_df] has the missing value
    under that column in every one of its rows. *)
Theorem full_df_missing_column (fs : filesystem) (ds : DataFrame) (file : string)
    (df : DataFrame) (c : string) :
  (build fs).1 = Ok ds →
  (file, df) ∈ parsed fs (csv_files fs) →
  c ∈ columns ds → c ∉ columns df →
  length (align (columns ds) df) = nrows df
  ∧ ∀ cells, cells ∈ align (columns ds) df →
      cells ∈ r_cells <$> rows ds
      ∧ get_named c (columns ds) cells = Some NaN
      ∧ get_named "file_name" (columns ds) cells = Some (Text file).
Proof.
  intros Hb Hin Hc Hnc. rewrite build_unfold in Hb. simpl in Hb.
  split; [apply length_align|].
  intros cells Hcells.
  assert (Hdf : df ∈ (parsed fs (csv_files fs)).*2).
  { apply list_elem_of_fmap. by exists (file, df). }
  split; [|split].
  - rewrite (pd_concat_rows _ _ Hb), renumber_cells.
    apply list_elem_of_bind. eauto.
  - apply list_elem_of_lookup in Hcells as (i & Hi).
    assert (is_Some (rows df !! i)) as [r Hr].
    { apply lookup_lt_is_Some. change (length (rows df)) with (nrows df).
      rewrite <-(length_align (columns ds) df). by eapply lookup_lt_Some. }
    destruct (align_lookup (columns ds) df i r Hr) as (cells' & Hi' & _ & Hnan).
    rewrite Hi in Hi'. simplify_eq. by apply Hnan.
  - apply list_elem_of_lookup in Hcells as (i & Hi).
    assert (is_Some (rows df !! i)) as [r Hr].
    { apply lookup_lt_is_Some. change (length (rows df)) with (nrows df).
      rewrite <-(length_align (columns ds) df). by eapply lookup_lt_Some. }
    destruct (align_lookup (columns ds) df i r Hr) as (cells' & Hi' & Hsame & _).
    rewrite Hi in Hi'. simplify_eq.
    apply elem_of_parsed in Hin as [_ Hadd].
    apply add_file_name_sound in Hadd as (_ & Hfit & Hkey & Htag).
    rewrite Hsame; [|done| |done].
    + by eapply Forall_lookup_1 in Htag.
    + by eapply pd_concat_columns.
Qed.

Lemma full_df_missing_column_witness :
  ∃ ds, (build fs_mixed_columns).1 = Ok ds
    ∧ r_cells <$> rows ds
      = [[Text "1"; Text "2"; Text "3"; Text "./data/raw_data/d1.csv"; NaN];
         [Text "4"; Text "5"; Text "6"; Text "./data/raw_data/d1.csv"; NaN];
         [NaN; NaN; Text "7"; Text "./data/raw_data/d2.csv"; Text "8"]]
    ∧ ∀ cells, cells ∈ [[NaN; NaN; Text "7"; Text "./data/raw_data/d2.csv"; Text "8"]] →
        get_named "a" (columns ds) cells = Some NaN.
Proof.
  assert (∃ ds, (build fs_mixed_columns).1 = Ok ds
      ∧ r_cells <$> rows ds
        = [[Text "1"; Text "2"; Text "3"; Text "./data/raw_data/d1.csv"; NaN];
           [Text "4"; Text "5"; Text "6"; Text "./data/raw_data/d1.csv"; NaN];
           [NaN; NaN; Text "7"; Text "./data/raw_data/d2.csv"; Text "8"]]
      ∧ columns ds = ["a"; "b"; "c"; "file_name"; "d"]) as (ds & Hds & Hrows & Hcols).
  { eexists. split; [|split]; vm_compute; reflexivity. }
  exists ds. split; [exact Hds|]. split; [exact Hrows|].
  intros cells Hcells.
  refine (proj1 (proj2 (proj2 (full_df_missing_column fs_mixed_columns ds
            "./data/raw_data/d2.csv"
            {| columns := ["c"; "d"; "file_name"];
               rows := [mk_row (Pos 0) [Text "7"; Text "8"; Text "./data/raw_data/d2.csv"]] |}
            "a" Hds _ _ _) cells _))).
  - vm_compute. right. left.
  - rewrite Hcols. left.
  - intros H. by repeat (apply elem_of_cons in H as [H|H]; [done|]); apply elem_of_nil in H.
  - rewrite Hcols. exact Hcells.
Defined.

(** ** The loop of cell 9 *)

(** X19. A file whose read raises leaves no trace in [all_dataframes]:
    the loop collects the tables that it would collect without that
    file, and prints the line about the file between the lines of the
    files before it and those of the files after it. *)
Theorem loop_skips_failed_file (fs : filesystem) (before : list string) (file : string)
    (e : exception) (after : list string) :
  add_file_name fs file = Raise e →
  all_dataframes (read_all fs (before ++ file :: after))
    = all_dataframes (read_all fs (before ++ after))
  ∧ stdout (read_all fs (before ++ file :: after))
    = stdout (read_all fs before) ++ Failed_to_read file e :: stdout (read_all fs after).
Proof.
  intros Hraise. rewrite !read_all_frames, !read_all_stdout.
  assert (parsed fs [file] = []) as Hp by (unfold parsed; simpl; by rewrite Hraise).
  assert (failed fs [file] = [(file, e)]) as Hf by (unfold failed; simpl; by rewrite Hraise).
  rewrite !parsed_app, failed_app, (parsed_cons fs file after), (failed_cons fs file after).
  rewrite Hp, Hf. split; [done|]. by rewrite fmap_app.
Qed.

Lemma loop_skips_failed_file_witness :
  all_dataframes (read_all fs_sample [SAMPLE_FILE; "./data/raw_data/old.csv"; path_B])
    = all_dataframes (read_all fs_sample [SAMPLE_FILE; path_B])
  ∧ stdout (read_all fs_sample [SAMPLE_FILE; "./data/raw_data/old.csv"; path_B])
    = stdout (read_all fs_sample [SAMPLE_FILE])
      ++ Failed_to_read "./data/raw_data/old.csv"
           (IsADirectoryError "./data/raw_data/old.csv")
         :: stdout (read_all fs_sample [path_B]).
Proof.
  apply (loop_skips_failed_file fs_sample [SAMPLE_FILE] "./data/raw_data/old.csv"
           (IsADirectoryError "./data/raw_data/old.csv") [path_B]).
  reflexivity.
Defined.

(** ** The display cells *)

(** X20. The sample of cell 8 and the head of [full_df]: cell 7 prints
    [Found 0 CSV files] and cell 8 raises [IndexError] exactly when no
    file is listed; when cell 8 shows the first rows of the first file,
    the run yields [full_df], and [full_df.head()] of cell 12 shows, row
    by row, the same values under the same columns, with the path of
    that file under [file_name] and the rows numbered from 0. *)
Theorem sample_and_head (fs : filesystem) :
  (found_line (csv_files fs) = "Found 0 CSV files" ↔ csv_files fs = [])
  ∧ (cell_8 fs = IndexError ↔ csv_files fs = [])
  ∧ ∀ df_sample shown, cell_8 fs = Value (df_sample, shown) →
      ∃ first full_df shown',
        csv_files fs !! 0 = Some first
        ∧ shown = DataFrame_head df_sample 5
        ∧ (build fs).1 = Ok full_df
        ∧ cell_12 fs = Ok shown'
        ∧ ∀ i r0, rows shown !! i = Some r0 →
            ∃ r, rows shown' !! i = Some r
              ∧ r_label r = Pos i
              ∧ get_named "file_name" (columns shown') (r_cells r) = Some (Text first)
              ∧ ∀ c, c ∈ columns shown → c ≠ "file_name" →
                  get_named c (columns shown') (r_cells r)
                  = get_named c (columns shown) (r_cells r0).
Proof.
  split; [apply found_line_zero|]. split.
  { unfold cell_8. destruct (csv_files fs) as [|first files]; [done|].
    by destruct (pd_read_csv fs first 8). }
  intros df_sample shown Hcell. unfold cell_8 in Hcell.
  destruct (csv_files fs) as [|first files] eqn:Hfiles; [done|].
  destruct (pd_read_csv fs first 8) as [df0|] eqn:Hread; [|done].
  injection Hcell as -> <-.
  set (df1 := setitem df_sample "file_name" (Text first)).
  assert (Hadd : add_file_name fs first = Ok df1).
  { apply add_file_name_Ok. eauto. }
  assert (Hparsed : parsed fs (csv_files fs) = (first, df1) :: parsed fs files).
  { rewrite Hfiles, parsed_cons. unfold parsed at 1. simpl. by rewrite Hadd. }
  destruct (build_is_ok fs) as [ds Hds]; [by rewrite Hparsed|].
  exists first, ds, (DataFrame_head ds 5).
  split; [done|]. split; [done|]. split; [done|].
  split; [unfold cell_12; by rewrite Hds|].
  intros i r0 Hi. cbn [DataFrame_head rows columns] in *.
  apply lookup_take_Some in Hi as [Hr0 Hi5].
  pose proof (pd_read_csv_sound _ _ _ _ Hread) as [_ Hfit0].
  destruct (setitem_lookup df_sample "file_name" (Text first) i r0 Hfit0 Hr0)
    as (r1 & Hr1 & _ & Htag & Hold).
  fold df1 in Hr1, Htag, Hold.
  destruct (align_lookup (columns ds) df1 i r1 Hr1) as (cells & Hcells & Hsame & _).
  rewrite build_unfold in Hds. simpl in Hds.
  assert (Hsub : ∀ c, c ∈ columns df1 → c ∈ columns ds).
  { intros c Hc. eapply pd_concat_columns; [done| |done].
    rewrite Hparsed. left. }
  specialize (Hsame (setitem_rows_fit df_sample "file_name" (Text first) Hfit0)).
  exists {| r_label := Pos i; r_cells := cells |}.
  split; [|split; [done|split]].
  - apply lookup_take_Some. split; [|done].
    rewrite (pd_concat_rows _ _ Hds), Hparsed.
    rewrite fmap_cons, bind_cons. unfold renumber. rewrite list_lookup_imap.
    by rewrite (lookup_app_l_Some _ _ _ _ Hcells).
  - cbn [r_cells]. rewrite Hsame; [done| |]; [apply Hsub|]; apply setitem_key_in.
  - intros c Hc Hne. cbn [r_cells].
    rewrite Hsame; [by apply Hold| |]; [apply Hsub|]; by apply setitem_columns_incl.
Qed.

(** ** [add_file_name] *)

(** X21. What [df["file_name"] = path] does to the table read.  For a
    file that [pd.read_csv] reads and that has no column called
    [file_name], [add_file_name] yields the table read with one more
    column, the last, called [file_name], that holds the path on every
    row.  In every case the rows and their labels are those read, every
    row holds the path under [file_name], and the values under the
    columns with another name are unchanged; a column read under the
    name [file_name] is not kept, its values are replaced by the
    path. *)
Theorem add_file_name_frame (fs : filesystem) (path : string) (df0 : DataFrame) :
  pd_read_csv fs path 8 = Ok df0 →
  ("file_name" ∉ columns df0 →
     add_file_name fs path
     = Ok {| columns := columns df0 ++ ["file_name"];
             rows := map_cells (λ cells, cells ++ [Text path]) <$> rows df0 |})
  ∧ ("file_name" ∈ columns df0 →
     add_file_name fs path
     = Ok {| columns := columns df0;
             rows := map_cells (set_named "file_name" (Text path) (columns df0))
                       <$> rows df0 |})
  ∧ ∃ df, add_file_name fs path = Ok df
      ∧ Forall2 (λ r0 r,
            r_label r = r_label r0
            ∧ get_named "file_name" (columns df) (r_cells r) = Some (Text path)
            ∧ ∀ c, c ∈ columns df0 → c ≠ "file_name" →
                get_named c (columns df) (r_cells r)
                = get_named c (columns df0) (r_cells r0))
          (rows df0) (rows df).
Proof.
  intros Hread. pose proof (pd_read_csv_sound _ _ _ _ Hread) as [Hnd Hfit].
  unfold add_file_name. rewrite Hread. simpl. unfold setitem.
  split; [|split].
  - intros Hnot. by rewrite bool_decide_eq_false_2.
  - intros Hin. by rewrite bool_decide_eq_true_2.
  - eexists. split; [done|]. case_bool_decide as Hin; simpl.
    + apply Forall2_fmap_r, Forall_Forall2_diag.
      eapply Forall_impl; [exact Hfit|]. intros r Hr. simpl.
      split; [done|]. split; [by apply get_named_set_named|].
      intros c _ Hc. by apply get_named_set_named_ne.
    + apply Forall2_fmap_r, Forall_Forall2_diag.
      eapply Forall_impl; [exact Hfit|]. intros r Hr. simpl.
      split; [done|]. split; [by apply get_named_snoc_new|].
      intros c Hc _. by apply get_named_snoc_old.
Qed.

Lemma add_file_name_frame_witness :
  add_file_name fs_three_columns path_A
  = Ok {| columns := ["a"; "b"; "c"; "file_name"];
          rows := [mk_row (Pos 0) [Text "1"; Text "2"; Text "3"; Text path_A];
                   mk_row (Pos 1) [Text "4"; Text "5"; Text "6"; Text path_A]] |}.
Proof.
  refine (proj1 (add_file_name_frame fs_three_columns path_A
    {| columns := ["a"; "b"; "c"];
       rows := [mk_row (Pos 0) [Text "1"; Text "2"; Text "3"];
                mk_row (Pos 1) [Text "4"; Text "5"; Text "6"]] |} _) _).
  - vm_compute. reflexivity.
  - vm_compute. intros H. by repeat (apply elem_of_cons in H as [H|H]; [done|]);
      apply elem_of_nil in H.
Defined.
